(** * ndscan applet: the incremental plot-update engine

    A shallow embedding of [ndscan/applet.py]: the channel schema extractor
    [_extract_scalar_channels], the two series classes [_XYSeries] and
    [_Rolling1DSeries], the two plot widgets [_XYPlotWidget] and
    [_RollingPlotWidget], and the top-level [_MainWidget].

    Conventions of the embedding.
    - A Python object is a record; a method takes the object and returns the
      object after the call.  A method that can raise returns a [result], or,
      where the object is mutated before the exception leaves the method, the
      object after the call together with the pending exception.
    - Numbers delivered by the experiment (axis values, channel values, point
      values) are integers [Z]; rounding and NaN of floating point are not
      modelled.  Where the code computes on a NumPy array of them, the
      array has the dtype [int64] and the result wraps around
      ([int64_double]).  The axis scale, which the widget inverts, is a
      rational.
    - The dataset dictionary handed to [data_changed] is the record
      [snapshot], one field per key family read by the applet.  The
      [(persist, value)] pair stored under a key is represented by its value,
      the only component the code reads.
    - [data_changed(data, mods)] never reads [mods]; the argument is left
      out.
    - The iteration order of a Python [set] is not specified; it is the
      parameter [set_iter] of the class [SetOrder]. *)

From Stdlib Require Import QArith Qcanon.
From stdpp Require Import gmap strings list sorting pretty numbers.

Open Scope Z_scope.

(** ** Python exceptions and fallible computations *)

(** The exceptions the modelled code can raise.  [AttributeError name]
    stands for the failed lookup of the attribute [name]; where the lookup
    goes through [pyqtgraph.PlotWidget.__getattr__], old releases of
    pyqtgraph raise [NameError] in its place, which is not told apart. *)

Inductive exn :=
  | ValueError (msg : string)
  | KeyError (key : string)
  | AssertionError (msg : string)
  | AttributeError (name : string)
  | IndexError
  | ZeroDivisionError.

Inductive result (A : Type) :=
  | Ok (a : A)
  | Raise (e : exn).
Arguments Ok {A} a.
Arguments Raise {A} e.

Global Instance result_ret : MRet result := λ A a, Ok a.
Global Instance result_bind : MBind result := λ A B f r,
  match r with
  | Ok a => f a
  | Raise e => Raise e
  end.

(** [not s] for a Python string. *)
Definition str_truthy (s : string) : bool := negb (String.eqb s "").

(** The iteration order of a [set] of strings. *)
Class SetOrder := {
  set_iter : gset string → list string;
  set_iter_perm : ∀ X, set_iter X ≡ₚ elements X
}.

(** ** Data delivered by the experiment *)

(** One entry of the [ndscan.channels] JSON object. *)
Record channel_spec := {
  channel_type : string;
  display_hints : option (gmap string string)
}.

(** One entry of the [ndscan.axes] JSON array. *)
Record param_spec := {
  spec_unit : option string;
  spec_scale : Qc
}.
Record param_schema := {
  param_fqn : string;
  param_description : string;
  param_spec_of : param_spec
}.
Record axis_schema := {
  axis_param : param_schema;
  axis_path : string
}.

(** The dataset dictionary.  [None] (or a key missing from a map) stands for
    a key that is absent from the dictionary.  The two JSON blobs are
    represented by the values they decode to; a JSON text is never the
    empty string. *)
Record snapshot := {
  ndscan_fragment_fqn : option string;              (* "ndscan.fragment_fqn" *)
  ndscan_axes : option (list axis_schema);          (* "ndscan.axes" *)
  ndscan_channels : option (gmap string channel_spec); (* "ndscan.channels" *)
  ndscan_points_axis_0 : option (list Z);           (* "ndscan.points.axis_0" *)
  ndscan_points_channel : gmap string (list Z);     (* "ndscan.points.channel_" + name *)
  ndscan_point_phase : option bool;                 (* "ndscan.point_phase" *)
  ndscan_point : gmap string Z                      (* "ndscan.point." + name *)
}.

(** ** pyqtgraph items, reduced to the data they display *)

Record ScatterPlotItem := {
  scatter_brush : string;
  scatter_x : list Z;
  scatter_y : list Z
}.

Record ErrorBarItem := {
  errbar_pen : string;
  errbar_x : list Z;
  errbar_y : list Z;
  errbar_height : list Z
}.

Definition new_scatter (color : string) : ScatterPlotItem :=
  {| scatter_brush := color; scatter_x := []; scatter_y := [] |}.
Definition new_errbar (color : string) : ErrorBarItem :=
  {| errbar_pen := color; errbar_x := []; errbar_y := []; errbar_height := [] |}.

Definition scatter_setData (it : ScatterPlotItem) (x y : list Z) : ScatterPlotItem :=
  {| scatter_brush := scatter_brush it; scatter_x := x; scatter_y := y |}.
Definition errbar_setData (it : ErrorBarItem) (x y height : list Z) : ErrorBarItem :=
  {| errbar_pen := errbar_pen it; errbar_x := x; errbar_y := y; errbar_height := height |}.

(** The points a scatter item shows, in drawing order. *)
Definition scatter_points (it : ScatterPlotItem) : list (Z * Z) :=
  zip (scatter_x it) (scatter_y it).

Definition SERIES_COLORS : list string :=
  ["#d9d9d999"; "#fdb46299"; "#80b1d399"; "#fb807299"; "#bebeada99"; "#ffffb399"].

Definition series_color (i : nat) : string :=
  default "" (SERIES_COLORS !! (i mod length SERIES_COLORS)%nat).

(** ** numpy helpers *)

(** [a[order]]: indexing by an array of indices. *)
Fixpoint fancy_index (a : list Z) (order : list nat) : result (list Z) :=
  match order with
  | [] => Ok []
  | i :: order' =>
      match a !! i with
      | None => Raise IndexError
      | Some v => vs ← fancy_index a order'; Ok (v :: vs)
      end
  end.

Definition key_le (a b : Z * nat) : Prop := a.1 ≤ b.1.
Global Instance key_le_dec : RelDecision key_le.
Proof. intros a b. unfold key_le. apply _. Defined.

(** [np.argsort(a)]: the indices that sort [a].  numpy leaves the order of
    equal keys open; the merge sort used here keeps some order of them. *)
Definition argsort (a : list Z) : list nat :=
  (merge_sort key_le (zip a (seq 0 (length a)))).*2.

(** The value an [int64] holds after an operation whose exact result is
    [z]: the result wraps around. *)
Definition int64_wrap (z : Z) : Z := (z + 2 ^ 63) `mod` 2 ^ 64 - 2 ^ 63.

(** [2 * np.array(a)] for a list [a] of integers of the [int64] range, to
    which [np.array] gives the dtype [int64]. *)
Definition int64_double (a : list Z) : list Z := (λ e, int64_wrap (2 * e)) <$> a.

(** [a[-k:]] for [k >= 0]. *)
Definition slice_last {A} (k : nat) (a : list A) : list A :=
  if decide (k = 0%nat) then a else drop (length a - k)%nat a.

(** [np.arange(-n, 0)]. *)
Definition arange_neg (n : Z) : list Z := seqZ (- n) n.

(** [np.roll(a, -1, axis=0)]. *)
Definition roll_left {A} (a : list A) : list A := drop 1 a ++ take 1 a.

(** [a[:, j]] of a two-dimensional array kept as a list of rows.  Every row
    of the arrays built below has the width the column access needs (see
    [values_width]). *)
Definition column (j : nat) (a : list (list Z)) : list Z :=
  (λ row, default 0 (row !! j)) <$> a.

(** ** [_extract_scalar_channels] *)

Definition error_bar_for (spec : channel_spec) : string :=
  default "" (default ∅ (display_hints spec) !! "error_bar_for").

Definition is_scalar (spec : channel_spec) : bool :=
  bool_decide (channel_type spec ∈ ["int"; "float"]).

Definition conflict_message (eb : string) : string :=
  "More than one set of error bars specified for channel '" +:+ eb +:+ "'".

(** The loop over [data_names] that fills [error_bar_names]. *)
Fixpoint collect_error_bars (channels : gmap string channel_spec)
    (names : list string) (error_bar_names : gmap string string)
    : result (gmap string string) :=
  match names with
  | [] => Ok error_bar_names
  | name :: names' =>
      match channels !! name with
      | None => Raise (KeyError name)
      | Some spec =>
          let eb := error_bar_for spec in
          if str_truthy eb then
            if decide (is_Some (error_bar_names !! eb)) then
              Raise (ValueError (conflict_message eb))
            else collect_error_bars channels names' (<[eb := name]> error_bar_names)
          else collect_error_bars channels names' error_bar_names
      end
  end.

Definition scalar_names (channels : gmap string channel_spec) : gset string :=
  dom (filter (λ kv, is_scalar kv.2 = true) channels).

Definition _extract_scalar_channels `{SetOrder}
    (channels : gmap string channel_spec)
    : result (gset string * gmap string string) :=
  let data_names := scalar_names channels in
  error_bar_names ← collect_error_bars channels (set_iter data_names) ∅;
  let data_names := data_names ∖ map_img error_bar_names in
  Ok (data_names, error_bar_names).

(** ** [_XYSeries] *)

Module _XYSeries.

(** [error_bar] holds [error_bar_name] and [error_bar_item] together: the
    name is read only when the item is not [None].  The two flags record the
    calls of [self.plot.addItem]. *)
Record t := mk {
  data_name : string;
  data_item : ScatterPlotItem;
  error_bar : option (string * ErrorBarItem);
  plot_left_to_right : bool;
  num_current_points : nat;
  data_item_added : bool;
  error_bar_item_added : bool
}.

Definition __init__ (data_name : string) (data_item : ScatterPlotItem)
    (error_bar : option (string * ErrorBarItem)) (plot_left_to_right : bool) : t :=
  {| data_name := data_name;
     data_item := data_item;
     error_bar := error_bar;
     plot_left_to_right := plot_left_to_right;
     num_current_points := 0;
     data_item_added := false;
     error_bar_item_added := false |}.

(** [data.get("ndscan.points.channel_" + name, (False, []))[1]] *)
Definition channel (data : snapshot) (name : string) : list Z :=
  default [] (ndscan_points_channel data !! name).

Definition num_to_show (self : t) (x_data : list Z) (data : snapshot) : nat :=
  let y_data := channel data (data_name self) in
  let num_to_show := Nat.min (length x_data) (length y_data) in
  match error_bar self with
  | Some (error_bar_name, _) =>
      Nat.min num_to_show (length (channel data error_bar_name))
  | None => num_to_show
  end.

(** An [IndexError] from one of the index expressions [a[order]] is
    modelled as leaving the series as it was; [update_never_raises] shows
    that none is raised. *)
Definition update (self : t) (x_data : list Z) (data : snapshot) : result t :=
  let y_data := channel data (data_name self) in
  let num_to_show := num_to_show self x_data data in
  if decide (num_to_show = num_current_points self) then Ok self
  else
    let first := bool_decide (num_current_points self = 0%nat) in
    if plot_left_to_right self then
      let order := argsort (take num_to_show x_data) in
      xs ← fancy_index x_data order;
      ys ← fancy_index y_data order;
      error_bar' ←
        match error_bar self with
        | Some (error_bar_name, error_bar_item) =>
            hs ← fancy_index (channel data error_bar_name) order;
            Ok (Some (error_bar_name, errbar_setData error_bar_item xs ys hs))
        | None => Ok None
        end;
      Ok {| data_name := data_name self;
            data_item := scatter_setData (data_item self) xs ys;
            error_bar := error_bar';
            plot_left_to_right := plot_left_to_right self;
            num_current_points := num_to_show;
            data_item_added := data_item_added self || first;
            error_bar_item_added :=
              error_bar_item_added self || (first && bool_decide (is_Some (error_bar self))) |}
    else
      let xs := take num_to_show x_data in
      let ys := take num_to_show y_data in
      let error_bar' :=
        match error_bar self with
        | Some (error_bar_name, error_bar_item) =>
            let y_err := channel data error_bar_name in
            Some (error_bar_name,
                  errbar_setData error_bar_item xs ys
                    (int64_double (take num_to_show y_err)))
        | None => None
        end in
      Ok {| data_name := data_name self;
            data_item := scatter_setData (data_item self) xs ys;
            error_bar := error_bar';
            plot_left_to_right := plot_left_to_right self;
            num_current_points := num_to_show;
            data_item_added := data_item_added self || first;
            error_bar_item_added :=
              error_bar_item_added self || (first && bool_decide (is_Some (error_bar self))) |}.

(** A sequence of [update] calls, each with its own [(x_data, data)]. *)
Fixpoint updates (self : t) (calls : list (list Z * snapshot)) : result t :=
  match calls with
  | [] => Ok self
  | (x_data, data) :: calls' => self' ← update self x_data data; updates self' calls'
  end.

End _XYSeries.

(** ** [_XYPlotWidget] *)

Module _XYPlotWidget.

(** [error_emitted] lists the messages sent through the signal [error]. *)
Record t := mk {
  series_initialised : bool;
  series : list _XYSeries.t;
  x_unit_suffix : string;
  bottom_label : string;
  x_data_to_display_scale : Qc;
  error_emitted : list string
}.

(** The constructor up to the axis set-up; the crosshair and the context
    menu it installs afterwards hold no plot data, and
    [_extract_linked_datasets] catches what evaluating the default raises. *)
Definition __init__ (x_schema : axis_schema) : result t :=
  let x_spec := param_spec_of (axis_param x_schema) in
  let unit := default "" (spec_unit x_spec) in
  let x_unit_suffix := if str_truthy unit then " " +:+ unit else "" in
  let unit := if str_truthy unit then "/ " +:+ unit +:+ " " else unit in
  let path := if str_truthy (axis_path x_schema) then axis_path x_schema else "/" in
  let param := param_fqn (axis_param x_schema) +:+ "@" +:+ path in
  let description := param_description (axis_param x_schema) in
  let label := "<b>" +:+ description +:+ " " +:+ unit +:+ "</b><i>(" +:+ param +:+ ")</i>" in
  if decide (spec_scale x_spec = 0%Qc) then Raise ZeroDivisionError
  else
    Ok {| series_initialised := false;
          series := [];
          x_unit_suffix := x_unit_suffix;
          bottom_label := label;
          x_data_to_display_scale := (1 / spec_scale x_spec)%Qc;
          error_emitted := [] |}.

Definition set_series (self : t) (initialised : bool) (series : list _XYSeries.t) : t :=
  {| series_initialised := initialised;
     series := series;
     x_unit_suffix := x_unit_suffix self;
     bottom_label := bottom_label self;
     x_data_to_display_scale := x_data_to_display_scale self;
     error_emitted := error_emitted self |}.

(** The body of [for i, name in enumerate(data_names)]. *)
Definition make_series (error_bar_names : gmap string string)
    (i : nat) (name : string) : _XYSeries.t :=
  let color := series_color i in
  let data_item := new_scatter color in
  let error_bar :=
    match error_bar_names !! name with
    | Some error_bar_name =>
        if str_truthy error_bar_name
        then Some (error_bar_name, new_errbar color) else None
    | None => None
    end in
  _XYSeries.__init__ name data_item error_bar false.

(** [for s in self.series: s.update(x_data, data)] *)
Fixpoint update_all (series : list _XYSeries.t) (x_data : list Z) (data : snapshot)
    : list _XYSeries.t * option exn :=
  match series with
  | [] => ([], None)
  | s :: series' =>
      match _XYSeries.update s x_data data with
      | Raise e => (s :: series', Some e)
      | Ok s' =>
          let '(series'', e) := update_all series' x_data data in
          (s' :: series'', e)
      end
  end.

(** From [x_data = d("points.axis_0")] to the end of [data_changed]. *)
Definition dispatch (self : t) (data : snapshot) : t * option exn :=
  match ndscan_points_axis_0 data with
  | None | Some [] => (self, None)
  | Some x_data =>
      let '(series', e) := update_all (series self) x_data data in
      (set_series self (series_initialised self) series', e)
  end.

(** [self.emit.error(str(e))] in the handler: the widget has the signal
    [error] (whose method is [emit]) and no attribute [emit], so the
    expression raises before anything is sent.  Were it to return, the
    loop that follows would read the unbound local [data_names]. *)
Definition data_changed `{SetOrder} (self : t) (data : snapshot) : t * option exn :=
  if series_initialised self then dispatch self data
  else
    match ndscan_channels data with
    | None => (self, None)
    | Some channels =>
        match _extract_scalar_channels channels with
        | Raise (ValueError msg) => (self, Some (AttributeError "emit"))
        | Raise e => (self, Some e)
        | Ok (data_names, error_bar_names) =>
            let new := imap (make_series error_bar_names) (set_iter data_names) in
            dispatch (set_series self true (series self ++ new)) data
        end
    end.

End _XYPlotWidget.

(** ** [_Rolling1DSeries] *)

Module _Rolling1DSeries.

(** [values] is the two-dimensional array, one row per point: [[value]]
    or [[value, 2 * error]]. *)
Record t := mk {
  data_name : string;
  data_item : ScatterPlotItem;
  error_bar : option (string * ErrorBarItem);
  values : list (list Z);
  x_indices : list Z;
  data_item_added : bool;
  error_bar_item_added : bool
}.

Definition set_buffer (self : t) (x_indices : list Z) (values : list (list Z)) : t :=
  {| data_name := data_name self;
     data_item := data_item self;
     error_bar := error_bar self;
     values := values;
     x_indices := x_indices;
     data_item_added := data_item_added self;
     error_bar_item_added := error_bar_item_added self |}.

Definition set_history_length (self : t) (n : Z) : result t :=
  if decide (n > 0) then
    let x_indices := arange_neg n in
    if decide (Z.of_nat (length (values self)) > n)
    then Ok (set_buffer self x_indices (slice_last (Z.to_nat n) (values self)))
    else Ok (set_buffer self x_indices (values self))
  else Raise (AssertionError "Invalid history length").

Definition __init__ (data_name : string) (data_item : ScatterPlotItem)
    (error_bar : option (string * ErrorBarItem)) (history_length : Z) : result t :=
  set_history_length
    {| data_name := data_name;
       data_item := data_item;
       error_bar := error_bar;
       values := [];
       x_indices := [];
       data_item_added := false;
       error_bar_item_added := false |}
    history_length.

Definition point_key (name : string) : string := "ndscan.point." +:+ name.

(** The row [p] that [append] reads from the dictionary. *)
Definition new_row (self : t) (data : snapshot) : result (list Z) :=
  match ndscan_point data !! data_name self with
  | None => Raise (KeyError (point_key (data_name self)))
  | Some new_data =>
      match error_bar self with
      | Some (error_bar_name, _) =>
          match ndscan_point data !! error_bar_name with
          | None => Raise (KeyError (point_key error_bar_name))
          | Some new_error_bar => Ok [new_data; 2 * new_error_bar]
          end
      | None => Ok [new_data]
      end
  end.

(** The new contents of [self.values] once [p] is known. *)
Definition push (self : t) (p : list Z) : list (list Z) :=
  if bool_decide (length (values self) = 0%nat) then [p]
  else if decide (length (values self) = length (x_indices self))
    then <[Nat.pred (length (values self)) := p]> (roll_left (values self))
    else values self ++ [p].

Definition append (self : t) (data : snapshot) : result t :=
  p ← new_row self data;
  let is_first := bool_decide (length (values self) = 0%nat) in
  let values' := push self p in
  let num_to_show := length values' in
  let xs := slice_last num_to_show (x_indices self) in
  let ys := column 0 values' in
  Ok {| data_name := data_name self;
        data_item := scatter_setData (data_item self) xs ys;
        error_bar :=
          match error_bar self with
          | Some (error_bar_name, error_bar_item) =>
              Some (error_bar_name,
                    errbar_setData error_bar_item xs ys (column 1 values'))
          | None => None
          end;
        values := values';
        x_indices := x_indices self;
        data_item_added := data_item_added self || is_first;
        error_bar_item_added :=
          error_bar_item_added self || (is_first && bool_decide (is_Some (error_bar self))) |}.


(** The row width fixed at construction. *)
Definition width (self : t) : nat :=
  match error_bar self with Some _ => 2%nat | None => 1%nat end.

End _Rolling1DSeries.

(** ** [_RollingPlotWidget] *)

Module _RollingPlotWidget.

(** [num_history_box] is the value of the spin box (minimum 1, maximum
    2**16, initially 100). *)
Record t := mk {
  series_initialised : bool;
  series : list _Rolling1DSeries.t;
  point_phase : bool;
  num_history_box : Z;
  error_emitted : list string
}.

Definition __init__ : t :=
  {| series_initialised := false;
     series := [];
     point_phase := false;
     num_history_box := 100;
     error_emitted := [] |}.

Definition set_series (self : t) (initialised : bool)
    (series : list _Rolling1DSeries.t) : t :=
  {| series_initialised := initialised;
     series := series;
     point_phase := point_phase self;
     num_history_box := num_history_box self;
     error_emitted := error_emitted self |}.

Definition set_point_phase (self : t) (phase : bool) : t :=
  {| series_initialised := series_initialised self;
     series := series self;
     point_phase := phase;
     num_history_box := num_history_box self;
     error_emitted := error_emitted self |}.

(** The body of [for i, data_name in enumerate(data_names)]. *)
Definition make_series (error_bar_names : gmap string string) (history_length : Z)
    (i : nat) (data_name : string) : result _Rolling1DSeries.t :=
  let color := series_color i in
  let data_item := new_scatter color in
  let error_bar :=
    match error_bar_names !! data_name with
    | Some error_bar_name =>
        if str_truthy error_bar_name
        then Some (error_bar_name, new_errbar color) else None
    | None => None
    end in
  _Rolling1DSeries.__init__ data_name data_item error_bar history_length.

(** The loop that appends the new series to [self.series], from index [i]. *)
Fixpoint make_all (error_bar_names : gmap string string) (history_length : Z)
    (i : nat) (names : list string) : list _Rolling1DSeries.t * option exn :=
  match names with
  | [] => ([], None)
  | data_name :: names' =>
      match make_series error_bar_names history_length i data_name with
      | Raise e => ([], Some e)
      | Ok s =>
          let '(ss, e) := make_all error_bar_names history_length (S i) names' in
          (s :: ss, e)
      end
  end.

(** [for s in self.series: s.append(data)] *)
Fixpoint append_all (series : list _Rolling1DSeries.t) (data : snapshot)
    : list _Rolling1DSeries.t * option exn :=
  match series with
  | [] => ([], None)
  | s :: series' =>
      match _Rolling1DSeries.append s data with
      | Raise e => (s :: series', Some e)
      | Ok s' =>
          let '(series'', e) := append_all series' data in
          (s' :: series'', e)
      end
  end.

(** From [phase = d("point_phase")] to the end of [data_changed]. *)
Definition on_phase (self : t) (data : snapshot) : t * option exn :=
  match ndscan_point_phase data with
  | Some phase =>
      if bool_decide (phase ≠ point_phase self) then
        match append_all (series self) data with
        | (series', Some e) => (set_series self (series_initialised self) series', Some e)
        | (series', None) =>
            (set_point_phase (set_series self (series_initialised self) series') phase, None)
        end
      else (self, None)
  | None => (self, None)
  end.

(** The handler of [ValueError] is the one of [_XYPlotWidget.data_changed]. *)
Definition data_changed `{SetOrder} (self : t) (data : snapshot) : t * option exn :=
  if series_initialised self then on_phase self data
  else
    match ndscan_channels data with
    | None => (self, None)
    | Some channels =>
        match _extract_scalar_channels channels with
        | Raise (ValueError msg) => (self, Some (AttributeError "emit"))
        | Raise e => (self, Some e)
        | Ok (data_names, error_bar_names) =>
            match make_all error_bar_names (num_history_box self) 0 (set_iter data_names) with
            | (new, Some e) => (set_series self false (series self ++ new), Some e)
            | (new, None) => on_phase (set_series self true (series self ++ new)) data
            end
        end
    end.

Fixpoint set_history_length_all (series : list _Rolling1DSeries.t) (n : Z)
    : list _Rolling1DSeries.t * option exn :=
  match series with
  | [] => ([], None)
  | s :: series' =>
      match _Rolling1DSeries.set_history_length s n with
      | Raise e => (s :: series', Some e)
      | Ok s' =>
          let '(series'', e) := set_history_length_all series' n in
          (s' :: series'', e)
      end
  end.

Definition set_history_length (self : t) (n : Z) : t * option exn :=
  let '(series', e) := set_history_length_all (series self) n in
  (set_series self (series_initialised self) series', e).

End _RollingPlotWidget.

(** ** [_MainWidget] *)

Module _MainWidget.

Inductive plot_widget :=
  | RollingPlot (w : _RollingPlotWidget.t)
  | XYPlot (w : _XYPlotWidget.t).

(** The widget of [widget_stack] that is shown. *)
Inductive stack_widget := MessageLabel | Plot.

Record t := mk {
  rid : string;
  window_title : string;
  message_label : string;
  current_widget : stack_widget;
  title_set : bool;
  plot_initialised : bool;
  plot : option plot_widget
}.

Definition __init__ (rid : string) : t :=
  {| rid := rid;
     window_title := "ndscan plot";
     message_label := "Waiting for ndscan metadata for rid " +:+ rid +:+ "…";
     current_widget := MessageLabel;
     title_set := false;
     plot_initialised := false;
     plot := None |}.

Definition set_title (self : t) (fqn : string) : t :=
  {| rid := rid self;
     window_title := fqn +:+ " – ndscan";
     message_label := message_label self;
     current_widget := current_widget self;
     title_set := true;
     plot_initialised := plot_initialised self;
     plot := plot self |}.

Definition show_message (self : t) (text : string) : t :=
  {| rid := rid self;
     window_title := window_title self;
     message_label := text;
     current_widget := MessageLabel;
     title_set := title_set self;
     plot_initialised := plot_initialised self;
     plot := plot self |}.

(** [self.plot = p], without the flag. *)
Definition set_plot (self : t) (p : plot_widget) : t :=
  {| rid := rid self;
     window_title := window_title self;
     message_label := message_label self;
     current_widget := current_widget self;
     title_set := title_set self;
     plot_initialised := plot_initialised self;
     plot := Some p |}.

(** [self._show(self.plot); self.plot_initialised = True] *)
Definition show_plot (self : t) : t :=
  {| rid := rid self;
     window_title := window_title self;
     message_label := message_label self;
     current_widget := Plot;
     title_set := title_set self;
     plot_initialised := true;
     plot := plot self |}.

(** The slot connected to the plot's signal [error]. *)
Definition _show_error (self : t) (message : string) : t :=
  show_message self ("Error: " +:+ message).

Definition unsupported_message (n : nat) : string :=
  pretty n +:+ "-dimensional scans are not yet supported".

(** [p.data_changed(data, mods)] for either kind of plot. *)
Definition plot_data_changed `{SetOrder} (p : plot_widget) (data : snapshot)
    : plot_widget * option exn :=
  match p with
  | RollingPlot w =>
      let '(w', e) := _RollingPlotWidget.data_changed w data in (RollingPlot w', e)
  | XYPlot w =>
      let '(w', e) := _XYPlotWidget.data_changed w data in (XYPlot w', e)
  end.

Definition is_rolling (p : plot_widget) : bool :=
  match p with RollingPlot _ => true | XYPlot _ => false end.

(** [self.plot.data_changed(data, mods)] *)
Definition forward `{SetOrder} (self : t) (data : snapshot) : t * option exn :=
  match plot self with
  | None => (self, Some (AttributeError "plot"))
  | Some p =>
      let '(p', e) := plot_data_changed p data in (set_plot self p', e)
  end.

(** From [if not self.plot_initialised] to the end of [data_changed]. *)
Definition on_axes `{SetOrder} (self : t) (data : snapshot) : t * option exn :=
  if plot_initialised self then forward self data
  else
    match ndscan_axes data with
    | None => (self, None)
    | Some axes =>
        match axes with
        | [] => forward (show_plot (set_plot self (RollingPlot _RollingPlotWidget.__init__))) data
        | [x_schema] =>
            match _XYPlotWidget.__init__ x_schema with
            | Raise e => (self, Some e)
            | Ok w => forward (show_plot (set_plot self (XYPlot w))) data
            end
        | _ => (show_message self (unsupported_message (length axes)), None)
        end
    end.

Definition data_changed `{SetOrder} (self : t) (data : snapshot) : t * option exn :=
  if title_set self then on_axes self data
  else
    match ndscan_fragment_fqn data with
    | None => (self, None)
    | Some fqn =>
        if str_truthy fqn then on_axes (set_title self fqn) data
        else (self, None)
    end.

End _MainWidget.

(** The order in which stdpp lists a set, one possible [SetOrder]. *)
Definition elements_order : SetOrder :=
  {| set_iter := elements; set_iter_perm := λ X, reflexivity (elements X) |}.

(** ** Notions used in the statements *)

(** Channel [s] declares [error_bar_for: t], with [t] a non-empty name. *)
Definition declares (channels : gmap string channel_spec) (s t : string) : Prop :=
  ∃ spec, channels !! s = Some spec ∧ error_bar_for spec = t ∧ t ≠ "".

(** Channel [s] is of type [int] or [float]. *)
Definition scalar (channels : gmap string channel_spec) (s : string) : Prop :=
  ∃ spec, channels !! s = Some spec ∧ is_scalar spec = true.

(** The words of the specification: channel [s] is used as an error-bar
    source for another channel. *)
Definition source_for_another (channels : gmap string channel_spec) (s : string) : Prop :=
  ∃ t, t ≠ s ∧ declares channels s t.

(** The result as the specification describes it: (a) the channels of type
    [int] or [float] that are not an error-bar source for another channel,
    and (b) a map that sends every data channel to the channel supplying
    its error bars. *)
Definition partition_as_specified (channels : gmap string channel_spec)
    (data_names : gset string) (error_bar_names : gmap string string) : Prop :=
  (∀ s, s ∈ data_names ↔ scalar channels s ∧ ¬ source_for_another channels s) ∧
  (∀ t s, t ∈ data_names → declares channels s t → error_bar_names !! t = Some s).

(** Two distinct scalar channels declare error bars for [t]. *)
Definition shared_target (channels : gmap string channel_spec) (t : string) : Prop :=
  ∃ s1 s2, s1 ≠ s2 ∧ scalar channels s1 ∧ scalar channels s2 ∧
           declares channels s1 t ∧ declares channels s2 t.

(** The pairs [(key, index)] of the first [n] entries of [x], sorted by key. *)
Definition sorted_pairs (n : nat) (x : list Z) : list (Z * nat) :=
  merge_sort key_le (zip (take n x) (seq 0 (length (take n x)))).


(** The series has history length [n], that is [x_indices] is
    [np.arange(-n, 0)], and its buffer holds at most [n] rows.
    [set_history_length] establishes this and [append] keeps it
    ([set_history_length_capacity], [append_capacity]). *)
Definition has_capacity (n : Z) (self : _Rolling1DSeries.t) : Prop :=
  0 < n ∧
  _Rolling1DSeries.x_indices self = arange_neg n ∧
  (length (_Rolling1DSeries.values self) ≤ Z.to_nat n)%nat.

(** Every row of the buffer has the width of the series. *)
Definition uniform_rows (self : _Rolling1DSeries.t) : Prop :=
  Forall (λ row, length row = _Rolling1DSeries.width self) (_Rolling1DSeries.values self).

(** ** Sample inputs *)

Definition channel_of (type : string) (error_bar_for : option string) : channel_spec :=
  {| channel_type := type;
     display_hints := (λ t, {["error_bar_for" := t]}) <$> error_bar_for |}.

(** [{A: float, A_err: float (error_bar_for=A), B: int, C: string}] *)
Definition example_channels : gmap string channel_spec :=
  <["A" := channel_of "float" None]>
  (<["A_err" := channel_of "float" (Some "A")]>
  (<["B" := {| channel_type := "int"; display_hints := Some ∅ |}]>
  (<["C" := channel_of "string" None]> ∅))).

(** [{A: float (error_bar_for=A)}]: a channel that names itself. *)
Definition self_target_channels : gmap string channel_spec :=
  {["A" := channel_of "float" (Some "A")]}.

(** [{A: float, E: string (error_bar_for=A)}]: the error bars of [A] come
    from a channel of another type. *)
Definition string_source_channels : gmap string channel_spec :=
  <["A" := channel_of "float" None]> (<["E" := channel_of "string" (Some "A")]> ∅).

(** Two scalar channels that both declare [error_bar_for: "A"]. *)
Definition conflict_channels : gmap string channel_spec :=
  <["X" := channel_of "float" (Some "A")]> (<["Y" := channel_of "int" (Some "A")]> ∅).

(** Two channels of another type that both declare [error_bar_for: "A"]. *)
Definition opaque_conflict_channels : gmap string channel_spec :=
  <["X" := channel_of "string" (Some "A")]> (<["Y" := channel_of "string" (Some "A")]> ∅).

(** The empty dictionary. *)
Definition no_data : snapshot :=
  {| ndscan_fragment_fqn := None;
     ndscan_axes := None;
     ndscan_channels := None;
     ndscan_points_axis_0 := None;
     ndscan_points_channel := ∅;
     ndscan_point_phase := None;
     ndscan_point := ∅ |}.

Definition with_schema (data : snapshot) (fqn : string) (axes : list axis_schema)
    (channels : gmap string channel_spec) : snapshot :=
  {| ndscan_fragment_fqn := Some fqn;
     ndscan_axes := Some axes;
     ndscan_channels := Some channels;
     ndscan_points_axis_0 := ndscan_points_axis_0 data;
     ndscan_points_channel := ndscan_points_channel data;
     ndscan_point_phase := ndscan_point_phase data;
     ndscan_point := ndscan_point data |}.

Definition with_points (data : snapshot) (x_data : list Z)
    (channels : gmap string (list Z)) : snapshot :=
  {| ndscan_fragment_fqn := ndscan_fragment_fqn data;
     ndscan_axes := ndscan_axes data;
     ndscan_channels := ndscan_channels data;
     ndscan_points_axis_0 := Some x_data;
     ndscan_points_channel := channels;
     ndscan_point_phase := ndscan_point_phase data;
     ndscan_point := ndscan_point data |}.

Definition with_point (data : snapshot) (phase : bool) (point : gmap string Z) : snapshot :=
  {| ndscan_fragment_fqn := ndscan_fragment_fqn data;
     ndscan_axes := ndscan_axes data;
     ndscan_channels := ndscan_channels data;
     ndscan_points_axis_0 := ndscan_points_axis_0 data;
     ndscan_points_channel := ndscan_points_channel data;
     ndscan_point_phase := Some phase;
     ndscan_point := point |}.

(** X = [3, 1, 2], Y = [30, 10, 20] for the channel [y]. *)
Definition scenario_312 : snapshot :=
  with_points no_data [3; 1; 2] {["y" := [30; 10; 20]]}.

Definition axis_of (scale : Qc) : axis_schema :=
  {| axis_param :=
       {| param_fqn := "fragment.param";
          param_description := "delay";
          param_spec_of := {| spec_unit := Some "us"; spec_scale := scale |} |};
     axis_path := "" |}.

(** A rolling series for the channel [y] with error bars from [y_err],
    before its history length is set. *)
Definition rolling_y : _Rolling1DSeries.t :=
  {| _Rolling1DSeries.data_name := "y";
     _Rolling1DSeries.data_item := new_scatter "#d9d9d999";
     _Rolling1DSeries.error_bar := Some ("y_err", new_errbar "#d9d9d999");
     _Rolling1DSeries.values := [];
     _Rolling1DSeries.x_indices := [];
     _Rolling1DSeries.data_item_added := false;
     _Rolling1DSeries.error_bar_item_added := false |}.

(** The same series holding three points, with room for three. *)
Definition rolling_y_full : _Rolling1DSeries.t :=
  _Rolling1DSeries.set_buffer rolling_y (arange_neg 3) [[10; 2]; [20; 4]; [30; 6]].

Definition point_y (phase : bool) (value error : Z) : snapshot :=
  with_point no_data phase (<["y" := value]> {["y_err" := error]}).


(** A rolling series for [y] without error bars and room for two points. *)
Definition rolling_plain : _Rolling1DSeries.t :=
  {| _Rolling1DSeries.data_name := "y";
     _Rolling1DSeries.data_item := new_scatter "#d9d9d999";
     _Rolling1DSeries.error_bar := None;
     _Rolling1DSeries.values := [];
     _Rolling1DSeries.x_indices := arange_neg 2;
     _Rolling1DSeries.data_item_added := false;
     _Rolling1DSeries.error_bar_item_added := false |}.

(** The schema and the first point of a scan without axes, sent with phase
    [False], and the second point, sent with phase [True]. *)
Definition first_sample : snapshot :=
  with_schema (with_point no_data false {["y" := 7]}) "fragment" []
    {["y" := channel_of "float" None]}.

(** A rolling plot whose series are initialised. *)
Definition rolling_ready : _RollingPlotWidget.t :=
  {| _RollingPlotWidget.series_initialised := true;
     _RollingPlotWidget.series := [rolling_plain];
     _RollingPlotWidget.point_phase := false;
     _RollingPlotWidget.num_history_box := 2;
     _RollingPlotWidget.error_emitted := [] |}.

(** ** Further notions and sample inputs *)

(** Another iteration order: the one of [elements_order], reversed. *)
Definition reverse_order : SetOrder :=
  {| set_iter := λ X, reverse (elements X);
     set_iter_perm := λ X, reverse_Permutation (elements X) |}.

(** The arrays of the items of an X-Y series have the length
    [num_current_points], and what shows points has been added to the plot. *)
Definition xy_consistent (self : _XYSeries.t) : Prop :=
  let n := _XYSeries.num_current_points self in
  length (scatter_x (_XYSeries.data_item self)) = n ∧
  length (scatter_y (_XYSeries.data_item self)) = n ∧
  (∀ name item, _XYSeries.error_bar self = Some (name, item) →
     length (errbar_x item) = n ∧ length (errbar_y item) = n ∧
     length (errbar_height item) = n) ∧
  (n ≠ 0%nat →
     _XYSeries.data_item_added self = true ∧
     (is_Some (_XYSeries.error_bar self) → _XYSeries.error_bar_item_added self = true)).

(** An X-Y series as the plot widgets construct it: new items of one
    colour, error bars if a channel for them is named. *)
Definition new_xy_series (data_name color : string) (error_bar_name : option string)
    (plot_left_to_right : bool) : _XYSeries.t :=
  _XYSeries.__init__ data_name (new_scatter color)
    ((λ name, (name, new_errbar color)) <$> error_bar_name) plot_left_to_right.

(** Y and error magnitudes for the channels [y] and [y_err]. *)
Definition scenario_err : snapshot :=
  with_points no_data [3; 1; 2] (<["y" := [30; 10; 20]]> {["y_err" := [3; 1; 2; 9]]}).

(** One point whose error doubles to [2 ** 63], which no [int64] holds. *)
Definition scenario_wrap : snapshot :=
  with_points no_data [1] (<["y" := [5]]> {["y_err" := [2 ^ 62]]}).

(** The dictionary [data] with another value under [ndscan.channels]. *)
Definition with_channels (data : snapshot)
    (channels : option (gmap string channel_spec)) : snapshot :=
  {| ndscan_fragment_fqn := ndscan_fragment_fqn data;
     ndscan_axes := ndscan_axes data;
     ndscan_channels := channels;
     ndscan_points_axis_0 := ndscan_points_axis_0 data;
     ndscan_points_channel := ndscan_points_channel data;
     ndscan_point_phase := ndscan_point_phase data;
     ndscan_point := ndscan_point data |}.

(** The name of the error-bar channel a plot widget gives to the series of
    [name]: [error_bar_names.get(name, None)], if it is not empty. *)
Definition error_bar_name_for (error_bar_names : gmap string string)
    (name : string) : option string :=
  match error_bar_names !! name with
  | Some error_bar_name => if str_truthy error_bar_name then Some error_bar_name else None
  | None => None
  end.

(** The schema of the example and the points of [scenario_err], for a scan
    over one axis. *)
Definition xy_sample : snapshot :=
  with_schema scenario_err "fragment" [axis_of 1]
    (<["y" := channel_of "float" None]> {["y_err" := channel_of "float" (Some "y")]}).

(** The calls a rolling series receives from its plot. *)
Inductive rolling_call :=
  | Append (data : snapshot)
  | SetHistoryLength (n : Z).

Definition rolling_call_run (self : _Rolling1DSeries.t) (c : rolling_call)
    : result _Rolling1DSeries.t :=
  match c with
  | Append data => _Rolling1DSeries.append self data
  | SetHistoryLength n => _Rolling1DSeries.set_history_length self n
  end.

Fixpoint rolling_calls_run (self : _Rolling1DSeries.t) (calls : list rolling_call)
    : result _Rolling1DSeries.t :=
  match calls with
  | [] => Ok self
  | c :: calls' => self' ← rolling_call_run self c; rolling_calls_run self' calls'
  end.

(** The history length in force after [calls], starting from [n]. *)
Fixpoint history_length_after (n : Z) (calls : list rolling_call) : Z :=
  match calls with
  | [] => n
  | Append _ :: calls' => history_length_after n calls'
  | SetHistoryLength n' :: calls' => history_length_after n' calls'
  end.

(** ** [ndscan/utils.py] *)

Module utils.

(** [s.startswith(prefix)], [s[k:]], [s.endswith(suffix)] and [s[:-k]] of
    Python, for [k >= 0].  [s[:-0]] is [s[:0]], the empty string. *)
Definition startswith (s prefix : string) : bool := String.prefix prefix s.

Definition slice_from (k : nat) (s : string) : string :=
  String.substring k (String.length s - k) s.

Definition endswith (s suffix : string) : bool :=
  (String.length suffix <=? String.length s)%nat &&
  String.eqb
    (String.substring (String.length s - String.length suffix) (String.length suffix) s)
    suffix.

Definition slice_to_minus (k : nat) (s : string) : string :=
  if decide (k = 0%nat) then "" else String.substring 0 (String.length s - k) s.

(** The parameter [string] of the source is [str] here. *)
Definition strip_prefix (str prefix : string) : string :=
  if startswith str prefix then slice_from (String.length prefix) str
  else str.

Definition strip_suffix (str suffix : string) : string :=
  if endswith str suffix then slice_to_minus (String.length suffix) str
  else str.

(** The two dictionaries of [shorten_to_unambiguous_suffixes]. *)
Record shorten_state := {
  short_to_fqns : gmap string (gset string);
  shortened_fqns : gmap string string
}.

(** [for old in existing_fqns]: the first [old] with
    [shortened_fqns[old] == candidate], if any.  The loop changes nothing
    before it finds one. *)
Fixpoint find_holder (shortened : gmap string string) (candidate : string)
    (olds : list string) : result (option string) :=
  match olds with
  | [] => Ok None
  | old :: olds' =>
      match shortened !! old with
      | None => Raise (KeyError old)
      | Some short =>
          if decide (short = candidate) then Ok (Some old)
          else find_holder shortened candidate olds'
      end
  end.

(** One round of [while True] that finds [candidate] taken.  The set
    [existing_fqns] is the object stored under [candidate]; when the move of
    [old] stores a new set under the same key ([new == candidate]), the
    final [existing_fqns.add(current)] changes an object the dictionary no
    longer holds. *)
Definition resolve_conflict `{SetOrder} (get_last_n_parts : string → nat → string)
    (current candidate : string) (n : nat) (existing_fqns : gset string)
    (st : shorten_state) : result shorten_state :=
  holder ← find_holder (shortened_fqns st) candidate (set_iter existing_fqns);
  match holder with
  | Some old =>
      let new := get_last_n_parts old (n + 1)%nat in
      let shortened := <[old := new]> (shortened_fqns st) in
      let short := <[new := {[old]}]> (short_to_fqns st) in
      if decide (new = candidate)
      then Ok {| short_to_fqns := short; shortened_fqns := shortened |}
      else Ok {| short_to_fqns := <[candidate := existing_fqns ∪ {[current]}]> short;
                 shortened_fqns := shortened |}
  | None =>
      Ok {| short_to_fqns :=
              <[candidate := existing_fqns ∪ {[current]}]> (short_to_fqns st);
            shortened_fqns := shortened_fqns st |}
  end.

(** The loop [while True] for [current], from [n]; [None] when [fuel]
    rounds do not reach the [break]. *)
Fixpoint shorten_one `{SetOrder} (fuel : nat) (get_last_n_parts : string → nat → string)
    (current : string) (n : nat) (st : shorten_state) : option (result shorten_state) :=
  match fuel with
  | O => None
  | S fuel' =>
      let candidate := get_last_n_parts current n in
      match short_to_fqns st !! candidate with
      | None =>
          Some (Ok {| short_to_fqns := <[candidate := {[current]}]> (short_to_fqns st);
                      shortened_fqns := <[current := candidate]> (shortened_fqns st) |})
      | Some existing_fqns =>
          match resolve_conflict get_last_n_parts current candidate n existing_fqns st with
          | Raise e => Some (Raise e)
          | Ok st' => shorten_one fuel' get_last_n_parts current (n + 1) st'
          end
      end
  end.

(** [for current in fqns]. *)
Fixpoint shorten_all `{SetOrder} (fuel : nat) (get_last_n_parts : string → nat → string)
    (fqns : list string) (st : shorten_state) : option (result shorten_state) :=
  match fqns with
  | [] => Some (Ok st)
  | current :: fqns' =>
      if decide (is_Some (shortened_fqns st !! current))
      then shorten_all fuel get_last_n_parts fqns' st
      else
        match shorten_one fuel get_last_n_parts current 1 st with
        | None => None
        | Some (Raise e) => Some (Raise e)
        | Some (Ok st') => shorten_all fuel get_last_n_parts fqns' st'
        end
  end.

(** [fuel] bounds the rounds of [while True] spent on one name. *)
Definition shorten_to_unambiguous_suffixes `{SetOrder} (fuel : nat) (fqns : list string)
    (get_last_n_parts : string → nat → string) : option (result (gmap string string)) :=
  match shorten_all fuel get_last_n_parts fqns
          {| short_to_fqns := ∅; shortened_fqns := ∅ |} with
  | None => None
  | Some (Raise e) => Some (Raise e)
  | Some (Ok st) => Some (Ok (shortened_fqns st))
  end.

End utils.

(** Every entry of [shortened_fqns] is a suffix produced by the callback. *)
Definition all_suffixes (get_last_n_parts : string → nat → string)
    (st : utils.shorten_state) : Prop :=
  ∀ f s, utils.shortened_fqns st !! f = Some s →
    ∃ n, (1 ≤ n)%nat ∧ s = get_last_n_parts f n.

(** The state while no conflict has occurred: every name done so far, all
    of them satisfying [P], has its suffix for [n = 1], and every key of
    [short_to_fqns] is such a suffix. *)
Definition first_suffixes (get_last_n_parts : string → nat → string)
    (P : string → Prop) (st : utils.shorten_state) : Prop :=
  (∀ f s, utils.shortened_fqns st !! f = Some s →
     P f ∧ s = get_last_n_parts f 1%nat) ∧
  (∀ c, is_Some (utils.short_to_fqns st !! c) →
     ∃ f, is_Some (utils.shortened_fqns st !! f) ∧ c = get_last_n_parts f 1%nat).

(** The last [n] parts of a dotted name, for the names [a.x], [b.x] and
    [x]: what [".".join(fqn.split(".")[-n:])] gives on them. *)
Definition last_parts (fqn : string) (n : nat) : string :=
  if decide (n = 1%nat) then
    (if decide (fqn = "a.x" ∨ fqn = "b.x") then "x" else fqn)
  else fqn.

(** * plots/plot_widgets.py *)

(** A [QAction] or [QWidgetAction] as far as the menu code uses it: its
    class, its text and the flag [setSeparator] sets.  The handlers
    connected to [triggered] are not part of it. *)
Inductive action_class := QAction | QWidgetAction.

Record action := {
  action_class_of : action_class;
  text : string;
  isSeparator : bool
}.

Definition setSeparator (b : bool) (a : action) : action :=
  {| action_class_of := action_class_of a; text := text a; isSeparator := b |}.

Module ContextMenuBuilder.

Record t := mk {
  _last_was_no_separator : bool;
  _entries : list action
}.

Definition __init__ : t :=
  {| _last_was_no_separator := false; _entries := [] |}.

Definition finish (self : t) : list action := _entries self.

Definition _append (self : t) (a : action) : t :=
  {| _last_was_no_separator := true; _entries := _entries self ++ [a] |}.

(** The action the two methods return is the object they have just put at
    the end of [_entries]. *)
Definition append_action (self : t) (title : string) : t :=
  _append self {| action_class_of := QAction; text := title; isSeparator := false |}.

Definition append_widget_action (self : t) : t :=
  _append self {| action_class_of := QWidgetAction; text := ""; isSeparator := false |}.

(** [separator.setSeparator(True)] changes the entry [append_action] has
    just added. *)
Definition ensure_separator (self : t) : t :=
  if _last_was_no_separator self then
    let self := append_action self "" in
    {| _last_was_no_separator := false;
       _entries := alter (setSeparator true) (length (_entries self) - 1)%nat
                     (_entries self) |}
  else self.

(** The calls a [build_context_menu] can make on the builder. *)
Inductive call :=
  | AppendAction (title : string)
  | AppendWidgetAction
  | EnsureSeparator.

Definition run_call (self : t) (c : call) : t :=
  match c with
  | AppendAction title => append_action self title
  | AppendWidgetAction => append_widget_action self
  | EnsureSeparator => ensure_separator self
  end.

Definition run_calls (self : t) (calls : list call) : t := foldl run_call self calls.

(** The action a call appends, if it appends one. *)
Definition call_action (c : call) : option action :=
  match c with
  | AppendAction title =>
      Some {| action_class_of := QAction; text := title; isSeparator := false |}
  | AppendWidgetAction =>
      Some {| action_class_of := QWidgetAction; text := ""; isSeparator := false |}
  | EnsureSeparator => None
  end.

End ContextMenuBuilder.

Definition separator : action :=
  {| action_class_of := QAction; text := ""; isSeparator := true |}.

Module AlternateMenuPlotWidget.

(** [alternate_plot_names] is what [self._get_alternate_plot_names()]
    returns. *)
Definition build_context_menu (alternate_plot_names : list string)
    (builder : ContextMenuBuilder.t) : ContextMenuBuilder.t :=
  let builder :=
    if decide (1 < length alternate_plot_names)%nat then
      foldl (λ b name, ContextMenuBuilder.append_action b ("Show " +:+ name))
        builder alternate_plot_names
    else builder in
  ContextMenuBuilder.ensure_separator builder.

End AlternateMenuPlotWidget.

Module SubplotMenuPlotWidget.

(** [subscan_names] are the keys of [self.subscan_roots], in the order of
    the dictionary. *)
Definition build_context_menu (subscan_names alternate_plot_names : list string)
    (builder : ContextMenuBuilder.t) : ContextMenuBuilder.t :=
  let builder :=
    foldl (λ b name,
             ContextMenuBuilder.append_action b ("Open subscan '" +:+ name +:+ "'"))
      builder subscan_names in
  let builder := ContextMenuBuilder.ensure_separator builder in
  AlternateMenuPlotWidget.build_context_menu alternate_plot_names builder.

(** A subplot window, the [RootWidget] made for a subscan: the model root
    it shows, a number that tells the windows apart, and whether it is
    shown. *)
Record window := {
  window_root : nat;
  window_id : nat;
  visible : bool
}.

Definition show (w : window) : window :=
  {| window_root := window_root w; window_id := window_id w; visible := true |}.

Definition hide (w : window) : window :=
  {| window_root := window_root w; window_id := window_id w; visible := false |}.

(** [windows_created] counts the calls of [containers.RootWidget]. *)
Record t := mk {
  subscan_roots : gmap string nat;
  subplot_widgets : gmap string window;
  windows_created : nat
}.

Definition __init__ : t :=
  {| subscan_roots := ∅; subplot_widgets := ∅; windows_created := 0 |}.

Definition open_subplot (self : t) (name : string) : result t :=
  match subplot_widgets self !! name with
  | Some widget =>
      Ok {| subscan_roots := subscan_roots self;
            subplot_widgets := <[name := show widget]> (subplot_widgets self);
            windows_created := windows_created self |}
  | None =>
      match subscan_roots self !! name with
      | None => Raise (KeyError name)
      | Some root =>
          let widget := {| window_root := root; window_id := windows_created self;
                           visible := false |} in
          Ok {| subscan_roots := subscan_roots self;
                subplot_widgets := <[name := show widget]> (subplot_widgets self);
                windows_created := S (windows_created self) |}
      end
  end.

Definition hideEvent (self : t) : t :=
  {| subscan_roots := subscan_roots self;
     subplot_widgets := hide <$> subplot_widgets self;
     windows_created := windows_created self |}.

End SubplotMenuPlotWidget.

Module ContextMenuPlotWidget.

(** [_get_context_menus], for the [build_context_menu] of the class. *)
Definition _get_context_menus
    (build_context_menu : ContextMenuBuilder.t → ContextMenuBuilder.t) : list action :=
  ContextMenuBuilder.finish (build_context_menu ContextMenuBuilder.__init__).

End ContextMenuPlotWidget.

(** A group of menu entries followed by a separator; nothing for an empty
    group. *)
Definition menu_group (titles : list string) : list action :=
  match titles with
  | [] => []
  | _ => ((λ title, {| action_class_of := QAction; text := title; isSeparator := false |})
            <$> titles) ++ [separator]
  end.

Module MultiYAxisPlotWidget.

(** The axis and the view box of the plot item, and the objects
    [new_y_axis] creates; [id] tells the created objects apart.  The calls
    into the scene and the layout of the plot item are left out. *)
Inductive axis := LeftAxis | RightAxis | NewAxisItem (id : nat).
Inductive view_box := PlotViewBox | NewViewBox (id : nat).

Global Instance axis_eq_dec : EqDecision axis.
Proof. solve_decision. Defined.
Global Instance view_box_eq_dec : EqDecision view_box.
Proof. solve_decision. Defined.

(** [created] counts the objects created so far. *)
Record t := mk {
  _num_y_axes : nat;
  _additional_view_boxes : list view_box;
  _additional_right_axes : list axis;
  created : nat
}.

Definition __init__ : t :=
  {| _num_y_axes := 0; _additional_view_boxes := []; _additional_right_axes := [];
     created := 0 |}.

Definition new_y_axis (self : t) : t * (axis * view_box) :=
  let num := S (_num_y_axes self) in
  if decide (num = 1%nat) then
    ({| _num_y_axes := num;
        _additional_view_boxes := _additional_view_boxes self;
        _additional_right_axes := _additional_right_axes self;
        created := created self |}, (LeftAxis, PlotViewBox))
  else
    let vb := NewViewBox (created self) in
    if decide (num = 2%nat) then
      ({| _num_y_axes := num;
          _additional_view_boxes := _additional_view_boxes self ++ [vb];
          _additional_right_axes := _additional_right_axes self;
          created := S (created self) |}, (RightAxis, vb))
    else
      let axis := NewAxisItem (S (created self)) in
      ({| _num_y_axes := num;
          _additional_view_boxes := _additional_view_boxes self ++ [vb];
          _additional_right_axes := _additional_right_axes self ++ [axis];
          created := S (S (created self)) |}, (axis, vb)).

Definition reset_y_axes (self : t) : t :=
  {| _num_y_axes := 0; _additional_view_boxes := []; _additional_right_axes := [];
     created := created self |}.

Inductive call := NewYAxis | ResetYAxes.

Definition run_call (self : t) (c : call) : t :=
  match c with
  | NewYAxis => (new_y_axis self).1
  | ResetYAxes => reset_y_axes self
  end.

Definition run_calls (self : t) (calls : list call) : t := foldl run_call self calls.

End MultiYAxisPlotWidget.

(** * The context menu of [_XYPlotWidget] *)

Module XYContextMenu.

(** A call [self.set_dataset(key, value)]. *)
Record set_dataset_call := {
  call_key : string;
  call_value : Qc
}.

(** [last_crosshair_x] is [None] while the attribute has not been set. *)
Definition _set_dataset_from_crosshair_x (last_crosshair_x : option Qc)
    (dataset : string) : result set_dataset_call :=
  match last_crosshair_x with
  | None => Raise (AttributeError "last_crosshair_x")
  | Some x => Ok {| call_key := dataset; call_value := x |}
  end.

(** An entry of the menu with the handler connected to its [triggered].
    The handler [lambda: self._set_dataset_from_crosshair_x(d)] has no
    argument of its own: it reads the variable [d] of the call of
    [_install_context_menu] that made it, at the time it runs, so it is a
    function of the value [d] has then. *)
Record entry := {
  entry_action : action;
  entry_triggered : option (string → option Qc → result set_dataset_call)
}.

(** The local variables of a call of [_install_context_menu]. *)
Record frame := {
  d : option string;
  entries : list entry
}.

Definition loop_body (fr : frame) (name : string) : frame :=
  {| d := Some name;
     entries := entries fr ++
       [{| entry_action :=
             {| action_class_of := QAction;
                text := "Set '" +:+ name +:+ "' from crosshair";
                isSeparator := false |};
           entry_triggered := Some (λ d x, _set_dataset_from_crosshair_x x d) |}] |}.

(** [datasets] is what [_extract_linked_datasets] returns.  [None]: the
    method returns before it replaces [getContextMenus]. *)
Definition _install_context_menu (datasets : list string) : option frame :=
  let fr := foldl loop_body {| d := None; entries := [] |} datasets in
  match entries fr with
  | [] => None
  | _ => Some {| d := d fr;
                 entries := entries fr ++
                   [{| entry_action := separator; entry_triggered := None |}] |}
  end.

(** The user picks entry [i] of the menu. *)
Definition trigger (fr : frame) (i : nat) (last_crosshair_x : option Qc)
    : option (result set_dataset_call) :=
  e ← entries fr !! i;
  handler ← entry_triggered e;
  name ← d fr;
  Some (handler name last_crosshair_x).

End XYContextMenu.

(** * Properties *)

(** ** The channel schema extractor *)



Lemma str_truthy_true s : str_truthy s = true ↔ s ≠ "".
Proof.
  unfold str_truthy. rewrite negb_true_iff. split.
  - intros E ->. discriminate.
  - intros N. apply String.eqb_neq. done.
Qed.

Lemma str_truthy_false s : str_truthy s = false ↔ s = "".
Proof.
  unfold str_truthy. rewrite negb_false_iff. apply String.eqb_eq.
Qed.

Section collect.
Context (channels : gmap string channel_spec).

Lemma collect_error_bars_ok names : ∀ acc m,
  collect_error_bars channels names acc = Ok m →
  (∀ t s, m !! t = Some s ↔
      acc !! t = Some s ∨ (s ∈ names ∧ declares channels s t)) ∧
  (∀ t s, s ∈ names → declares channels s t → acc !! t = None) ∧
  (∀ t s1 s2, s1 ∈ names → s2 ∈ names → NoDup names →
      declares channels s1 t → declares channels s2 t → s1 = s2).
Proof.
  induction names as [|name names IH]; intros acc m; simpl.
  - intros [= <-]. split_and!.
    + intros t s. split; [by left|]. intros [?|[Hin _]]; [done|]. by apply elem_of_nil in Hin.
    + intros t s Hin. by apply elem_of_nil in Hin.
    + intros t s1 s2 Hin. by apply elem_of_nil in Hin.
  - destruct (channels !! name) as [spec|] eqn:Hname; [|done].
    destruct (str_truthy (error_bar_for spec)) eqn:Htr.
    + apply str_truthy_true in Htr.
      destruct (decide (is_Some (acc !! error_bar_for spec))) as [|Hfree]; [done|].
      apply eq_None_not_Some in Hfree.
      intros Hrec. destruct (IH _ _ Hrec) as (IH1 & IH2 & IH3).
      assert (Hdecl : ∀ t, declares channels name t ↔ t = error_bar_for spec).
      { intros t. split.
        - intros (spec' & Hs & <- & _). congruence.
        - intros ->. by exists spec. }
      split_and!.
      * intros t s. rewrite IH1, lookup_insert. case_decide as Ht.
        -- subst t. rewrite Hfree. split.
           ++ intros [[= <-]|[Hin Hd]].
              ** right. split; [left|]. by apply Hdecl.
              ** right. split; [by right|done].
           ++ intros [?|[Hin Hd]]; [done|].
              apply elem_of_cons in Hin as [->|Hin]; [by left|]. right. done.
        -- split.
           ++ intros [?|[Hin Hd]]; [by left|]. right. split; [by right|done].
           ++ intros [?|[Hin Hd]]; [by left|].
              apply elem_of_cons in Hin as [->|Hin].
              ** apply Hdecl in Hd. congruence.
              ** right. done.
      * intros t s Hin Hd. apply elem_of_cons in Hin as [->|Hin].
        -- apply Hdecl in Hd. by subst t.
        -- specialize (IH2 _ _ Hin Hd). rewrite lookup_insert in IH2.
           case_decide; [done|done].
      * intros t s1 s2 Hin1 Hin2 Hnd Hd1 Hd2.
        apply list.NoDup_cons in Hnd as [Hnotin Hnd].
        apply elem_of_cons in Hin1 as [->|Hin1]; apply elem_of_cons in Hin2 as [->|Hin2].
        -- done.
        -- apply Hdecl in Hd1. subst t. specialize (IH2 _ _ Hin2 Hd2).
           by rewrite lookup_insert_eq in IH2.
        -- apply Hdecl in Hd2. subst t. specialize (IH2 _ _ Hin1 Hd1).
           by rewrite lookup_insert_eq in IH2.
        -- by apply (IH3 t).
    + apply str_truthy_false in Htr.
      intros Hrec. destruct (IH _ _ Hrec) as (IH1 & IH2 & IH3).
      assert (Hdecl : ∀ t, ¬ declares channels name t).
      { intros t (spec' & Hs & <- & Hne). congruence. }
      split_and!.
      * intros t s. rewrite IH1. split.
        -- intros [?|[Hin Hd]]; [by left|]. right. split; [by right|done].
        -- intros [?|[Hin Hd]]; [by left|].
           apply elem_of_cons in Hin as [->|Hin]; [by apply Hdecl in Hd|]. by right.
      * intros t s Hin Hd. apply elem_of_cons in Hin as [->|Hin]; [by apply Hdecl in Hd|].
        by apply (IH2 t s).
      * intros t s1 s2 Hin1 Hin2 Hnd Hd1 Hd2.
        apply list.NoDup_cons in Hnd as [Hnotin Hnd].
        apply elem_of_cons in Hin1 as [->|Hin1]; [by apply Hdecl in Hd1|].
        apply elem_of_cons in Hin2 as [->|Hin2]; [by apply Hdecl in Hd2|].
        by apply (IH3 t).
Qed.

Lemma collect_error_bars_raise names : ∀ acc e,
  (∀ s, s ∈ names → is_Some (channels !! s)) →
  NoDup names →
  collect_error_bars channels names acc = Raise e →
  ∃ t s, e = ValueError (conflict_message t) ∧ s ∈ names ∧ declares channels s t ∧
         (is_Some (acc !! t) ∨ ∃ s', s' ∈ names ∧ s' ≠ s ∧ declares channels s' t).
Proof.
  induction names as [|name names IH]; intros acc e Hdom Hnd; simpl; [done|].
  apply list.NoDup_cons in Hnd as [Hnotin Hnd].
  destruct (Hdom name) as [spec Hname]; [left|]. rewrite Hname.
  assert (Hdom' : ∀ s, s ∈ names → is_Some (channels !! s)).
  { intros s Hin. apply Hdom. by right. }
  destruct (str_truthy (error_bar_for spec)) eqn:Htr.
  - apply str_truthy_true in Htr.
    assert (Hd : declares channels name (error_bar_for spec)) by by exists spec.
    destruct (decide (is_Some (acc !! error_bar_for spec))) as [Hs|Hfree].
    + intros [= <-]. exists (error_bar_for spec), name. split_and!; [done|left|done|by left].
    + intros Hrec. destruct (IH _ _ Hdom' Hnd Hrec) as (t & s & -> & Hin & Hds & Hor).
      exists t, s. split_and!; [done|by right|done|].
      destruct Hor as [Hsome|(s' & Hin' & Hne & Hd')].
      * rewrite lookup_insert in Hsome. case_decide as Ht; [|by left].
        subst t. right. exists name. split_and!; [left|set_solver|done].
      * right. exists s'. split_and!; [by right|done|done].
  - intros Hrec. destruct (IH _ _ Hdom' Hnd Hrec) as (t & s & -> & Hin & Hds & Hor).
    exists t, s. split_and!; [done|by right|done|].
    destruct Hor as [?|(s' & Hin' & Hne & Hd')]; [by left|].
    right. exists s'. split_and!; [by right|done|done].
Qed.
End collect.

Lemma elem_of_scalar_names channels s : s ∈ scalar_names channels ↔ scalar channels s.
Proof.
  unfold scalar_names, scalar. rewrite elem_of_dom. unfold is_Some.
  split.
  - intros [spec [Hs Hf]%map_lookup_filter_Some]. by exists spec.
  - intros (spec & Hs & Hf). exists spec. by apply map_lookup_filter_Some.
Qed.

Lemma set_iter_elem_of `{SetOrder} X s : s ∈ set_iter X ↔ s ∈ X.
Proof. rewrite (set_iter_perm X). apply elem_of_elements. Qed.

Lemma set_iter_NoDup `{SetOrder} X : NoDup (set_iter X).
Proof. rewrite (set_iter_perm X). apply NoDup_elements. Qed.

Lemma set_iter_singleton `{SetOrder} (x : string) : set_iter {[x]} = [x].
Proof.
  apply Permutation_singleton_r. rewrite (set_iter_perm {[x]}).
  by rewrite elements_singleton.
Qed.


(** Both outcomes of the extractor. *)
Lemma extract_result `{SetOrder} channels :
  match _extract_scalar_channels channels with
  | Ok (data_names, error_bar_names) =>
      (∀ t s, error_bar_names !! t = Some s ↔ scalar channels s ∧ declares channels s t) ∧
      (∀ s, s ∈ data_names ↔ scalar channels s ∧ ¬ ∃ t, declares channels s t) ∧
      (∀ t s1 s2, scalar channels s1 → scalar channels s2 →
          declares channels s1 t → declares channels s2 t → s1 = s2)
  | Raise e =>
      ∃ t s1 s2, e = ValueError (conflict_message t) ∧ s1 ≠ s2 ∧
        scalar channels s1 ∧ scalar channels s2 ∧
        declares channels s1 t ∧ declares channels s2 t
  end.
Proof.
  unfold _extract_scalar_channels.
  destruct (collect_error_bars channels (set_iter (scalar_names channels)) ∅)
    as [m|e] eqn:Hc; simpl.
  - apply collect_error_bars_ok in Hc as (H1 & H2 & H3).
    assert (Hm : ∀ t s, m !! t = Some s ↔ scalar channels s ∧ declares channels s t).
    { intros t s. rewrite H1, lookup_empty, set_iter_elem_of, elem_of_scalar_names.
      split; [intros [?|[? ?]]; done|]. intros [? ?]. by right. }
    split_and!; [done| |].
    + intros s. rewrite elem_of_difference, elem_of_scalar_names, elem_of_map_img.
      split.
      * intros [Hs Hn]. split; [done|]. intros [t Hd]. apply Hn. exists t. by apply Hm.
      * intros [Hs Hn]. split; [done|]. intros [t Ht]. apply Hn. exists t. by apply Hm.
    + intros t s1 s2 Hs1 Hs2. apply H3.
      * by apply set_iter_elem_of, elem_of_scalar_names.
      * by apply set_iter_elem_of, elem_of_scalar_names.
      * apply set_iter_NoDup.
  - apply collect_error_bars_raise in Hc as (t & s & -> & Hin & Hd & Hor).
    + destruct Hor as [Hs|(s' & Hin' & Hne & Hd')].
      { rewrite lookup_empty in Hs. by destruct Hs. }
      exists t, s', s. split_and!; try done.
      * by apply elem_of_scalar_names, set_iter_elem_of.
      * by apply elem_of_scalar_names, set_iter_elem_of.
    + intros s Hin. apply set_iter_elem_of, elem_of_scalar_names in Hin as (spec & -> & _).
      by eexists.
    + apply set_iter_NoDup.
Qed.

(** C3 (amended).  When no two channels declare error bars for the same
    target, [_extract_scalar_channels] returns: the set of the channels of
    type [int] or [float] that declare no [error_bar_for] themselves, be it
    for another channel or for their own name, and the map that sends a
    target to the channel of type [int] or [float] declaring error bars for
    it; what channels of another type declare is not read.  On
    [{A: float, A_err: float (error_bar_for=A), B: int, C: string}] the
    result is [{A, B}] and [{A -> A_err}]
    ([extract_scalar_channels_partition_witness]). *)
Theorem extract_scalar_channels_partition `{SetOrder} channels :
  (∀ t s1 s2, declares channels s1 t → declares channels s2 t → s1 = s2) →
  ∃ data_names error_bar_names,
    _extract_scalar_channels channels = Ok (data_names, error_bar_names) ∧
    (∀ s, s ∈ data_names ↔ scalar channels s ∧ ¬ ∃ t, declares channels s t) ∧
    (∀ t s, error_bar_names !! t = Some s ↔ scalar channels s ∧ declares channels s t).
Proof.
  intros Hinj. pose proof (extract_result channels) as Hr.
  destruct (_extract_scalar_channels channels) as [[data_names error_bar_names]|e].
  - exists data_names, error_bar_names. by destruct Hr as (? & ? & _).
  - destruct Hr as (t & s1 & s2 & _ & Hne & _ & _ & Hd1 & Hd2).
    destruct Hne. by apply (Hinj t).
Qed.


Ltac concrete_lookup H :=
  repeat (rewrite lookup_insert in H; case_decide; [simplify_eq/=|]);
  try (rewrite lookup_empty in H; discriminate H).

Lemma example_channels_unique t s1 s2 :
  declares example_channels s1 t → declares example_channels s2 t → s1 = s2.
Proof.
  unfold example_channels.
  intros (spec1 & H1 & E1 & N1) (spec2 & H2 & E2 & N2).
  concrete_lookup H1; concrete_lookup H2; done.
Qed.

(** The example of the specification, for every iteration order. *)
Lemma extract_scalar_channels_partition_witness :
  (∀ t s1 s2, declares example_channels s1 t → declares example_channels s2 t → s1 = s2) ∧
  (∀ O : SetOrder,
     @_extract_scalar_channels O example_channels
       = Ok ({["A"; "B"]}, {["A" := "A_err"]})).
Proof.
  split; [exact example_channels_unique|]. intros O.
  destruct (@extract_scalar_channels_partition O example_channels example_channels_unique)
    as (data_names & error_bar_names & -> & Hn & Hm).
  assert (HA : scalar example_channels "A") by (eexists; split; reflexivity).
  assert (HB : scalar example_channels "B") by (eexists; split; reflexivity).
  assert (HE : scalar example_channels "A_err" ∧ declares example_channels "A_err" "A").
  { split; eexists; split_and!; reflexivity || done. }
  do 2 f_equal.
  - apply set_eq. intros s. rewrite Hn, elem_of_union, !elem_of_singleton. split.
    + intros [(spec & Hs & Hsc) Hnd]. unfold example_channels in Hs.
      concrete_lookup Hs; [by left| |by right].
      destruct Hnd. exists "A". apply HE.
    + intros [->| ->].
      * split; [done|]. intros (t & spec & Hs & E & N). unfold example_channels in Hs.
        concrete_lookup Hs; done.
      * split; [done|]. intros (t & spec & Hs & E & N). unfold example_channels in Hs.
        concrete_lookup Hs; done.
  - apply map_eq. intros t. destruct (error_bar_names !! t) as [s|] eqn:Ht.
    + apply Hm in Ht as [_ (spec & Hs & E & N)]. unfold example_channels in Hs.
      concrete_lookup Hs; done.
    + destruct (decide (t = "A")) as [->|Hne].
      * apply Hm in HE. congruence.
      * by rewrite lookup_singleton_ne.
Defined.


(** Counterexample to C3 as stated.  In both schemas no two channels name
    the same target.  A channel of type [float] that names itself is an
    error-bar source for no other channel, yet it is left out of the set.
    And a channel of type [string] that supplies the error bars of [A] is
    not put in the map.  Neither result is the one the specification
    describes. *)
Lemma extract_scalar_channels_partition_fails :
  ((∀ t s1 s2, declares self_target_channels s1 t →
               declares self_target_channels s2 t → s1 = s2) ∧
   (∀ O : SetOrder,
      @_extract_scalar_channels O self_target_channels = Ok (∅, {["A" := "A"]})) ∧
   ¬ partition_as_specified self_target_channels ∅ {["A" := "A"]}) ∧
  ((∀ t s1 s2, declares string_source_channels s1 t →
               declares string_source_channels s2 t → s1 = s2) ∧
   (∀ O : SetOrder,
      @_extract_scalar_channels O string_source_channels = Ok ({["A"]}, ∅)) ∧
   ¬ partition_as_specified string_source_channels {["A"]} ∅).
Proof.
  split; split_and!.
  - unfold self_target_channels. intros t s1 s2 (spec1 & H1 & _) (spec2 & H2 & _).
    apply lookup_singleton_Some in H1 as [<- _].
    by apply lookup_singleton_Some in H2 as [<- _].
  - intros O. unfold _extract_scalar_channels.
    assert (Hs : scalar_names self_target_channels = {["A"]}) by by vm_compute.
    rewrite Hs, set_iter_singleton. by vm_compute.
  - intros [Ha _]. apply (not_elem_of_empty (C := gset string) "A"), Ha.
    split; [eexists; split; reflexivity|].
    intros (t & Hne & spec & Hs & Ht & _). unfold self_target_channels in Hs.
    apply lookup_singleton_Some in Hs as [_ <-]. by destruct Hne.
  - unfold string_source_channels. intros t s1 s2 (spec1 & H1 & E1 & N1) (spec2 & H2 & E2 & N2).
    concrete_lookup H1; concrete_lookup H2; done.
  - intros O. unfold _extract_scalar_channels.
    assert (Hs : scalar_names string_source_channels = {["A"]}) by by vm_compute.
    rewrite Hs, set_iter_singleton. by vm_compute.
  - intros [_ Hb].
    assert ((∅ : gmap string string) !! "A" = Some "E") as Hx; [|by rewrite lookup_empty in Hx].
    apply Hb; [by apply elem_of_singleton|].
    eexists. split_and!; [reflexivity|reflexivity|done].
Qed.

(** C4 (amended).  When two distinct channels of type [int] or [float]
    declare error bars for the same non-empty target, the extractor raises
    [ValueError]; its message quotes a target that two such channels share,
    which is the given one when no other target is shared. *)
Theorem extract_scalar_channels_conflict `{SetOrder} channels t :
  shared_target channels t →
  ∃ t', _extract_scalar_channels channels = Raise (ValueError (conflict_message t')) ∧
        conflict_message t' =
          "More than one set of error bars specified for channel '" +:+ t' +:+ "'" ∧
        shared_target channels t' ∧
        ((∀ u, shared_target channels u → u = t) → t' = t).
Proof.
  intros (s1 & s2 & Hne & Hs1 & Hs2 & Hd1 & Hd2).
  pose proof (extract_result channels) as Hr.
  destruct (_extract_scalar_channels channels) as [[data_names error_bar_names]|e].
  - destruct Hr as (_ & _ & Hinj). destruct Hne. by apply (Hinj t).
  - destruct Hr as (t' & r1 & r2 & -> & Hr).
    assert (Hsh : shared_target channels t') by (by exists r1, r2).
    exists t'. split_and!; [done|done|done|].
    intros Huniq. by apply Huniq.
Qed.


(** [X: float] and [Y: int] both declare error bars for [A]. *)
Lemma extract_scalar_channels_conflict_witness :
  shared_target conflict_channels "A" ∧
  ∃ t', @_extract_scalar_channels elements_order conflict_channels
          = Raise (ValueError (conflict_message t')) ∧
        conflict_message t' =
          "More than one set of error bars specified for channel '" +:+ t' +:+ "'" ∧
        shared_target conflict_channels t' ∧
        ((∀ u, shared_target conflict_channels u → u = "A") → t' = "A").
Proof.
  assert (Hsh : shared_target conflict_channels "A").
  { exists "X", "Y". split_and!; [done|..]; eexists; split_and!; reflexivity || done. }
  split; [exact Hsh|].
  exact (@extract_scalar_channels_conflict elements_order conflict_channels "A" Hsh).
Defined.


(** Counterexample to C4 as stated: two channels of type [string] declare
    error bars for [A], and the extractor returns normally. *)
Lemma extract_scalar_channels_conflict_unnoticed :
  (∃ s1 s2, s1 ≠ s2 ∧ declares opaque_conflict_channels s1 "A" ∧
            declares opaque_conflict_channels s2 "A") ∧
  (∀ O : SetOrder, @_extract_scalar_channels O opaque_conflict_channels = Ok (∅, ∅)).
Proof.
  split.
  - exists "X", "Y". split_and!; [done|..]; eexists; split_and!; reflexivity || done.
  - intros O. unfold _extract_scalar_channels.
    assert (Hs : scalar_names opaque_conflict_channels = ∅) by by vm_compute.
    rewrite Hs.
    assert (Hnil : set_iter ∅ = []).
    { apply Permutation_nil_r. rewrite set_iter_perm. by rewrite elements_empty. }
    rewrite Hnil. simpl. rewrite map_img_empty_L.
    by rewrite difference_diag_L.
Qed.

(** ** The positional series *)


Lemma fancy_index_total a order :
  (∀ i, i ∈ order → (i < length a)%nat) →
  fancy_index a order = Ok ((λ i, a !!! i) <$> order).
Proof.
  induction order as [|i order IH]; intros Hlt; simpl; [done|].
  destruct (lookup_lt_is_Some_2 a i) as [v Hv]; [apply Hlt; left|].
  rewrite Hv, IH by (intros j Hj; apply Hlt; by right). simpl.
  by rewrite (list_lookup_total_correct _ _ _ Hv).
Qed.

Global Instance key_le_total : Total key_le.
Proof. intros a b. unfold key_le. lia. Qed.

Lemma argsort_perm a : argsort a ≡ₚ seq 0 (length a).
Proof.
  unfold argsort. rewrite merge_sort_Permutation.
  by rewrite snd_zip by (rewrite length_seq; lia).
Qed.

Lemma argsort_lt a i : i ∈ argsort a → (i < length a)%nat.
Proof. rewrite argsort_perm, elem_of_seq. lia. Qed.

Lemma elem_of_zip_seq (a : list Z) v i :
  (v, i) ∈ zip a (seq 0 (length a)) → a !! i = Some v.
Proof.
  intros Hin. apply list_elem_of_lookup in Hin as [k Hk].
  apply lookup_zip_with_Some in Hk as (v' & i' & [= <- <-] & Hv & Hi).
  apply lookup_seq in Hi as [-> _]. done.
Qed.


Lemma index_pairs_prefix (x y : list Z) n :
  (n ≤ length x)%nat → (n ≤ length y)%nat →
  (λ i, (x !!! i, y !!! i)) <$> seq 0 n = take n (zip x y).
Proof.
  intros Hx Hy. apply list_eq. intros i.
  rewrite list_lookup_fmap. destruct (decide (i < n)%nat) as [Hlt|Hge].
  - rewrite lookup_seq_lt, lookup_take_lt by done. simpl.
    rewrite lookup_zip_with.
    rewrite (list_lookup_lookup_total_lt x i), (list_lookup_lookup_total_lt y i) by lia.
    done.
  - rewrite lookup_take_ge by lia.
    rewrite lookup_seq_ge by lia. done.
Qed.


Lemma sorted_pairs_index n x p :
  p ∈ sorted_pairs n x → x !!! p.2 = p.1.
Proof.
  unfold sorted_pairs. rewrite merge_sort_Permutation. destruct p as [v i].
  intros Hin%elem_of_zip_seq. simpl.
  apply lookup_take_Some in Hin as [Hin _].
  by apply list_lookup_total_correct.
Qed.

Lemma index_argsort n (x : list Z) :
  (λ i, x !!! i) <$> argsort (take n x) = (sorted_pairs n x).*1.
Proof.
  unfold argsort. fold (sorted_pairs n x). rewrite <-list_fmap_compose.
  apply list_fmap_ext. intros k p Hp. simpl.
  apply (sorted_pairs_index n). by eapply list_elem_of_lookup_2.
Qed.

Lemma argsort_keys_sorted n x :
  Sorted Z.le ((λ i, x !!! i) <$> argsort (take n x)).
Proof.
  rewrite index_argsort. apply (Sorted_fmap _ key_le Z.le).
  - by intros a b.
  - apply (Sorted_merge_sort key_le).
Qed.

Section xy_series.
Import _XYSeries.

Lemma num_to_show_le_x self x_data data :
  (num_to_show self x_data data ≤ length x_data)%nat.
Proof. unfold num_to_show. destruct (error_bar self) as [[? ?]|]; lia. Qed.

Lemma num_to_show_le_y self x_data data :
  (num_to_show self x_data data ≤ length (channel data (data_name self)))%nat.
Proof. unfold num_to_show. destruct (error_bar self) as [[? ?]|]; lia. Qed.

Lemma num_to_show_le_err self x_data data name item :
  error_bar self = Some (name, item) →
  (num_to_show self x_data data ≤ length (channel data name))%nat.
Proof. unfold num_to_show. intros ->. lia. Qed.

Lemma argsort_take_lt n (x a : list Z) i :
  (n ≤ length x)%nat → (n ≤ length a)%nat → i ∈ argsort (take n x) → (i < length a)%nat.
Proof. intros Hx Ha Hi%argsort_lt. rewrite length_take in Hi. lia. Qed.

(** What [update] does when it redraws. *)
Lemma update_redraw self x_data data :
  let n := num_to_show self x_data data in
  let y_data := channel data (data_name self) in
  n ≠ num_current_points self →
  ∃ self' xs ys,
    update self x_data data = Ok self' ∧
    data_item self' = scatter_setData (data_item self) xs ys ∧
    num_current_points self' = n ∧
    data_name self' = data_name self ∧
    plot_left_to_right self' = plot_left_to_right self ∧
    fst <$> error_bar self' = fst <$> error_bar self ∧
    (if plot_left_to_right self
     then let order := argsort (take n x_data) in
          xs = (λ i, x_data !!! i) <$> order ∧ ys = (λ i, y_data !!! i) <$> order
     else xs = take n x_data ∧ ys = take n y_data).
Proof.
  intros n y_data Hne. unfold update. fold n. fold y_data.
  destruct (decide (n = num_current_points self)) as [|_]; [done|].
  pose proof (num_to_show_le_x self x_data data) as Hx.
  pose proof (num_to_show_le_y self x_data data) as Hy.
  fold n in Hx, Hy. fold y_data in Hy.
  destruct (plot_left_to_right self) eqn:Hflag.
  - rewrite (fancy_index_total x_data) by (intros i; by apply argsort_take_lt).
    rewrite (fancy_index_total y_data) by (intros i; by apply argsort_take_lt).
    simpl. destruct (error_bar self) as [[name item]|] eqn:Hbar; simpl.
    + rewrite (fancy_index_total (channel data name)).
      * simpl. eexists _, _, _. split; [reflexivity|]. by simpl.
      * intros i. apply argsort_take_lt; [done|].
        by apply (num_to_show_le_err self x_data data name item).
    + eexists _, _, _. split; [reflexivity|]. by simpl.
  - eexists _, _, _. split; [reflexivity|]. simpl.
    by destruct (error_bar self) as [[name item]|].
Qed.

Lemma update_never_raises self x_data data :
  ∃ self', update self x_data data = Ok self'.
Proof.
  destruct (decide (num_to_show self x_data data = num_current_points self)) as [Heq|Hne].
  - exists self. unfold update. by rewrite decide_True.
  - destruct (update_redraw self x_data data Hne) as (self' & ? & ? & -> & _). by eexists.
Qed.

Lemma update_noop self x_data data :
  num_to_show self x_data data = num_current_points self →
  update self x_data data = Ok self.
Proof. intros Heq. unfold update. by rewrite decide_True. Qed.

Lemma zip_index_perm (x y : list Z) n :
  (n ≤ length x)%nat → (n ≤ length y)%nat →
  zip ((λ i, x !!! i) <$> argsort (take n x)) ((λ i, y !!! i) <$> argsort (take n x))
  ≡ₚ take n (zip x y).
Proof.
  intros Hx Hy. rewrite zip_with_fmap_l, zip_with_fmap_r, zip_with_diag.
  rewrite argsort_perm, length_take_le by done.
  by rewrite index_pairs_prefix.
Qed.

(** C1 (amended).  A call of [update] that redraws ([n] differs from the
    count shown) shows the first [n] samples [(x, y)], each once.  With
    [plot_left_to_right] set the X values shown are non-decreasing, whatever
    the order of arrival; without it the samples are shown in the order of
    arrival.  The series that [_XYPlotWidget] builds have the flag unset. *)
Theorem xy_series_update_order self x_data data :
  let n := num_to_show self x_data data in
  let y_data := channel data (data_name self) in
  n ≠ num_current_points self →
  (∃ self', update self x_data data = Ok self' ∧
     num_current_points self' = n ∧
     scatter_points (data_item self') ≡ₚ take n (zip x_data y_data) ∧
     (plot_left_to_right self = true → Sorted Z.le (scatter_x (data_item self'))) ∧
     (plot_left_to_right self = false →
        scatter_points (data_item self') = take n (zip x_data y_data))) ∧
  (∀ error_bar_names i name,
     plot_left_to_right (_XYPlotWidget.make_series error_bar_names i name) = false).
Proof.
  intros n y_data Hne. split; [|done].
  destruct (update_redraw self x_data data Hne)
    as (self' & xs & ys & Hup & Hitem & Hnum & _ & _ & _ & Hdata).
  fold n in Hdata, Hnum. fold y_data in Hdata.
  pose proof (num_to_show_le_x self x_data data) as Hx.
  pose proof (num_to_show_le_y self x_data data) as Hy.
  fold n in Hx, Hy. fold y_data in Hy.
  exists self'. split; [done|]. split; [done|].
  unfold scatter_points. rewrite Hitem. simpl.
  destruct (plot_left_to_right self); destruct Hdata as [-> ->].
  - split_and!; [by apply zip_index_perm| |done].
    intros _. apply argsort_keys_sorted.
  - rewrite <-zip_with_take. done.
Qed.
End xy_series.

Section xy_series_more.
Import _XYSeries.

Lemma num_to_show_ext self self' x_data data :
  data_name self' = data_name self →
  fst <$> error_bar self' = fst <$> error_bar self →
  num_to_show self' x_data data = num_to_show self x_data data.
Proof.
  unfold num_to_show. intros -> Hbar.
  destruct (error_bar self') as [[? ?]|], (error_bar self) as [[? ?]|]; by simplify_eq/=.
Qed.

(** C7.  [update] computes [n] as the minimum of the lengths available and
    returns the series untouched when [n] is the count already shown; after
    any call the count shown is [n], so a second call with the same
    [(x_data, data)] changes nothing. *)
Theorem xy_series_update_idempotent self x_data data :
  ∃ self', update self x_data data = Ok self' ∧
    num_current_points self' = num_to_show self x_data data ∧
    num_to_show self' x_data data = num_current_points self' ∧
    (num_to_show self x_data data = num_current_points self → self' = self) ∧
    update self' x_data data = Ok self'.
Proof.
  destruct (decide (num_to_show self x_data data = num_current_points self)) as [Heq|Hne].
  - exists self. rewrite (update_noop _ _ _ Heq). done.
  - destruct (update_redraw self x_data data Hne)
      as (self' & xs & ys & Hup & _ & Hnum & Hname & _ & Hbar & _).
    exists self'. pose proof (num_to_show_ext self self' x_data data Hname Hbar) as Hn.
    split_and!; [done|done|congruence|done|].
    apply update_noop. congruence.
Qed.

(** Sortedness is kept by every sequence of calls, redrawing or not. *)
Lemma updates_sorted calls : ∀ self,
  plot_left_to_right self = true →
  Sorted Z.le (scatter_x (data_item self)) →
  ∃ self', updates self calls = Ok self' ∧
    plot_left_to_right self' = true ∧ Sorted Z.le (scatter_x (data_item self')).
Proof.
  induction calls as [|[x_data data] calls IH]; intros self Hflag Hsorted; simpl.
  - by exists self.
  - destruct (decide (num_to_show self x_data data = num_current_points self)) as [Heq|Hne].
    + rewrite (update_noop _ _ _ Heq). simpl. by apply IH.
    + destruct (update_redraw self x_data data Hne)
        as (s1 & xs & ys & -> & Hitem & _ & _ & Hflag' & _ & Hdata).
      simpl. apply IH; [congruence|].
      rewrite Hitem. simpl. rewrite Hflag in Hdata. destruct Hdata as [-> _].
      apply argsort_keys_sorted.
Qed.
End xy_series_more.


(** X = [3, 1, 2], Y = [30, 10, 20] on a series drawn left to right. *)
Lemma xy_series_update_order_witness :
  let self := _XYSeries.__init__ "y" (new_scatter "#d9d9d999") None true in
  _XYSeries.num_to_show self [3; 1; 2] scenario_312 ≠ _XYSeries.num_current_points self ∧
  ∃ self', _XYSeries.update self [3; 1; 2] scenario_312 = Ok self' ∧
    scatter_points (_XYSeries.data_item self') = [(1, 10); (2, 20); (3, 30)] ∧
    Sorted Z.le (scatter_x (_XYSeries.data_item self')).
Proof.
  intros self.
  assert (Hne : _XYSeries.num_to_show self [3; 1; 2] scenario_312
                ≠ _XYSeries.num_current_points self) by (vm_compute; lia).
  split; [exact Hne|].
  destruct (xy_series_update_order self [3; 1; 2] scenario_312 Hne)
    as [(self' & Hup & _ & _ & Hsorted & _) _].
  exists self'. split; [exact Hup|]. split; [|by apply Hsorted].
  vm_compute in Hup. injection Hup as <-. reflexivity.
Defined.

(** Counterexample to C1 as stated: the series built by [_XYPlotWidget]
    shows X = [3, 1, 2], Y = [30, 10, 20] in the order of arrival. *)
Lemma xy_series_arrival_order :
  let self := _XYPlotWidget.make_series ∅ 0 "y" in
  (∃ self', _XYSeries.update self [3; 1; 2] scenario_312 = Ok self' ∧
     scatter_points (_XYSeries.data_item self') = [(3, 30); (1, 10); (2, 20)] ∧
     ¬ Sorted Z.le (scatter_x (_XYSeries.data_item self'))) ∧
  (∃ w w', _XYPlotWidget.__init__ (axis_of 1) = Ok w ∧
     @_XYPlotWidget.data_changed elements_order w
        (with_schema scenario_312 "fragment" [axis_of 1] {["y" := channel_of "float" None]})
       = (w', None) ∧
     (λ s, scatter_points (_XYSeries.data_item s)) <$> _XYPlotWidget.series w'
       = [[(3, 30); (1, 10); (2, 20)]]).
Proof.
  split.
  - eexists. split; [vm_compute; reflexivity|]. split; [reflexivity|].
    simpl. intros Hs. inversion Hs as [|? ? _ Hhd]. inversion Hhd. lia.
  - eexists _, _. split; [vm_compute; reflexivity|]. split; vm_compute; reflexivity.
Qed.

(** ** The rolling series *)


Lemma roll_left_set_last {A} (a : list A) (p : A) :
  a ≠ [] → <[Nat.pred (length a) := p]> (roll_left a) = drop 1 a ++ [p].
Proof.
  destruct a as [|v a]; [done|]. intros _. unfold roll_left. simpl. rewrite drop_0.
  replace (length a) with (length a + 0)%nat by lia.
  by rewrite insert_app_r.
Qed.


Section rolling_series.
Import _Rolling1DSeries.


Lemma push_keep_last self p :
  (1 ≤ length (x_indices self))%nat →
  (length (values self) ≤ length (x_indices self))%nat →
  push self p =
    drop (length (values self ++ [p]) - length (x_indices self)) (values self ++ [p]).
Proof.
  intros HN Hle. unfold push. rewrite length_app. simpl.
  case_bool_decide as Hempty.
  - apply nil_length_inv in Hempty. rewrite Hempty. simpl.
    replace (1 - length (x_indices self))%nat with 0%nat by lia. done.
  - destruct (decide (length (values self) = length (x_indices self))) as [Hfull|Hroom].
    + rewrite roll_left_set_last by (intros E; by rewrite E in Hempty).
      replace (length (values self) + 1 - length (x_indices self))%nat with 1%nat by lia.
      rewrite drop_app_le by lia. done.
    + replace (length (values self) + 1 - length (x_indices self))%nat with 0%nat by lia.
      done.
Qed.


(** What a successful [append] leaves behind. *)
Lemma append_ok self data p :
  new_row self data = Ok p →
  ∃ self', append self data = Ok self' ∧
    values self' = push self p ∧
    x_indices self' = x_indices self ∧
    data_name self' = data_name self ∧
    fst <$> error_bar self' = fst <$> error_bar self ∧
    scatter_x (data_item self') = slice_last (length (push self p)) (x_indices self) ∧
    scatter_y (data_item self') = column 0 (push self p) ∧
    (∀ name item, error_bar self' = Some (name, item) →
       errbar_x item = slice_last (length (push self p)) (x_indices self) ∧
       errbar_y item = column 0 (push self p) ∧
       errbar_height item = column 1 (push self p)).
Proof.
  intros Hrow. unfold append. rewrite Hrow. simpl. eexists. split; [reflexivity|]. simpl.
  split_and!; try done.
  - by destruct (error_bar self) as [[? ?]|].
  - intros name item. destruct (error_bar self) as [[? ?]|]; [|done].
    by intros [= <- <-].
Qed.

Lemma append_raise self data e :
  new_row self data = Raise e → append self data = Raise e.
Proof. intros Hrow. unfold append. by rewrite Hrow. Qed.

End rolling_series.

Section rolling_series_claims.
Import _Rolling1DSeries.

Lemma length_arange_neg n : length (arange_neg n) = Z.to_nat n.
Proof. apply length_seqZ. Qed.

Lemma arange_neg_lookup n (i : nat) :
  (i < Z.to_nat n)%nat → arange_neg n !! i = Some (- n + Z.of_nat i).
Proof.
  intros Hi. unfold arange_neg. apply lookup_seqZ. lia.
Qed.

Lemma set_history_length_ok self n :
  0 < n →
  ∃ self', set_history_length self n = Ok self' ∧
    x_indices self' = arange_neg n ∧
    values self' = drop (length (values self) - Z.to_nat n) (values self) ∧
    data_name self' = data_name self ∧
    error_bar self' = error_bar self ∧
    data_item self' = data_item self.
Proof.
  intros Hn. unfold set_history_length. rewrite decide_True by lia.
  destruct (decide (Z.of_nat (length (values self)) > n)) as [Hgt|Hle].
  - eexists. split; [reflexivity|]. simpl. split_and!; try done.
    unfold slice_last. rewrite decide_False by lia. done.
  - eexists. split; [reflexivity|]. simpl. split_and!; try done.
    replace (length (values self) - Z.to_nat n)%nat with 0%nat by lia. done.
Qed.





Lemma set_history_length_capacity self0 n self :
  set_history_length self0 n = Ok self → has_capacity n self.
Proof.
  intros Hset.
  assert (Hn : 0 < n).
  { unfold set_history_length in Hset. by destruct (decide (n > 0)); [lia|]. }
  destruct (set_history_length_ok self0 n Hn) as (s & Hs & Hx & Hv & _).
  rewrite Hset in Hs. injection Hs as <-.
  split_and!; [done|done|]. rewrite Hv, length_drop. lia.
Qed.

Lemma init_capacity data_name data_item error_bar n self :
  __init__ data_name data_item error_bar n = Ok self → has_capacity n self.
Proof. apply set_history_length_capacity. Qed.

Lemma append_capacity n self data self' :
  has_capacity n self → append self data = Ok self' → has_capacity n self'.
Proof.
  intros (Hn & Hx & Hle). destruct (new_row self data) as [p|e] eqn:Hrow.
  - destruct (append_ok self data p Hrow) as (s1 & -> & Hv & Hx1 & _).
    intros [= <-]. split_and!; [done|congruence|].
    rewrite Hv, push_keep_last, length_drop, length_app, Hx, length_arange_neg;
      rewrite ?Hx, ?length_arange_neg; simpl; lia.
  - by rewrite (append_raise self data e Hrow).
Qed.


(** C6.  [set_history_length m] with [0 < m] below the buffer size keeps
    the last [m] rows; a later [set_history_length m'] with [m' > m] leaves
    these rows as they are; [set_history_length n] fails its assertion for
    every [n <= 0]. *)
Theorem rolling_series_set_history_length self :
  (∀ m, 0 < m < Z.of_nat (length (values self)) →
     ∃ self1, set_history_length self m = Ok self1 ∧
       values self1 = drop (length (values self) - Z.to_nat m) (values self) ∧
       length (values self1) = Z.to_nat m ∧
       x_indices self1 = arange_neg m ∧
       ∀ m', m < m' →
         ∃ self2, set_history_length self1 m' = Ok self2 ∧
           values self2 = values self1 ∧ x_indices self2 = arange_neg m') ∧
  (∀ n, n ≤ 0 →
     set_history_length self n = Raise (AssertionError "Invalid history length")).
Proof.
  split.
  - intros m [Hm Hlt].
    destruct (set_history_length_ok self m Hm) as (self1 & Hs1 & Hx1 & Hv1 & _).
    assert (Hlen : length (values self1) = Z.to_nat m) by (rewrite Hv1, length_drop; lia).
    exists self1. split_and!; try done.
    intros m' Hm'. destruct (set_history_length_ok self1 m') as (self2 & Hs2 & Hx2 & Hv2 & _);
      [lia|].
    exists self2. split_and!; try done. rewrite Hv2.
    replace (length (values self1) - Z.to_nat m')%nat with 0%nat by lia. done.
  - intros n Hn. unfold set_history_length. by rewrite decide_False by lia.
Qed.


Lemma new_row_width self data p : new_row self data = Ok p → length p = width self.
Proof.
  unfold new_row, width. destruct (ndscan_point data !! data_name self); [|done].
  destruct (error_bar self) as [[name ?]|]; [|by intros [= <-]].
  destruct (ndscan_point data !! name); [|done]. by intros [= <-].
Qed.

Lemma values_width self data self' :
  uniform_rows self → append self data = Ok self' → uniform_rows self'.
Proof.
  unfold uniform_rows. intros Hu. destruct (new_row self data) as [p|e] eqn:Hrow.
  - destruct (append_ok self data p Hrow) as (s1 & -> & Hv & _ & _ & Hb & _).
    intros [= <-]. apply new_row_width in Hrow.
    assert (Hw : width s1 = width self).
    { unfold width. by destruct (error_bar s1), (error_bar self). }
    rewrite Hv, Hw. unfold push. case_bool_decide; [by repeat constructor|].
    case_decide.
    + apply Forall_insert; [|done]. unfold roll_left. apply Forall_app.
      split; [by apply Forall_drop|by apply Forall_take].
    + apply Forall_app. split; [done|by repeat constructor].
  - by rewrite (append_raise self data e Hrow).
Qed.
Lemma set_history_length_width self n self' :
  uniform_rows self → set_history_length self n = Ok self' → uniform_rows self'.
Proof.
  unfold uniform_rows, set_history_length. intros Hu.
  destruct (decide (n > 0)); [|done].
  case_decide; intros [= <-]; simpl; [|done].
  unfold slice_last. case_decide; [done|]. by apply Forall_drop.
Qed.

End rolling_series_claims.

(** ** The plot widgets *)

Section plot_widgets.
Context `{SetOrder}.

Lemma conflict_channels_raise :
  _extract_scalar_channels conflict_channels = Raise (ValueError (conflict_message "A")).
Proof.
  pose proof (extract_result conflict_channels) as Hr.
  destruct (_extract_scalar_channels conflict_channels) as [[data_names error_bar_names]|e].
  - destruct Hr as (_ & _ & Hinj). exfalso.
    assert (HXY : "X" = "Y"); [|done].
    apply (Hinj "A"); eexists; split_and!; reflexivity || done.
  - destruct Hr as (t & s1 & s2 & -> & _ & _ & _ & (spec & Hs & E & N) & _).
    unfold conflict_channels in Hs. concrete_lookup Hs; done.
Qed.

Lemma xy_widget_extractor_failure self data channels msg :
  _XYPlotWidget.series_initialised self = false →
  ndscan_channels data = Some channels →
  _extract_scalar_channels channels = Raise (ValueError msg) →
  _XYPlotWidget.data_changed self data = (self, Some (AttributeError "emit")).
Proof. intros Hinit Hch Hex. unfold _XYPlotWidget.data_changed. by rewrite Hinit, Hch, Hex. Qed.

Lemma rolling_widget_extractor_failure self data channels msg :
  _RollingPlotWidget.series_initialised self = false →
  ndscan_channels data = Some channels →
  _extract_scalar_channels channels = Raise (ValueError msg) →
  _RollingPlotWidget.data_changed self data = (self, Some (AttributeError "emit")).
Proof.
  intros Hinit Hch Hex. unfold _RollingPlotWidget.data_changed. by rewrite Hinit, Hch, Hex.
Qed.

Lemma xy_widget_init_ok x_schema :
  spec_scale (param_spec_of (axis_param x_schema)) ≠ 0%Qc →
  ∃ w, _XYPlotWidget.__init__ x_schema = Ok w ∧
    _XYPlotWidget.series_initialised w = false ∧
    _XYPlotWidget.series w = [] ∧
    _XYPlotWidget.error_emitted w = [].
Proof.
  intros Hscale. unfold _XYPlotWidget.__init__. rewrite decide_False by done.
  eexists. split; [reflexivity|]. done.
Qed.


(** C2: on the conflicting schema the handler of either plot widget raises
    and nothing is sent through [error]; the exception leaves
    [_MainWidget.data_changed], whose message label is left as it was. *)
Theorem plot_widgets_handler_raises :
  let data := with_schema no_data "fragment" [] conflict_channels in
  _extract_scalar_channels conflict_channels
    = Raise (ValueError (conflict_message "A")) ∧
  _RollingPlotWidget.data_changed _RollingPlotWidget.__init__ data
    = (_RollingPlotWidget.__init__, Some (AttributeError "emit")) ∧
  _RollingPlotWidget.error_emitted _RollingPlotWidget.__init__ = [] ∧
  (∃ w, _XYPlotWidget.__init__ (axis_of 1) = Ok w ∧
     _XYPlotWidget.data_changed w data = (w, Some (AttributeError "emit")) ∧
     _XYPlotWidget.error_emitted w = []) ∧
  (∃ self', _MainWidget.data_changed (_MainWidget.__init__ "1") data
              = (self', Some (AttributeError "emit")) ∧
     _MainWidget.message_label self' = _MainWidget.message_label (_MainWidget.__init__ "1")).
Proof.
  intros data. pose proof conflict_channels_raise as Hex.
  assert (Hroll : _RollingPlotWidget.data_changed _RollingPlotWidget.__init__ data
    = (_RollingPlotWidget.__init__, Some (AttributeError "emit"))).
  { by apply (rolling_widget_extractor_failure _ _ conflict_channels (conflict_message "A")). }
  split_and!; [done|done|done| |].
  - destruct (xy_widget_init_ok (axis_of 1)) as (w & Hw & Hinit & _ & Hem); [done|].
    exists w. split_and!; [done| |done].
    by apply (xy_widget_extractor_failure _ _ conflict_channels (conflict_message "A")).
  - unfold _MainWidget.data_changed, _MainWidget.on_axes, _MainWidget.forward. simpl.
    unfold _MainWidget.plot_data_changed. rewrite Hroll. by eexists.
Qed.

(** *** The phase flag of the rolling plot *)


Lemma rolling_on_phase_idle self data :
  ndscan_point_phase data = None ∨
  ndscan_point_phase data = Some (_RollingPlotWidget.point_phase self) →
  _RollingPlotWidget.on_phase self data = (self, None).
Proof.
  unfold _RollingPlotWidget.on_phase. intros [-> | ->]; [done|].
  by rewrite bool_decide_false by (by intros []).
Qed.



Lemma rolling_make_series_ok error_bar_names n i name :
  0 < n →
  ∃ s, _RollingPlotWidget.make_series error_bar_names n i name = Ok s ∧
    _Rolling1DSeries.data_name s = name ∧
    fst <$> _Rolling1DSeries.error_bar s = error_bar_name_for error_bar_names name ∧
    _Rolling1DSeries.values s = [] ∧
    has_capacity n s.
Proof.
  intros Hn. unfold _RollingPlotWidget.make_series, _Rolling1DSeries.__init__.
  match goal with |- context [_Rolling1DSeries.set_history_length ?s0 n] =>
    destruct (set_history_length_ok s0 n Hn) as (s & Hs & Hx & Hv & Hname & Hbar & _);
    pose proof (set_history_length_capacity s0 n s Hs) as Hcap
  end.
  exists s. split_and!; [done|done| |done|done].
  rewrite Hbar. unfold error_bar_name_for. simpl.
  destruct (error_bar_names !! name) as [e|]; [|done]. by destruct (str_truthy e).
Qed.

Lemma rolling_make_all_ok error_bar_names n names : ∀ i,
  0 < n →
  ∃ new, _RollingPlotWidget.make_all error_bar_names n i names = (new, None) ∧
    _Rolling1DSeries.data_name <$> new = names ∧
    Forall (λ s, _Rolling1DSeries.values s = [] ∧ has_capacity n s ∧
                 fst <$> _Rolling1DSeries.error_bar s
                   = error_bar_name_for error_bar_names (_Rolling1DSeries.data_name s)) new.
Proof.
  induction names as [|name names IH]; intros i Hn; simpl.
  - by exists [].
  - destruct (rolling_make_series_ok error_bar_names n i name Hn)
      as (s & -> & Hname & Hbar & Hv & Hcap).
    destruct (IH (S i) Hn) as (new & -> & Hnames & Hall).
    exists (s :: new). split_and!; [done|by csimpl; rewrite Hname, Hnames|].
    constructor; [|done]. by rewrite Hname.
Qed.




(** *** The top-level widget *)

Lemma plot_data_changed_kind p data p' e :
  _MainWidget.plot_data_changed p data = (p', e) →
  _MainWidget.is_rolling p' = _MainWidget.is_rolling p.
Proof.
  unfold _MainWidget.plot_data_changed. destruct p as [w|w].
  - destruct (_RollingPlotWidget.data_changed w data). by intros [= <- <-].
  - destruct (_XYPlotWidget.data_changed w data). by intros [= <- <-].
Qed.

Lemma main_widget_title self data :
  _MainWidget.title_set self = true ∨
    (∃ fqn, ndscan_fragment_fqn data = Some fqn ∧ fqn ≠ "") →
  ∃ self0, _MainWidget.data_changed self data = _MainWidget.on_axes self0 data ∧
    _MainWidget.plot self0 = _MainWidget.plot self ∧
    _MainWidget.plot_initialised self0 = _MainWidget.plot_initialised self ∧
    _MainWidget.message_label self0 = _MainWidget.message_label self.
Proof.
  unfold _MainWidget.data_changed. intros [Hset|(fqn & Hfqn & Hne)].
  - rewrite Hset. by exists self.
  - destruct (_MainWidget.title_set self); [by exists self|].
    rewrite Hfqn. apply str_truthy_true in Hne. rewrite Hne. by eexists.
Qed.

(** C8 (amended).  With the title known and no plot yet, an [axes] array of
    length 0 makes [_MainWidget] build the rolling plot; one of length 1
    whose descriptor has a non-zero scale makes it build the X-Y plot from
    that descriptor; one of length 2 or more makes it show a message that
    starts with the length and build no plot.  A plot, once built, is only
    ever updated through its own [data_changed]. *)
Theorem main_widget_axes_dispatch :
  (∀ self data axes,
     _MainWidget.plot_initialised self = false →
     _MainWidget.title_set self = true ∨
       (∃ fqn, ndscan_fragment_fqn data = Some fqn ∧ fqn ≠ "") →
     ndscan_axes data = Some axes →
     ∃ self' e, _MainWidget.data_changed self data = (self', e) ∧
       (axes = [] →
          ∃ w, _MainWidget.plot self' = Some (_MainWidget.RollingPlot w) ∧
            (w, e) = _RollingPlotWidget.data_changed _RollingPlotWidget.__init__ data ∧
            _MainWidget.plot_initialised self' = true ∧
            _MainWidget.current_widget self' = _MainWidget.Plot) ∧
       (∀ x_schema, axes = [x_schema] →
          spec_scale (param_spec_of (axis_param x_schema)) ≠ 0%Qc →
          ∃ w0 w, _XYPlotWidget.__init__ x_schema = Ok w0 ∧
            _MainWidget.plot self' = Some (_MainWidget.XYPlot w) ∧
            (w, e) = _XYPlotWidget.data_changed w0 data ∧
            _MainWidget.plot_initialised self' = true ∧
            _MainWidget.current_widget self' = _MainWidget.Plot) ∧
       ((2 ≤ length axes)%nat →
          e = None ∧
          _MainWidget.plot self' = _MainWidget.plot self ∧
          _MainWidget.plot_initialised self' = false ∧
          _MainWidget.current_widget self' = _MainWidget.MessageLabel ∧
          _MainWidget.message_label self'
            = pretty (length axes) +:+ "-dimensional scans are not yet supported")) ∧
  (∀ self data p self' e,
     _MainWidget.plot_initialised self = true →
     _MainWidget.plot self = Some p →
     _MainWidget.data_changed self data = (self', e) →
     _MainWidget.plot_initialised self' = true ∧
     ∃ p', _MainWidget.plot self' = Some p' ∧
       _MainWidget.is_rolling p' = _MainWidget.is_rolling p ∧
       (p' = p ∨ (p', e) = _MainWidget.plot_data_changed p data)).
Proof.
  split.
  - intros self data axes Hinit Htitle Haxes.
    destruct (main_widget_title self data Htitle) as (self0 & -> & Hplot & Hinit0 & _).
    rewrite Hinit in Hinit0. unfold _MainWidget.on_axes. rewrite Hinit0, Haxes.
    destruct axes as [|x_schema [|x_schema' axes]].
    + unfold _MainWidget.forward. simpl. unfold _MainWidget.plot_data_changed.
      destruct (_RollingPlotWidget.data_changed _RollingPlotWidget.__init__ data) as [w e].
      eexists _, e. split; [reflexivity|]. simpl. split_and!.
      * intros _. by exists w.
      * by intros x_schema.
      * lia.
    + destruct (decide (spec_scale (param_spec_of (axis_param x_schema)) = 0%Qc))
        as [Hzero|Hscale].
      * destruct (_XYPlotWidget.__init__ x_schema) as [w0|e0].
        -- unfold _MainWidget.forward. simpl. unfold _MainWidget.plot_data_changed.
           destruct (_XYPlotWidget.data_changed w0 data) as [w e].
           eexists _, e. split; [reflexivity|]. simpl. split_and!; [done| |lia].
           by intros ? [= <-] ?.
        -- eexists _, _. split; [reflexivity|]. simpl. split_and!; [done| |lia].
           by intros ? [= <-] ?.
      * destruct (xy_widget_init_ok x_schema Hscale) as (w0 & Hw0 & _). rewrite Hw0.
        unfold _MainWidget.forward. simpl. unfold _MainWidget.plot_data_changed.
        destruct (_XYPlotWidget.data_changed w0 data) as [w e] eqn:Hdc.
        eexists _, e. split; [reflexivity|]. simpl. split_and!; [done| |lia].
        intros ? [= <-] _. exists w0, w. by rewrite Hdc.
    + eexists _, _. split; [reflexivity|]. simpl. split_and!; [done|done|].
      intros _. by rewrite Hplot.
  - intros self data p self' e Hinit Hplot. unfold _MainWidget.data_changed.
    assert (Hfwd : ∀ self0, _MainWidget.plot_initialised self0 = true →
              _MainWidget.plot self0 = Some p →
              _MainWidget.on_axes self0 data = (self', e) →
              _MainWidget.plot_initialised self' = true ∧
              ∃ p', _MainWidget.plot self' = Some p' ∧
                _MainWidget.is_rolling p' = _MainWidget.is_rolling p ∧
                (p' = p ∨ (p', e) = _MainWidget.plot_data_changed p data)).
    { intros self0 Hinit0 Hplot0. unfold _MainWidget.on_axes, _MainWidget.forward.
      rewrite Hinit0, Hplot0.
      destruct (_MainWidget.plot_data_changed p data) as [p' e'] eqn:Hdc.
      intros [= <- <-]. simpl. split; [done|]. exists p'. split_and!; [done| |by right].
      by eapply plot_data_changed_kind. }
    destruct (_MainWidget.title_set self).
    + by apply Hfwd.
    + destruct (ndscan_fragment_fqn data) as [fqn|].
      * destruct (str_truthy fqn); [by apply Hfwd|].
        intros [= <- <-]. split; [done|]. exists p. split_and!; [done|done|by left].
      * intros [= <- <-]. split; [done|]. exists p. split_and!; [done|done|by left].
Qed.


(** *** Missing keys *)

Lemma xy_num_to_show_missing self x_data data :
  ndscan_points_channel data !! _XYSeries.data_name self = None ∨
  (∃ name item, _XYSeries.error_bar self = Some (name, item) ∧
     ndscan_points_channel data !! name = None) →
  _XYSeries.num_to_show self x_data data = 0%nat.
Proof.
  unfold _XYSeries.num_to_show, _XYSeries.channel.
  intros [Hy|(name & item & Hbar & Herr)].
  - rewrite Hy. simpl. destruct (_XYSeries.error_bar self) as [[? ?]|]; lia.
  - rewrite Hbar, Herr. simpl. lia.
Qed.

(** C9 (amended).  [_XYSeries.update] never raises and, with a channel key
    missing and nothing shown, changes nothing; the plot widgets and
    [_MainWidget] return unchanged and without exception while the key they
    wait for ([channels]; [points.axis_0] or [point_phase]; [fragment_fqn],
    [axes]) is missing.  [_Rolling1DSeries.append] indexes the dictionary
    directly: it raises [KeyError] when its point key or its error key is
    missing, and succeeds when both are there. *)
Theorem missing_data_deferred :
  (∀ self x_data data,
     (∃ self', _XYSeries.update self x_data data = Ok self') ∧
     (ndscan_points_channel data !! _XYSeries.data_name self = None ∨
      (∃ name item, _XYSeries.error_bar self = Some (name, item) ∧
         ndscan_points_channel data !! name = None) →
      _XYSeries.num_current_points self = 0%nat →
      _XYSeries.update self x_data data = Ok self)) ∧
  (∀ self data,
     (_XYPlotWidget.series_initialised self = false → ndscan_channels data = None →
      _XYPlotWidget.data_changed self data = (self, None)) ∧
     (_XYPlotWidget.series_initialised self = true →
      ndscan_points_axis_0 data = None ∨ ndscan_points_axis_0 data = Some [] →
      _XYPlotWidget.data_changed self data = (self, None))) ∧
  (∀ self data,
     (_RollingPlotWidget.series_initialised self = false → ndscan_channels data = None →
      _RollingPlotWidget.data_changed self data = (self, None)) ∧
     (_RollingPlotWidget.series_initialised self = true → ndscan_point_phase data = None →
      _RollingPlotWidget.data_changed self data = (self, None))) ∧
  (∀ self data,
     (_MainWidget.title_set self = false →
      ndscan_fragment_fqn data = None ∨ ndscan_fragment_fqn data = Some "" →
      _MainWidget.data_changed self data = (self, None)) ∧
     (_MainWidget.title_set self = true → _MainWidget.plot_initialised self = false →
      ndscan_axes data = None →
      _MainWidget.data_changed self data = (self, None))) ∧
  (∀ self data,
     (ndscan_point data !! _Rolling1DSeries.data_name self = None →
      _Rolling1DSeries.append self data
        = Raise (KeyError ("ndscan.point." +:+ _Rolling1DSeries.data_name self))) ∧
     (∀ name item, _Rolling1DSeries.error_bar self = Some (name, item) →
        is_Some (ndscan_point data !! _Rolling1DSeries.data_name self) →
        ndscan_point data !! name = None →
        _Rolling1DSeries.append self data = Raise (KeyError ("ndscan.point." +:+ name))) ∧
     (is_Some (ndscan_point data !! _Rolling1DSeries.data_name self) →
      (∀ name item, _Rolling1DSeries.error_bar self = Some (name, item) →
         is_Some (ndscan_point data !! name)) →
      ∃ self', _Rolling1DSeries.append self data = Ok self')).
Proof.
  split_and!.
  - intros self x_data data. split; [apply update_never_raises|].
    intros Hmiss Hzero. apply update_noop.
    by rewrite (xy_num_to_show_missing self x_data data Hmiss).
  - intros self data. unfold _XYPlotWidget.data_changed. split.
    + by intros -> ->.
    + intros -> Hx. unfold _XYPlotWidget.dispatch. by destruct Hx as [-> | ->].
  - intros self data. unfold _RollingPlotWidget.data_changed. split.
    + by intros -> ->.
    + intros -> Hphase. apply rolling_on_phase_idle. by left.
  - intros self data. unfold _MainWidget.data_changed. split.
    + intros -> Hfqn. by destruct Hfqn as [-> | ->].
    + intros -> Hinit Haxes. unfold _MainWidget.on_axes. by rewrite Hinit, Haxes.
  - intros self data. split_and!.
    + intros Hmiss. apply append_raise. unfold _Rolling1DSeries.new_row. by rewrite Hmiss.
    + intros name item Hbar [v Hv] Hmiss. apply append_raise.
      unfold _Rolling1DSeries.new_row. by rewrite Hv, Hbar, Hmiss.
    + intros [v Hv] Hbar.
      assert (Hrow : ∃ p, _Rolling1DSeries.new_row self data = Ok p).
      { unfold _Rolling1DSeries.new_row. rewrite Hv.
        destruct (_Rolling1DSeries.error_bar self) as [[name item]|]; [|by eexists].
        destruct (Hbar name item eq_refl) as [e ->]. by eexists. }
      destruct Hrow as [p Hp]. destruct (append_ok self data p Hp) as (self' & -> & _).
      by eexists.
Qed.

End plot_widgets.

(** ** Instances *)


Lemma rolling_series_set_history_length_witness :
  ∃ self1 self2,
    _Rolling1DSeries.set_history_length rolling_y_full 2 = Ok self1 ∧
    _Rolling1DSeries.values self1 = [[20; 4]; [30; 6]] ∧
    _Rolling1DSeries.set_history_length self1 5 = Ok self2 ∧
    _Rolling1DSeries.values self2 = [[20; 4]; [30; 6]] ∧
    _Rolling1DSeries.set_history_length rolling_y_full 0
      = Raise (AssertionError "Invalid history length").
Proof.
  destruct (rolling_series_set_history_length rolling_y_full) as [Hshrink Hfail].
  destruct (Hshrink 2) as (self1 & Hs1 & Hv1 & _ & _ & Hgrow); [simpl; lia|].
  destruct (Hgrow 5) as (self2 & Hs2 & Hv2 & _); [lia|].
  exists self1, self2. split_and!; [done|exact Hv1|done|by rewrite Hv2|].
  apply Hfail. lia.
Defined.

Lemma xy_series_update_idempotent_witness :
  let self := _XYPlotWidget.make_series ∅ 0 "y" in
  ∃ self', _XYSeries.update self [3; 1; 2] scenario_312 = Ok self' ∧
    _XYSeries.num_current_points self' = 3%nat ∧
    _XYSeries.update self' [3; 1; 2] scenario_312 = Ok self'.
Proof.
  intros self.
  destruct (xy_series_update_idempotent self [3; 1; 2] scenario_312)
    as (self' & Hup & Hnum & _ & _ & Hagain).
  exists self'. split_and!; [done|exact Hnum|done].
Defined.

Lemma main_widget_axes_dispatch_witness :
  let data := with_schema no_data "fragment" [axis_of 1; axis_of 1; axis_of 1] ∅ in
  ∃ self', @_MainWidget.data_changed elements_order (_MainWidget.__init__ "1") data
             = (self', None) ∧
    _MainWidget.plot self' = None ∧
    _MainWidget.current_widget self' = _MainWidget.MessageLabel ∧
    _MainWidget.message_label self' = "3-dimensional scans are not yet supported".
Proof.
  intros data.
  destruct (@main_widget_axes_dispatch elements_order) as [Hdispatch _].
  destruct (Hdispatch (_MainWidget.__init__ "1") data [axis_of 1; axis_of 1; axis_of 1])
    as (self' & e & Hdc & _ & _ & Hmany); [done|right; by exists "fragment"|done|].
  destruct Hmany as (-> & Hplot & _ & Hcur & Hmsg); [simpl; lia|].
  exists self'. split_and!; [done|exact Hplot|done|exact Hmsg].
Defined.

(** Counterexample to C8 as stated: an [axes] array of length 1 whose
    descriptor has scale 0; the constructor of the X-Y plot divides by the
    scale, and no plot is built. *)
Lemma main_widget_zero_scale :
  let data := with_schema no_data "fragment" [axis_of 0] example_channels in
  (length <$> ndscan_axes data) = Some 1%nat ∧
  ∃ self', @_MainWidget.data_changed elements_order (_MainWidget.__init__ "1") data
             = (self', Some ZeroDivisionError) ∧
    _MainWidget.plot self' = None ∧
    _MainWidget.plot_initialised self' = false.
Proof.
  split; [done|]. eexists. split; [vm_compute; reflexivity|]. done.
Qed.

Lemma missing_data_deferred_witness :
  _XYSeries.update (_XYPlotWidget.make_series ∅ 0 "z") [3; 1; 2] scenario_312
    = Ok (_XYPlotWidget.make_series ∅ 0 "z") ∧
  @_RollingPlotWidget.data_changed elements_order _RollingPlotWidget.__init__ no_data
    = (_RollingPlotWidget.__init__, None) ∧
  @_MainWidget.data_changed elements_order (_MainWidget.__init__ "1") no_data
    = (_MainWidget.__init__ "1", None) ∧
  _Rolling1DSeries.append rolling_plain no_data = Raise (KeyError "ndscan.point.y").
Proof.
  destruct (@missing_data_deferred elements_order) as (Hxy & _ & Hroll & Hmain & Happ).
  split_and!.
  - destruct (Hxy (_XYPlotWidget.make_series ∅ 0 "z") [3; 1; 2] scenario_312) as [_ Hmiss].
    apply Hmiss; [by left|done].
  - destruct (Hroll _RollingPlotWidget.__init__ no_data) as [Hwait _]. by apply Hwait.
  - destruct (Hmain (_MainWidget.__init__ "1") no_data) as [Hwait _].
    apply Hwait; [done|by left].
  - destruct (Happ rolling_plain no_data) as [Hmiss _]. by apply Hmiss.
Defined.

(** Counterexample to C9 as stated: [append] on a dictionary without the
    point key raises [KeyError], and the exception leaves the rolling plot's
    [data_changed]. *)
Lemma rolling_append_missing_key :
  ndscan_point no_data !! _Rolling1DSeries.data_name rolling_plain = None ∧
  _Rolling1DSeries.append rolling_plain no_data = Raise (KeyError "ndscan.point.y") ∧
  @_RollingPlotWidget.data_changed elements_order rolling_ready (with_point no_data true ∅)
    = (rolling_ready, Some (KeyError "ndscan.point.y")).
Proof. split_and!; reflexivity. Qed.



(** * Further properties *)

(** ** The extractor, beyond the claims *)

(** X1.  A successful result of [_extract_scalar_channels] does not depend
    on the order in which Python iterates over [data_names]. *)
Theorem extract_order_independent (O1 O2 : SetOrder) channels r :
  @_extract_scalar_channels O1 channels = Ok r →
  @_extract_scalar_channels O2 channels = Ok r.
Proof.
  intros H1. pose proof (@extract_result O1 channels) as R1.
  pose proof (@extract_result O2 channels) as R2. rewrite H1 in R1.
  destruct r as [names1 map1]. destruct R1 as (Hm1 & Hn1 & Hinj).
  destruct (@_extract_scalar_channels O2 channels) as [[names2 map2]|e].
  - destruct R2 as (Hm2 & Hn2 & _). do 2 f_equal.
    + apply set_eq. intros s. by rewrite Hn1, Hn2.
    + apply map_eq. intros t. apply option_eq. intros s. by rewrite Hm1, Hm2.
  - destruct R2 as (t & s1 & s2 & _ & Hne & Hs1 & Hs2 & Hd1 & Hd2).
    destruct Hne. by apply (Hinj t).
Qed.

Lemma extract_order_independent_witness :
  @_extract_scalar_channels reverse_order example_channels
    = Ok ({["A"; "B"]}, {["A" := "A_err"]}).
Proof.
  apply (extract_order_independent elements_order reverse_order). by vm_compute.
Defined.

(** X2.  On success the scalar channels are split in two: the data channels
    returned and the error-bar channels, which are the values of the map;
    no error-bar channel serves two targets. *)
Theorem extract_splits_scalar_channels `{SetOrder} channels data_names error_bar_names :
  _extract_scalar_channels channels = Ok (data_names, error_bar_names) →
  data_names ∪ map_img error_bar_names = scalar_names channels ∧
  data_names ## (map_img error_bar_names : gset string) ∧
  (∀ t1 t2 s, error_bar_names !! t1 = Some s → error_bar_names !! t2 = Some s → t1 = t2).
Proof.
  intros Hex. pose proof (extract_result channels) as Hr. rewrite Hex in Hr.
  destruct Hr as (Hm & Hn & _).
  assert (Himg : ∀ s, s ∈ (map_img error_bar_names : gset string) →
                      s ∈ scalar_names channels).
  { intros s [t Ht]%elem_of_map_img. apply elem_of_scalar_names. by apply Hm in Ht as [? _]. }
  assert (Hdiff : data_names = scalar_names channels ∖ map_img error_bar_names).
  { apply set_eq. intros s. rewrite Hn, elem_of_difference, elem_of_scalar_names,
      elem_of_map_img. split.
    - intros [Hs Hnd]. split; [done|]. intros [t Ht]. apply Hnd. exists t. by apply Hm.
    - intros [Hs Hnd]. split; [done|]. intros [t Ht]. apply Hnd. exists t. by apply Hm. }
  split_and!.
  - rewrite Hdiff. apply set_eq. intros s. rewrite elem_of_union, elem_of_difference.
    split; [intros [[? _]|?]; auto|].
    intros Hs. destruct (decide (s ∈ (map_img error_bar_names : gset string))); auto.
  - rewrite Hdiff. intros s Hs Hin. by apply elem_of_difference in Hs as [_ Hs].
  - intros t1 t2 s [_ (spec1 & Hs1 & E1 & _)]%Hm [_ (spec2 & Hs2 & E2 & _)]%Hm. congruence.
Qed.

Lemma extract_splits_scalar_channels_witness :
  ({["A"; "B"]} : gset string) ∪ map_img ({["A" := "A_err"]} : gmap string string)
    = scalar_names example_channels.
Proof.
  apply (@extract_splits_scalar_channels elements_order example_channels). by vm_compute.
Defined.

(** ** The positional series, beyond the claims *)

Section xy_series_extra.
Import _XYSeries.

Lemma index_prefix (a : list Z) n :
  (n ≤ length a)%nat → (λ i, a !!! i) <$> seq 0 n = take n a.
Proof.
  intros Hn. apply list_eq. intros i. rewrite list_lookup_fmap.
  destruct (decide (i < n)%nat).
  - rewrite lookup_seq_lt, lookup_take_lt by done. simpl.
    by rewrite (list_lookup_lookup_total_lt a i) by lia.
  - rewrite lookup_take_ge, lookup_seq_ge by lia. done.
Qed.

Lemma update_keeps_identity self x_data data self' :
  update self x_data data = Ok self' →
  data_name self' = data_name self ∧
  plot_left_to_right self' = plot_left_to_right self ∧
  fst <$> error_bar self' = fst <$> error_bar self.
Proof.
  destruct (decide (num_to_show self x_data data = num_current_points self)) as [Heq|Hne].
  - rewrite (update_noop _ _ _ Heq). by intros [= <-].
  - destruct (update_redraw self x_data data Hne) as (s & ? & ? & -> & _ & _ & ? & ? & ? & _).
    by intros [= <-].
Qed.

Lemma zip3_fmap {A B C D} (f : A → B) (g : A → C) (h : A → D) (l : list A) :
  zip (zip (f <$> l) (g <$> l)) (h <$> l) = (λ i, (f i, g i, h i)) <$> l.
Proof. induction l as [|a l IH]; [done|]. csimpl. by rewrite IH. Qed.

(** What a redraw does to the error bars. *)
Lemma update_redraw_error_bar self x_data data name item :
  let n := num_to_show self x_data data in
  n ≠ num_current_points self →
  error_bar self = Some (name, item) →
  ∃ self' item',
    update self x_data data = Ok self' ∧
    error_bar self' = Some (name, item') ∧
    errbar_x item' = scatter_x (data_item self') ∧
    errbar_y item' = scatter_y (data_item self') ∧
    errbar_height item' =
      (if plot_left_to_right self
       then (λ i, channel data name !!! i) <$> argsort (take n x_data)
       else int64_double (take n (channel data name))).
Proof.
  intros n Hne Hbar. unfold update. fold n.
  destruct (decide (n = num_current_points self)) as [|_]; [done|].
  pose proof (num_to_show_le_x self x_data data) as Hx.
  pose proof (num_to_show_le_y self x_data data) as Hy.
  pose proof (num_to_show_le_err self x_data data name item Hbar) as He.
  fold n in Hx, Hy, He. rewrite Hbar.
  destruct (plot_left_to_right self).
  - rewrite (fancy_index_total x_data) by (intros i; by apply argsort_take_lt).
    rewrite (fancy_index_total (channel data (data_name self)))
      by (intros i; by apply argsort_take_lt).
    simpl. rewrite (fancy_index_total (channel data name))
      by (intros i; by apply argsort_take_lt).
    simpl. by eexists _, _.
  - by eexists _, _.
Qed.

Lemma xy_update_error_bars_aux self x_data data name item :
  num_to_show self x_data data ≠ num_current_points self →
  error_bar self = Some (name, item) →
  ∃ self' item',
    update self x_data data = Ok self' ∧
    error_bar self' = Some (name, item') ∧
    errbar_x item' = scatter_x (data_item self') ∧
    errbar_y item' = scatter_y (data_item self') ∧
    length (errbar_height item') = num_to_show self x_data data.
Proof.
  intros Hne Hbar.
  destruct (update_redraw_error_bar self x_data data name item Hne Hbar)
    as (self' & item' & Hup & Hbar' & Hex & Hey & Hh).
  exists self', item'. split_and!; try done.
  pose proof (num_to_show_le_x self x_data data) as Hx.
  pose proof (num_to_show_le_err self x_data data name item Hbar) as He.
  rewrite Hh. destruct (plot_left_to_right self).
  - by rewrite length_fmap, argsort_perm, length_seq, length_take_le.
  - unfold int64_double. by rewrite length_fmap, length_take_le.
Qed.

Lemma int64_wrap_small z : - 2 ^ 63 ≤ z < 2 ^ 63 → int64_wrap z = z.
Proof. intros Hz. unfold int64_wrap. rewrite Z.mod_small; lia. Qed.

Lemma int64_double_small a :
  Forall (λ e, - 2 ^ 62 ≤ e < 2 ^ 62) a → int64_double a = (λ e, 2 * e) <$> a.
Proof.
  intros Ha. unfold int64_double. apply list.Forall_fmap_ext_1.
  eapply list.Forall_impl; [exact Ha|]. intros e He. cbn beta in *.
  apply int64_wrap_small. lia.
Qed.

(** X3.  After a redraw of [n] points, the error bars are drawn at the
    points of the trace and each bar belongs to its sample.  In the order
    of arrival the height of the bar of sample [i] is [2 * error i]
    computed in [int64]: the doubled error when that is below [2 ** 63] in
    size, and the value it wraps around to otherwise.  When the series is
    drawn left to right the bars follow the points but their height is
    [error i], not doubled. *)
Theorem xy_update_error_bars self x_data data name item :
  let n := num_to_show self x_data data in
  let y_data := channel data (data_name self) in
  let y_err := channel data name in
  n ≠ num_current_points self →
  error_bar self = Some (name, item) →
  ∃ self' item',
    update self x_data data = Ok self' ∧
    error_bar self' = Some (name, item') ∧
    errbar_x item' = scatter_x (data_item self') ∧
    errbar_y item' = scatter_y (data_item self') ∧
    length (errbar_height item') = n ∧
    (plot_left_to_right self = false →
       Forall (λ e, - 2 ^ 63 ≤ e < 2 ^ 63) (take n y_err) →
       zip (scatter_points (data_item self')) (errbar_height item')
         = take n (zip (zip x_data y_data) (int64_double y_err)) ∧
       (Forall (λ e, - 2 ^ 62 ≤ e < 2 ^ 62) (take n y_err) →
          errbar_height item' = (λ e, 2 * e) <$> take n y_err)) ∧
    (plot_left_to_right self = true →
       zip (scatter_points (data_item self')) (errbar_height item')
       ≡ₚ take n (zip (zip x_data y_data) y_err)).
Proof.
  intros n y_data y_err Hne Hbar.
  destruct (update_redraw_error_bar self x_data data name item Hne Hbar)
    as (self' & item' & Hup & Hbar' & Hex & Hey & Hh).
  destruct (update_redraw self x_data data Hne)
    as (s & xs & ys & Hup' & Hitem & _ & _ & _ & _ & Hdata).
  rewrite Hup in Hup'. injection Hup' as <-.
  fold n in Hh, Hdata. fold y_data in Hdata. fold y_err in Hh.
  pose proof (num_to_show_le_x self x_data data) as Hx.
  pose proof (num_to_show_le_y self x_data data) as Hy.
  pose proof (num_to_show_le_err self x_data data name item Hbar) as He.
  fold n in Hx, Hy, He. fold y_data in Hy. fold y_err in He.
  exists self', item'. split_and!; try done.
  - rewrite Hh. destruct (plot_left_to_right self).
    + by rewrite length_fmap, argsort_perm, length_seq, length_take_le.
    + unfold int64_double. by rewrite length_fmap, length_take_le.
  - intros Hflag _. rewrite Hflag in Hh, Hdata. destruct Hdata as [-> ->]. split.
    + unfold scatter_points. rewrite Hitem, Hh. simpl. unfold int64_double.
      by rewrite !zip_with_take, fmap_take.
    + intros Hsmall. rewrite Hh. by apply int64_double_small.
  - intros Hflag. rewrite Hflag in Hh, Hdata. destruct Hdata as [-> ->].
    unfold scatter_points. rewrite Hitem, Hh. simpl.
    rewrite zip3_fmap, argsort_perm, length_take_le by done.
    match goal with |- ?l ≡ₚ ?r => assert (l = r) as ->; [|done] end.
    apply list_eq. intros i. rewrite list_lookup_fmap.
    destruct (decide (i < n)%nat).
    + rewrite lookup_seq_lt, lookup_take_lt by done. simpl.
      rewrite !lookup_zip_with.
      rewrite (list_lookup_lookup_total_lt x_data i), (list_lookup_lookup_total_lt y_data i),
        (list_lookup_lookup_total_lt y_err i) by lia.
      done.
    + rewrite lookup_take_ge, lookup_seq_ge by lia. done.
Qed.


Lemma update_redraw_flags self x_data data :
  num_to_show self x_data data ≠ num_current_points self →
  ∃ self', update self x_data data = Ok self' ∧
    data_item_added self'
      = data_item_added self || bool_decide (num_current_points self = 0%nat) ∧
    error_bar_item_added self'
      = error_bar_item_added self ||
        (bool_decide (num_current_points self = 0%nat) &&
         bool_decide (is_Some (error_bar self))).
Proof.
  intros Hne. unfold update. rewrite decide_False by done.
  pose proof (num_to_show_le_x self x_data data) as Hx.
  pose proof (num_to_show_le_y self x_data data) as Hy.
  destruct (plot_left_to_right self); [|by eexists].
  rewrite (fancy_index_total x_data) by (intros i; by apply argsort_take_lt).
  rewrite (fancy_index_total (channel data (data_name self)))
    by (intros i; by apply argsort_take_lt).
  simpl. destruct (error_bar self) as [[name item]|] eqn:Hbar; simpl; [|by eexists].
  rewrite (fancy_index_total (channel data name)).
  - by eexists.
  - intros i. apply argsort_take_lt; [done|].
    by apply (num_to_show_le_err self x_data data name item).
Qed.

Lemma update_consistent self x_data data self' :
  xy_consistent self → update self x_data data = Ok self' → xy_consistent self'.
Proof.
  intros Hc.
  destruct (decide (num_to_show self x_data data = num_current_points self)) as [Heq|Hne].
  { rewrite (update_noop _ _ _ Heq). by intros [= <-]. }
  pose proof (num_to_show_le_x self x_data data) as Hx.
  pose proof (num_to_show_le_y self x_data data) as Hy.
  destruct (update_redraw self x_data data Hne)
    as (s & xs & ys & Hup & Hitem & Hnum & _ & _ & Hnames & Hdata).
  destruct (update_redraw_flags self x_data data Hne) as (s' & Hup' & Hadd & Hadd').
  rewrite Hup in Hup'. injection Hup' as <-.
  rewrite Hup. intros [= <-].
  assert (Hlen : length xs = num_to_show self x_data data ∧
                 length ys = num_to_show self x_data data).
  { destruct (plot_left_to_right self); destruct Hdata as [-> ->].
    - by rewrite !length_fmap, argsort_perm, length_seq, length_take_le.
    - by rewrite !length_take_le. }
  destruct Hlen as [Hlx Hly]. destruct Hc as (_ & _ & _ & Hc).
  unfold xy_consistent. rewrite Hnum, Hitem, Hadd, Hadd'. simpl. split_and!; [done|done| |].
  - intros name item' Hbar'.
    destruct (error_bar self) as [[name0 item0]|] eqn:Hbar;
      [|by rewrite Hbar' in Hnames].
    destruct (xy_update_error_bars_aux self x_data data name0 item0 Hne Hbar)
      as (s' & item'' & Hup'' & Hbar'' & Hex & Hey & Hh).
    rewrite Hup in Hup''. injection Hup'' as <-. rewrite Hbar' in Hbar''.
    injection Hbar'' as <- <-. rewrite Hex, Hey, Hitem. simpl. done.
  - intros _. case_bool_decide as Hzero.
    + rewrite orb_true_r. split; [done|]. intros Hsome.
      assert (Hsome' : is_Some (error_bar self)).
      { by destruct (error_bar self), (error_bar s). }
      by rewrite (bool_decide_true _ Hsome'), orb_true_r.
    + destruct (Hc Hzero) as [-> Hbaradd]. split; [done|]. intros Hsome.
      rewrite Hbaradd; [done|]. by destruct (error_bar self), (error_bar s).
Qed.

(** X4.  Whatever calls of [update] a newly built series receives, the
    arrays of its items all have the length [num_current_points], and a
    series that shows at least one point has had its items added to the
    plot. *)
Theorem xy_updates_consistent data_name color error_bar_name plot_left_to_right calls :
  ∃ self',
    updates (new_xy_series data_name color error_bar_name plot_left_to_right) calls
      = Ok self' ∧
    xy_consistent self'.
Proof.
  assert (Hinit : xy_consistent
            (new_xy_series data_name color error_bar_name plot_left_to_right)).
  { unfold xy_consistent, new_xy_series. simpl. split_and!; try done.
    intros name item. destruct error_bar_name; [|done]. by intros [= <- <-]. }
  revert Hinit. generalize (new_xy_series data_name color error_bar_name plot_left_to_right).
  induction calls as [|[x_data data] calls IH]; intros self Hc; simpl.
  - by exists self.
  - destruct (update_never_raises self x_data data) as [s1 Hs1]. rewrite Hs1. simpl.
    apply IH. by apply (update_consistent self x_data data).
Qed.

(** X5.  [update] looks at lengths only: after a call has drawn its data,
    a call that delivers other values of the same lengths leaves the trace
    as it is. *)
Theorem xy_update_same_lengths self x_data data x_data' data' self' :
  update self x_data data = Ok self' →
  num_to_show self x_data' data' = num_to_show self x_data data →
  update self' x_data' data' = Ok self'.
Proof.
  intros Hup Hsame. apply update_noop.
  destruct (update_keeps_identity self x_data data self' Hup) as (Hname & _ & Hbar).
  rewrite (num_to_show_ext self self' x_data' data' Hname Hbar), Hsame.
  destruct (decide (num_to_show self x_data data = num_current_points self)) as [Heq|Hne].
  - rewrite (update_noop _ _ _ Heq) in Hup. injection Hup as <-. done.
  - destruct (update_redraw self x_data data Hne) as (s & ? & ? & Hup' & _ & Hnum & _).
    rewrite Hup in Hup'. injection Hup' as <-. done.
Qed.

End xy_series_extra.

Lemma xy_update_error_bars_witness :
  (∃ self' item',
     _XYSeries.update (new_xy_series "y" "#d9d9d999" (Some "y_err") false)
       [3; 1; 2] scenario_err = Ok self' ∧
     _XYSeries.error_bar self' = Some ("y_err", item') ∧
     zip (scatter_points (_XYSeries.data_item self')) (errbar_height item')
       = [(3, 30, 6); (1, 10, 2); (2, 20, 4)] ∧
     errbar_height item' = [6; 2; 4]) ∧
  (∃ self' item',
     _XYSeries.update (new_xy_series "y" "#d9d9d999" (Some "y_err") false)
       [1] scenario_wrap = Ok self' ∧
     _XYSeries.error_bar self' = Some ("y_err", item') ∧
     zip (scatter_points (_XYSeries.data_item self')) (errbar_height item')
       = [(1, 5, - 2 ^ 63)]).
Proof.
  split.
  - destruct (xy_update_error_bars (new_xy_series "y" "#d9d9d999" (Some "y_err") false)
                [3; 1; 2] scenario_err "y_err" (new_errbar "#d9d9d999"))
      as (self' & item' & Hup & Hbar & _ & _ & _ & Harrival & _); [by vm_compute|done|].
    destruct Harrival as [Hzip Hsmall]; [done|by repeat constructor|].
    exists self', item'. split_and!; [done|done|by rewrite Hzip|].
    rewrite Hsmall; [done|]. by repeat constructor.
  - destruct (xy_update_error_bars (new_xy_series "y" "#d9d9d999" (Some "y_err") false)
                [1] scenario_wrap "y_err" (new_errbar "#d9d9d999"))
      as (self' & item' & Hup & Hbar & _ & _ & _ & Harrival & _); [by vm_compute|done|].
    destruct Harrival as [Hzip _]; [done|by repeat constructor|].
    exists self', item'. split_and!; [done|done|by rewrite Hzip].
Defined.

Lemma xy_update_same_lengths_witness :
  ∃ self',
    _XYSeries.update (new_xy_series "y" "#d9d9d999" None false) [3; 1; 2] scenario_312
      = Ok self' ∧
    _XYSeries.update self' [5; 6; 7] scenario_312 = Ok self' ∧
    scatter_x (_XYSeries.data_item self') = [3; 1; 2].
Proof.
  destruct (update_never_raises (new_xy_series "y" "#d9d9d999" None false)
              [3; 1; 2] scenario_312) as [self' Hup].
  exists self'. split_and!; [done| |].
  - apply (xy_update_same_lengths (new_xy_series "y" "#d9d9d999" None false)
             [3; 1; 2] scenario_312 [5; 6; 7] scenario_312 self' Hup).
    by vm_compute.
  - vm_compute in Hup. by injection Hup as <-.
Defined.

(** ** The X-Y plot, beyond the claims *)

Section xy_widget_extra.
Context `{SetOrder}.

Lemma update_keeps_brush self x_data data self' :
  _XYSeries.update self x_data data = Ok self' →
  scatter_brush (_XYSeries.data_item self') = scatter_brush (_XYSeries.data_item self).
Proof.
  destruct (decide (_XYSeries.num_to_show self x_data data
                    = _XYSeries.num_current_points self)) as [Heq|Hne].
  - rewrite (update_noop _ _ _ Heq). by intros [= <-].
  - destruct (update_redraw self x_data data Hne) as (s & ? & ? & -> & Hitem & _).
    intros [= <-]. by rewrite Hitem.
Qed.

Lemma update_all_ok series x_data data :
  ∃ series', _XYPlotWidget.update_all series x_data data = (series', None) ∧
    Forall2 (λ s s', _XYSeries.update s x_data data = Ok s') series series'.
Proof.
  induction series as [|s series (series' & IH1 & IH2)]; simpl.
  - by exists [].
  - destruct (update_never_raises s x_data data) as [s' Hs']. rewrite Hs', IH1.
    exists (s' :: series'). split; [done|]. by constructor.
Qed.

(** [dispatch] never raises and changes each series through [update] only. *)
Lemma dispatch_ok self data :
  ∃ self', _XYPlotWidget.dispatch self data = (self', None) ∧
    _XYPlotWidget.series_initialised self' = _XYPlotWidget.series_initialised self ∧
    _XYPlotWidget.bottom_label self' = _XYPlotWidget.bottom_label self ∧
    _XYPlotWidget.x_data_to_display_scale self'
      = _XYPlotWidget.x_data_to_display_scale self ∧
    _XYPlotWidget.error_emitted self' = _XYPlotWidget.error_emitted self ∧
    Forall2 (λ s s', _XYSeries.data_name s' = _XYSeries.data_name s ∧
                     _XYSeries.plot_left_to_right s' = _XYSeries.plot_left_to_right s ∧
                     fst <$> _XYSeries.error_bar s' = fst <$> _XYSeries.error_bar s ∧
                     scatter_brush (_XYSeries.data_item s')
                       = scatter_brush (_XYSeries.data_item s))
      (_XYPlotWidget.series self) (_XYPlotWidget.series self').
Proof.
  assert (Hrefl : Forall2 (λ s s', _XYSeries.data_name s' = _XYSeries.data_name s ∧
                     _XYSeries.plot_left_to_right s' = _XYSeries.plot_left_to_right s ∧
                     fst <$> _XYSeries.error_bar s' = fst <$> _XYSeries.error_bar s ∧
                     scatter_brush (_XYSeries.data_item s')
                       = scatter_brush (_XYSeries.data_item s))
      (_XYPlotWidget.series self) (_XYPlotWidget.series self)).
  { apply Forall2_same_length_lookup_2; [done|]. by intros i s s' Hs [= <-]%(eq_trans (eq_sym Hs)). }
  unfold _XYPlotWidget.dispatch.
  destruct (ndscan_points_axis_0 data) as [[|x x_data]|]; [by exists self| |by exists self].
  destruct (update_all_ok (_XYPlotWidget.series self) (x :: x_data) data)
    as (series' & -> & Hall).
  eexists. split; [reflexivity|]. simpl. split_and!; try done.
  eapply list.Forall2_impl; [exact Hall|]. intros s s' Hup. simpl in Hup.
  destruct (update_keeps_identity s _ _ s' Hup) as (? & ? & ?).
  split_and!; try done. by apply (update_keeps_brush s (x :: x_data) data).
Qed.


Lemma xy_make_series_lookup error_bar_names names i s :
  imap (_XYPlotWidget.make_series error_bar_names) names !! i = Some s →
  ∃ name, names !! i = Some name ∧
    _XYSeries.data_name s = name ∧
    _XYSeries.plot_left_to_right s = false ∧
    scatter_brush (_XYSeries.data_item s) = series_color i ∧
    fst <$> _XYSeries.error_bar s = error_bar_name_for error_bar_names name.
Proof.
  rewrite list_lookup_imap. destruct (names !! i) as [name|]; [|done].
  intros [= <-]. exists name. split_and!; try done.
  unfold _XYPlotWidget.make_series, error_bar_name_for. simpl.
  destruct (error_bar_names !! name) as [n|]; [|done]. by destruct (str_truthy n).
Qed.

(** X6.  When the schema arrives, the X-Y plot gets one series per data
    channel of the extractor, in the order of iteration over the set, drawn
    in the order of arrival and coloured by position from the palette; a
    series has error bars exactly when the map of the extractor names a
    non-empty channel for its data channel.  The call does not raise. *)
Theorem xy_widget_builds_series self data channels data_names error_bar_names :
  _XYPlotWidget.series_initialised self = false →
  _XYPlotWidget.series self = [] →
  ndscan_channels data = Some channels →
  _extract_scalar_channels channels = Ok (data_names, error_bar_names) →
  ∃ self', _XYPlotWidget.data_changed self data = (self', None) ∧
    _XYPlotWidget.series_initialised self' = true ∧
    _XYSeries.data_name <$> _XYPlotWidget.series self' = set_iter data_names ∧
    _XYSeries.data_name <$> _XYPlotWidget.series self' ≡ₚ elements data_names ∧
    (∀ i s, _XYPlotWidget.series self' !! i = Some s →
       _XYSeries.plot_left_to_right s = false ∧
       scatter_brush (_XYSeries.data_item s) = series_color i ∧
       fst <$> _XYSeries.error_bar s
         = error_bar_name_for error_bar_names (_XYSeries.data_name s)).
Proof.
  intros Hinit Hnil Hch Hex. unfold _XYPlotWidget.data_changed.
  rewrite Hinit, Hch, Hex, Hnil. simpl.
  set (new := imap (_XYPlotWidget.make_series error_bar_names) (set_iter data_names)).
  destruct (dispatch_ok (_XYPlotWidget.set_series self true new) data)
    as (self' & -> & Hinit' & _ & _ & _ & Hall).
  simpl in Hall, Hinit'.
  assert (Hlook : ∀ i s, _XYPlotWidget.series self' !! i = Some s →
    ∃ name, set_iter data_names !! i = Some name ∧
      _XYSeries.data_name s = name ∧
      _XYSeries.plot_left_to_right s = false ∧
      scatter_brush (_XYSeries.data_item s) = series_color i ∧
      fst <$> _XYSeries.error_bar s = error_bar_name_for error_bar_names name).
  { intros i s Hs.
    destruct (Forall2_lookup_r _ _ _ _ _ Hall Hs) as (s0 & Hs0 & Hn & Hf & Hb & Hc).
    destruct (xy_make_series_lookup _ _ _ _ Hs0) as (name & Hname & <- & Hf0 & Hc0 & Hb0).
    exists (_XYSeries.data_name s0). split_and!; congruence. }
  assert (Hnames : _XYSeries.data_name <$> _XYPlotWidget.series self' = set_iter data_names).
  { apply list_eq_same_length with (length (set_iter data_names)).
    - done.
    - apply list.Forall2_length in Hall. rewrite length_fmap, <-Hall. apply length_imap.
    - intros i a b Hi Ha Hb. rewrite list_lookup_fmap in Ha.
      destruct (_XYPlotWidget.series self' !! i) as [s|] eqn:Hs; [|done].
      destruct (Hlook i s Hs) as (name & Hname & <- & _). simpl in Ha. congruence. }
  exists self'. split_and!; [done|done|done| |].
  - rewrite Hnames. apply set_iter_perm.
  - intros i s Hs. destruct (Hlook i s Hs) as (name & _ & <- & ? & ? & ?). done.
Qed.

Lemma update_all_with_channels series x_data data channels :
  _XYPlotWidget.update_all series x_data (with_channels data channels)
  = _XYPlotWidget.update_all series x_data data.
Proof.
  induction series as [|s series IH]; [done|]. simpl. rewrite IH.
  by change (_XYSeries.update s x_data (with_channels data channels))
    with (_XYSeries.update s x_data data).
Qed.

(** X7.  Once its series are initialised the X-Y plot never raises, never
    reads the schema again, and keeps its series: their number, channels,
    error-bar channels and colours, and its axis label and scale. *)
Theorem xy_widget_ready self data :
  _XYPlotWidget.series_initialised self = true →
  ∃ self', _XYPlotWidget.data_changed self data = (self', None) ∧
    (∀ channels, _XYPlotWidget.data_changed self (with_channels data channels)
                 = (self', None)) ∧
    _XYPlotWidget.series_initialised self' = true ∧
    _XYPlotWidget.bottom_label self' = _XYPlotWidget.bottom_label self ∧
    _XYPlotWidget.x_data_to_display_scale self'
      = _XYPlotWidget.x_data_to_display_scale self ∧
    Forall2 (λ s s', _XYSeries.data_name s' = _XYSeries.data_name s ∧
                     _XYSeries.plot_left_to_right s' = _XYSeries.plot_left_to_right s ∧
                     fst <$> _XYSeries.error_bar s' = fst <$> _XYSeries.error_bar s ∧
                     scatter_brush (_XYSeries.data_item s')
                       = scatter_brush (_XYSeries.data_item s))
      (_XYPlotWidget.series self) (_XYPlotWidget.series self').
Proof.
  intros Hinit. unfold _XYPlotWidget.data_changed. rewrite Hinit.
  destruct (dispatch_ok self data) as (self' & Hd & Hinit' & Hl & Hsc & _ & Hall).
  exists self'. split_and!; [done| |congruence|done|done|done].
  intros channels. rewrite <-Hd. unfold _XYPlotWidget.dispatch. simpl.
  destruct (ndscan_points_axis_0 data) as [[|x x_data]|]; [done| |done].
  by rewrite update_all_with_channels.
Qed.

End xy_widget_extra.

Lemma xy_widget_builds_series_witness :
  ∃ w w', _XYPlotWidget.__init__ (axis_of 1) = Ok w ∧
    @_XYPlotWidget.data_changed elements_order w xy_sample = (w', None) ∧
    _XYSeries.data_name <$> _XYPlotWidget.series w' = ["y"] ∧
    (λ s, fst <$> _XYSeries.error_bar s) <$> _XYPlotWidget.series w' = [Some "y_err"].
Proof.
  destruct (xy_widget_init_ok (axis_of 1)) as (w & Hw & Hinit & Hnil & _); [done|].
  destruct (@xy_widget_builds_series elements_order w xy_sample
              (<["y" := channel_of "float" None]> {["y_err" := channel_of "float" (Some "y")]})
              {["y"]} {["y" := "y_err"]} Hinit Hnil eq_refl)
    as (w' & Hdc & _ & Hnames & _); [by vm_compute|].
  exists w, w'. split_and!; [done|done|by rewrite Hnames|].
  vm_compute in Hw. injection Hw as <-. vm_compute in Hdc. by injection Hdc as <-.
Defined.

Lemma xy_widget_ready_witness :
  ∃ w1 w2,
    @_XYPlotWidget.data_changed elements_order
       (_XYPlotWidget.set_series
          {| _XYPlotWidget.series_initialised := true;
             _XYPlotWidget.series := [];
             _XYPlotWidget.x_unit_suffix := "";
             _XYPlotWidget.bottom_label := "";
             _XYPlotWidget.x_data_to_display_scale := 1%Qc;
             _XYPlotWidget.error_emitted := [] |}
          true [new_xy_series "y" "#d9d9d999" None false])
       scenario_312 = (w1, None) ∧
    @_XYPlotWidget.data_changed elements_order w1
       (with_channels scenario_312 (Some conflict_channels)) = (w2, None).
Proof.
  destruct (@xy_widget_ready elements_order
      (_XYPlotWidget.set_series
          {| _XYPlotWidget.series_initialised := true;
             _XYPlotWidget.series := [];
             _XYPlotWidget.x_unit_suffix := "";
             _XYPlotWidget.bottom_label := "";
             _XYPlotWidget.x_data_to_display_scale := 1%Qc;
             _XYPlotWidget.error_emitted := [] |}
          true [new_xy_series "y" "#d9d9d999" None false]) scenario_312 eq_refl)
    as (w1 & Hw1 & _ & Hinit1 & _).
  destruct (@xy_widget_ready elements_order w1
              (with_channels scenario_312 (Some conflict_channels)) Hinit1)
    as (w2 & Hw2 & _).
  by exists w1, w2.
Defined.

(** ** The rolling series, beyond the claims *)

Section rolling_series_extra.
Import _Rolling1DSeries.



Lemma rolling_call_capacity n self c self' :
  has_capacity n self → rolling_call_run self c = Ok self' →
  has_capacity (history_length_after n [c]) self'.
Proof.
  destruct c as [data|n']; simpl.
  - apply append_capacity.
  - intros _. apply set_history_length_capacity.
Qed.

Lemma rolling_call_width self c self' :
  uniform_rows self → rolling_call_run self c = Ok self' → uniform_rows self'.
Proof.
  destruct c as [data|n']; simpl.
  - apply values_width.
  - apply set_history_length_width.
Qed.

(** X9.  Whatever appends and changes of the history length a series
    receives after its construction, as long as none of them raises, its
    buffer holds no more rows than the history length last set, its
    [x_indices] are the offsets of that length, and all its rows have the
    width fixed by the presence of error bars. *)
Theorem rolling_calls_invariant data_name data_item error_bar n0 self0 calls self' :
  __init__ data_name data_item error_bar n0 = Ok self0 →
  rolling_calls_run self0 calls = Ok self' →
  has_capacity (history_length_after n0 calls) self' ∧ uniform_rows self'.
Proof.
  intros Hinit.
  assert (Hcap : has_capacity n0 self0) by by eapply init_capacity.
  assert (Huni : uniform_rows self0).
  { apply (set_history_length_width _ n0 self0) in Hinit; [done|]. by constructor. }
  clear Hinit. revert n0 self0 Hcap Huni.
  induction calls as [|c calls IH]; intros n0 self0 Hcap Huni; simpl.
  - by intros [= <-].
  - destruct (rolling_call_run self0 c) as [s1|e] eqn:Hs1; simpl; [|done].
    intros Hrest.
    pose proof (rolling_call_capacity n0 self0 c s1 Hcap Hs1) as Hcap1.
    pose proof (rolling_call_width self0 c s1 Huni Hs1) as Huni1.
    destruct c as [data|n']; simpl in *; by apply (IH _ s1).
Qed.

End rolling_series_extra.


Lemma rolling_calls_invariant_witness :
  ∃ self0 self',
    _Rolling1DSeries.__init__ "y" (new_scatter "#d9d9d999") None 3 = Ok self0 ∧
    rolling_calls_run self0
      [Append (point_y true 1 0); Append (point_y false 2 0); Append (point_y true 3 0);
       SetHistoryLength 2; Append (point_y false 4 0)] = Ok self' ∧
    has_capacity 2 self' ∧
    _Rolling1DSeries.values self' = [[3]; [4]].
Proof.
  eexists _, _. split; [by vm_compute|]. 
  assert (Hrun : rolling_calls_run
      (_Rolling1DSeries.set_buffer
         (_Rolling1DSeries.mk "y" (new_scatter "#d9d9d999") None [] [] false false)
         (arange_neg 3) [])
      [Append (point_y true 1 0); Append (point_y false 2 0); Append (point_y true 3 0);
       SetHistoryLength 2; Append (point_y false 4 0)]
      = Ok (_Rolling1DSeries.mk "y"
              (scatter_setData (new_scatter "#d9d9d999") [-2; -1] [3; 4]) None
              [[3]; [4]] (arange_neg 2) true false)) by by vm_compute.
  split; [exact Hrun|]. split; [|done].
  by apply (rolling_calls_invariant "y" (new_scatter "#d9d9d999") None 3 _ _ _ eq_refl Hrun).
Defined.

(** ** The rolling plot, beyond the claims *)

Section rolling_widget_extra.
Context `{SetOrder}.

(** [append_all] keeps the channels and the capacity of every series, and
    raises nothing but [KeyError]. *)
Lemma append_all_keeps series data : ∀ series' e,
  _RollingPlotWidget.append_all series data = (series', e) →
  Forall2 (λ s s', _Rolling1DSeries.data_name s' = _Rolling1DSeries.data_name s ∧
                   fst <$> _Rolling1DSeries.error_bar s'
                     = fst <$> _Rolling1DSeries.error_bar s ∧
                   ∀ n, has_capacity n s → has_capacity n s') series series' ∧
  (e = None ∨ ∃ key, e = Some (KeyError key)).
Proof.
  assert (Hrefl : ∀ l : list _Rolling1DSeries.t,
    Forall2 (λ s s', _Rolling1DSeries.data_name s' = _Rolling1DSeries.data_name s ∧
                   fst <$> _Rolling1DSeries.error_bar s'
                     = fst <$> _Rolling1DSeries.error_bar s ∧
                   ∀ n, has_capacity n s → has_capacity n s') l l).
  { induction l; by constructor. }
  induction series as [|s series IH]; intros series' e; simpl.
  - intros [= <- <-]. split; [constructor|by left].
  - destruct (_Rolling1DSeries.new_row s data) as [p|e0] eqn:Hrow.
    + destruct (append_ok s data p Hrow) as (s' & Hs' & _ & _ & Hname & Hbar & _).
      rewrite Hs'.
      destruct (_RollingPlotWidget.append_all series data) as [series1 e1].
      intros [= <- <-]. destruct (IH series1 e1 eq_refl) as [Hall He].
      split; [|done]. constructor; [|done]. split_and!; [done|done|].
      intros n Hcap. by apply (append_capacity n s data).
    + rewrite (append_raise s data e0 Hrow). intros [= <- <-]. split; [apply Hrefl|].
      right. unfold _Rolling1DSeries.new_row in Hrow.
      destruct (ndscan_point data !! _Rolling1DSeries.data_name s);
        [|injection Hrow as <-; by eexists].
      destruct (_Rolling1DSeries.error_bar s) as [[name ?]|]; [|done].
      destruct (ndscan_point data !! name); [done|]. injection Hrow as <-. by eexists.
Qed.

Lemma rolling_on_phase_keeps self data self' e :
  _RollingPlotWidget.on_phase self data = (self', e) →
  _RollingPlotWidget.series_initialised self' = _RollingPlotWidget.series_initialised self ∧
  _RollingPlotWidget.num_history_box self' = _RollingPlotWidget.num_history_box self ∧
  _RollingPlotWidget.error_emitted self' = _RollingPlotWidget.error_emitted self ∧
  Forall2 (λ s s', _Rolling1DSeries.data_name s' = _Rolling1DSeries.data_name s ∧
                   fst <$> _Rolling1DSeries.error_bar s'
                     = fst <$> _Rolling1DSeries.error_bar s ∧
                   ∀ n, has_capacity n s → has_capacity n s')
    (_RollingPlotWidget.series self) (_RollingPlotWidget.series self') ∧
  (e = None ∨ ∃ key, e = Some (KeyError key)).
Proof.
  assert (Hrefl : ∀ l : list _Rolling1DSeries.t,
    Forall2 (λ s s', _Rolling1DSeries.data_name s' = _Rolling1DSeries.data_name s ∧
                   fst <$> _Rolling1DSeries.error_bar s'
                     = fst <$> _Rolling1DSeries.error_bar s ∧
                   ∀ n, has_capacity n s → has_capacity n s') l l).
  { induction l; by constructor. }
  unfold _RollingPlotWidget.on_phase.
  destruct (ndscan_point_phase data) as [phase|];
    [|intros [= <- <-]; split_and!; [done|done|done|apply Hrefl|by left]].
  case_bool_decide;
    [|intros [= <- <-]; split_and!; [done|done|done|apply Hrefl|by left]].
  destruct (_RollingPlotWidget.append_all (_RollingPlotWidget.series self) data)
    as [series' e'] eqn:Hall.
  destruct (append_all_keeps _ _ _ _ Hall) as [Hkeep He].
  destruct e' as [e'|]; intros [= <- <-]; by split_and!.
Qed.

(** X10.  When the schema arrives, the rolling plot gets one series per
    data channel of the extractor, in the order of iteration over the set,
    each with the history length shown in the spin box and with error bars
    exactly when the map of the extractor names a non-empty channel for it.
    The call can only raise the [KeyError] of an append. *)
Theorem rolling_widget_builds_series self data channels data_names error_bar_names :
  _RollingPlotWidget.series_initialised self = false →
  _RollingPlotWidget.series self = [] →
  0 < _RollingPlotWidget.num_history_box self →
  ndscan_channels data = Some channels →
  _extract_scalar_channels channels = Ok (data_names, error_bar_names) →
  ∃ self' e, _RollingPlotWidget.data_changed self data = (self', e) ∧
    _RollingPlotWidget.series_initialised self' = true ∧
    _Rolling1DSeries.data_name <$> _RollingPlotWidget.series self' = set_iter data_names ∧
    Forall (λ s, has_capacity (_RollingPlotWidget.num_history_box self) s ∧
                 fst <$> _Rolling1DSeries.error_bar s
                   = error_bar_name_for error_bar_names (_Rolling1DSeries.data_name s))
      (_RollingPlotWidget.series self') ∧
    (e = None ∨ ∃ key, e = Some (KeyError key)).
Proof.
  intros Hinit Hnil Hbox Hch Hex. unfold _RollingPlotWidget.data_changed.
  rewrite Hinit, Hch, Hex, Hnil. simpl.
  destruct (rolling_make_all_ok error_bar_names (_RollingPlotWidget.num_history_box self)
              (set_iter data_names) 0 Hbox) as (new & -> & Hnames & Hnew).
  destruct (_RollingPlotWidget.on_phase (_RollingPlotWidget.set_series self true new) data)
    as [self' e] eqn:Hph.
  destruct (rolling_on_phase_keeps _ _ _ _ Hph) as (Hinit' & _ & _ & Hall & He).
  simpl in Hinit', Hall.
  exists self', e. split_and!; [done|done| | |done].
  - rewrite <-Hnames. apply list_eq. intros i. rewrite !list_lookup_fmap.
    destruct (proj1 (Forall2_lookup _ _ _) Hall i) as [s s' (Hn & _)|]; simpl; congruence.
  - apply Forall_lookup. intros i s' Hs'.
    destruct (Forall2_lookup_r _ _ _ _ _ Hall Hs') as (s & Hs & Hn & Hb & Hc).
    destruct (proj1 (Forall_lookup _ _) Hnew i s Hs) as (_ & Hcap & Hbar).
    split; [by apply Hc|]. congruence.
Qed.


(** X11.  [_RollingPlotWidget.set_history_length n] with [n > 0] gives every
    series the history length [n], keeping the last [n] rows of each, and
    does not raise.  With [n <= 0] the assertion of the first series fails
    and no series is changed; a plot without series returns normally. *)
Theorem rolling_widget_set_history_length self n :
  (0 < n →
   ∃ self', _RollingPlotWidget.set_history_length self n = (self', None) ∧
     _RollingPlotWidget.point_phase self' = _RollingPlotWidget.point_phase self ∧
     Forall2 (λ s s', has_capacity n s' ∧
                _Rolling1DSeries.values s'
                  = drop (length (_Rolling1DSeries.values s) - Z.to_nat n)
                      (_Rolling1DSeries.values s) ∧
                _Rolling1DSeries.data_name s' = _Rolling1DSeries.data_name s)
       (_RollingPlotWidget.series self) (_RollingPlotWidget.series self')) ∧
  (n ≤ 0 →
   _RollingPlotWidget.set_history_length self n
   = (self, if bool_decide (_RollingPlotWidget.series self = [])
            then None else Some (AssertionError "Invalid history length"))).
Proof.
  unfold _RollingPlotWidget.set_history_length. split.
  - intros Hn.
    assert (Hall : ∃ series',
      _RollingPlotWidget.set_history_length_all (_RollingPlotWidget.series self) n
        = (series', None) ∧
      Forall2 (λ s s', has_capacity n s' ∧
                _Rolling1DSeries.values s'
                  = drop (length (_Rolling1DSeries.values s) - Z.to_nat n)
                      (_Rolling1DSeries.values s) ∧
                _Rolling1DSeries.data_name s' = _Rolling1DSeries.data_name s)
        (_RollingPlotWidget.series self) series').
    { induction (_RollingPlotWidget.series self) as [|s series (series' & IH1 & IH2)]; simpl.
      - by exists [].
      - destruct (set_history_length_ok s n Hn) as (s' & Hs' & _ & Hv & Hname & _).
        rewrite Hs', IH1. exists (s' :: series'). split; [done|].
        constructor; [|done]. split_and!; [|done|done].
        by apply (set_history_length_capacity s n). }
    destruct Hall as (series' & -> & Hall). by eexists.
  - intros Hn. destruct self as [initialised series phase box emitted]. simpl.
    destruct series as [|s series]; [done|]. simpl.
    unfold _Rolling1DSeries.set_history_length. by rewrite decide_False by lia.
Qed.

End rolling_widget_extra.

Lemma rolling_widget_builds_series_witness :
  ∃ w, @_RollingPlotWidget.data_changed elements_order _RollingPlotWidget.__init__
         first_sample = (w, None) ∧
    _Rolling1DSeries.data_name <$> _RollingPlotWidget.series w = ["y"] ∧
    Forall (has_capacity 100) (_RollingPlotWidget.series w).
Proof.
  destruct (@rolling_widget_builds_series elements_order _RollingPlotWidget.__init__
              first_sample {["y" := channel_of "float" None]} {["y"]} ∅
              eq_refl eq_refl eq_refl eq_refl)
    as (w & e & Hdc & _ & Hnames & Hall & _); [by vm_compute|].
  exists w. split_and!; [|by rewrite Hnames|].
  - rewrite Hdc. f_equal. vm_compute in Hdc. by injection Hdc as _ <-.
  - eapply list.Forall_impl; [exact Hall|]. by intros s [? _].
Defined.

Lemma rolling_widget_set_history_length_witness :
  (∃ w, _RollingPlotWidget.set_history_length rolling_ready 5 = (w, None) ∧
        Forall (has_capacity 5) (_RollingPlotWidget.series w)) ∧
  _RollingPlotWidget.set_history_length rolling_ready 0
    = (rolling_ready, Some (AssertionError "Invalid history length")) ∧
  _RollingPlotWidget.set_history_length _RollingPlotWidget.__init__ 0
    = (_RollingPlotWidget.__init__, None).
Proof.
  split_and!.
  - destruct (rolling_widget_set_history_length rolling_ready 5) as [Hpos _].
    destruct Hpos as (w & Hw & _ & Hall); [lia|]. exists w. split; [done|].
    apply Forall_lookup. intros i s' Hs'.
    by destruct (Forall2_lookup_r _ _ _ _ _ Hall Hs') as (s & _ & ? & _).
  - destruct (rolling_widget_set_history_length rolling_ready 0) as [_ Hneg].
    by rewrite Hneg by lia.
  - destruct (rolling_widget_set_history_length _RollingPlotWidget.__init__ 0) as [_ Hneg].
    by rewrite Hneg by lia.
Defined.

(** ** The top-level widget, beyond the claims *)

Section main_widget_extra.
Context `{SetOrder}.

Lemma xy_widget_never_emits w data :
  _XYPlotWidget.error_emitted (_XYPlotWidget.data_changed w data).1
  = _XYPlotWidget.error_emitted w.
Proof.
  unfold _XYPlotWidget.data_changed.
  destruct (_XYPlotWidget.series_initialised w).
  - by destruct (dispatch_ok w data) as (w' & -> & _ & _ & _ & ? & _).
  - destruct (ndscan_channels data) as [channels|]; [|done].
    destruct (_extract_scalar_channels channels) as [[data_names error_bar_names]|[]];
      try done.
    match goal with |- context [_XYPlotWidget.dispatch ?w0 data] =>
      by destruct (dispatch_ok w0 data) as (w' & -> & _ & _ & _ & ? & _) end.
Qed.

Lemma rolling_widget_never_emits w data :
  _RollingPlotWidget.error_emitted (_RollingPlotWidget.data_changed w data).1
  = _RollingPlotWidget.error_emitted w.
Proof.
  assert (Hph : ∀ w0, _RollingPlotWidget.error_emitted
                        (_RollingPlotWidget.on_phase w0 data).1
                      = _RollingPlotWidget.error_emitted w0).
  { intros w0. destruct (_RollingPlotWidget.on_phase w0 data) as [w' e] eqn:Hw'.
    by destruct (rolling_on_phase_keeps _ _ _ _ Hw') as (_ & _ & ? & _). }
  unfold _RollingPlotWidget.data_changed.
  destruct (_RollingPlotWidget.series_initialised w); [apply Hph|].
  destruct (ndscan_channels data) as [channels|]; [|done].
  destruct (_extract_scalar_channels channels) as [[data_names error_bar_names]|[]];
    try done.
  destruct (_RollingPlotWidget.make_all _ _ _ _) as [new [e|]]; [done|].
  by rewrite Hph.
Qed.

Lemma forward_keeps self data self' e :
  _MainWidget.forward self data = (self', e) →
  _MainWidget.window_title self' = _MainWidget.window_title self ∧
  _MainWidget.title_set self' = _MainWidget.title_set self ∧
  _MainWidget.message_label self' = _MainWidget.message_label self ∧
  _MainWidget.current_widget self' = _MainWidget.current_widget self ∧
  _MainWidget.plot_initialised self' = _MainWidget.plot_initialised self.
Proof.
  unfold _MainWidget.forward. destruct (_MainWidget.plot self) as [p|].
  - destruct (_MainWidget.plot_data_changed p data). by intros [= <- <-].
  - by intros [= <- <-].
Qed.

Lemma on_axes_keeps_title self data self' e :
  _MainWidget.on_axes self data = (self', e) →
  _MainWidget.window_title self' = _MainWidget.window_title self ∧
  _MainWidget.title_set self' = _MainWidget.title_set self.
Proof.
  unfold _MainWidget.on_axes. destruct (_MainWidget.plot_initialised self).
  { intros Hf. by destruct (forward_keeps _ _ _ _ Hf) as (? & ? & _). }
  destruct (ndscan_axes data) as [[|x_schema [|x_schema' axes]]|].
  - intros Hf. by destruct (forward_keeps _ _ _ _ Hf) as (? & ? & _).
  - destruct (_XYPlotWidget.__init__ x_schema); [|by intros [= <- <-]].
    intros Hf. by destruct (forward_keeps _ _ _ _ Hf) as (? & ? & _).
  - by intros [= <- <-].
  - by intros [= <- <-].
Qed.

(** X12.  The title of the window is set once: the first non-empty
    [fragment_fqn] gives ["<fqn> – ndscan"], and no later call changes it,
    whatever [fragment_fqn] then holds. *)
Theorem main_widget_title_once self data self' e :
  _MainWidget.data_changed self data = (self', e) →
  (_MainWidget.title_set self = true →
     _MainWidget.title_set self' = true ∧
     _MainWidget.window_title self' = _MainWidget.window_title self) ∧
  (_MainWidget.title_set self = false →
     ∀ fqn, ndscan_fragment_fqn data = Some fqn → fqn ≠ "" →
       _MainWidget.title_set self' = true ∧
       _MainWidget.window_title self' = fqn +:+ " – ndscan").
Proof.
  unfold _MainWidget.data_changed. intros Hdc. split.
  - intros Hset. rewrite Hset in Hdc.
    destruct (on_axes_keeps_title _ _ _ _ Hdc) as [-> ->]. done.
  - intros Hset fqn Hfqn Hne. rewrite Hset, Hfqn in Hdc.
    apply str_truthy_true in Hne. rewrite Hne in Hdc.
    destruct (on_axes_keeps_title _ _ _ _ Hdc) as [-> ->]. done.
Qed.

(** X13.  No call of [data_changed] sends anything through the signal
    [error] of a plot, so [_show_error] never runs: a call leaves the
    message label as it was, unless it finds two or more axes and shows the
    message about unsupported scans. *)
Theorem main_widget_never_shows_error self data self' e :
  _MainWidget.data_changed self data = (self', e) →
  (∀ w, _XYPlotWidget.error_emitted (_XYPlotWidget.data_changed w data).1
        = _XYPlotWidget.error_emitted w) ∧
  (∀ w, _RollingPlotWidget.error_emitted (_RollingPlotWidget.data_changed w data).1
        = _RollingPlotWidget.error_emitted w) ∧
  (_MainWidget.message_label self' = _MainWidget.message_label self ∨
   ∃ axes, ndscan_axes data = Some axes ∧ (2 ≤ length axes)%nat ∧
     _MainWidget.plot_initialised self = false ∧
     _MainWidget.message_label self' = _MainWidget.unsupported_message (length axes)).
Proof.
  intros Hdc. split_and!; [intros w; apply xy_widget_never_emits
                          |intros w; apply rolling_widget_never_emits|].
  assert (Hax : ∀ self0, _MainWidget.on_axes self0 data = (self', e) →
    _MainWidget.message_label self' = _MainWidget.message_label self0 ∨
    ∃ axes, ndscan_axes data = Some axes ∧ (2 ≤ length axes)%nat ∧
      _MainWidget.plot_initialised self0 = false ∧
      _MainWidget.message_label self' = _MainWidget.unsupported_message (length axes)).
  { intros self0. unfold _MainWidget.on_axes.
    destruct (_MainWidget.plot_initialised self0) eqn:Hinit.
    { intros Hf. left. by destruct (forward_keeps _ _ _ _ Hf) as (_ & _ & ? & _). }
    destruct (ndscan_axes data) as [[|x_schema [|x_schema' axes]]|] eqn:Haxes.
    - intros Hf. left. by destruct (forward_keeps _ _ _ _ Hf) as (_ & _ & ? & _).
    - destruct (_XYPlotWidget.__init__ x_schema); [|intros [= <- <-]; by left].
      intros Hf. left. by destruct (forward_keeps _ _ _ _ Hf) as (_ & _ & ? & _).
    - intros [= <- <-]. right. eexists. split_and!; [done|simpl; lia|done|done].
    - intros [= <- <-]. by left. }
  revert Hdc. unfold _MainWidget.data_changed.
  destruct (_MainWidget.title_set self); [apply Hax|].
  destruct (ndscan_fragment_fqn data) as [fqn|]; [|intros [= <- <-]; by left].
  destruct (str_truthy fqn); [|intros [= <- <-]; by left].
  intros Hdc. by destruct (Hax _ Hdc) as [?|?]; [left|right].
Qed.

(** X14.  The message about unsupported scans does not end the set-up:
    [axes] is read again on the next call, and an empty [axes] then makes
    the widget build and show the rolling plot. *)
Theorem main_widget_unsupported_not_final self data1 data2 axes1 :
  _MainWidget.title_set self = true →
  _MainWidget.plot_initialised self = false →
  ndscan_axes data1 = Some axes1 → (2 ≤ length axes1)%nat →
  ndscan_axes data2 = Some [] →
  ∃ self1, _MainWidget.data_changed self data1 = (self1, None) ∧
    _MainWidget.current_widget self1 = _MainWidget.MessageLabel ∧
    _MainWidget.plot_initialised self1 = false ∧
    ∃ self2 e w, _MainWidget.data_changed self1 data2 = (self2, e) ∧
      _MainWidget.plot self2 = Some (_MainWidget.RollingPlot w) ∧
      _MainWidget.plot_initialised self2 = true ∧
      _MainWidget.current_widget self2 = _MainWidget.Plot.
Proof.
  intros Htitle Hinit Hax1 Hlen Hax2.
  unfold _MainWidget.data_changed at 1. unfold _MainWidget.on_axes.
  rewrite Htitle, Hinit, Hax1.
  destruct axes1 as [|a [|b axes1]]; [simpl in Hlen; lia|simpl in Hlen; lia|].
  eexists. split; [reflexivity|]. simpl. split_and!; [done|done|].
  unfold _MainWidget.data_changed, _MainWidget.on_axes. simpl.
  rewrite Htitle, Hinit, Hax2. unfold _MainWidget.forward. simpl.
  destruct (_RollingPlotWidget.data_changed _RollingPlotWidget.__init__ data2) as [w e].
  by eexists _, e, w.
Qed.

End main_widget_extra.

Lemma main_widget_title_once_witness :
  ∃ self1 self2,
    @_MainWidget.data_changed elements_order (_MainWidget.__init__ "1")
       (with_schema no_data "fragment" [axis_of 1; axis_of 1] ∅) = (self1, None) ∧
    _MainWidget.window_title self1 = "fragment – ndscan" ∧
    @_MainWidget.data_changed elements_order self1
       (with_schema no_data "other" [axis_of 1; axis_of 1] ∅) = (self2, None) ∧
    _MainWidget.window_title self2 = "fragment – ndscan".
Proof.
  destruct (@_MainWidget.data_changed elements_order (_MainWidget.__init__ "1")
              (with_schema no_data "fragment" [axis_of 1; axis_of 1] ∅))
    as [self1 e1] eqn:H1.
  destruct (@_MainWidget.data_changed elements_order self1
              (with_schema no_data "other" [axis_of 1; axis_of 1] ∅))
    as [self2 e2] eqn:H2.
  destruct (@main_widget_title_once elements_order _ _ _ _ H1) as [_ Hfirst].
  destruct (Hfirst eq_refl "fragment" eq_refl) as [Hset1 Ht1]; [done|].
  destruct (@main_widget_title_once elements_order _ _ _ _ H2) as [Hlater _].
  destruct (Hlater Hset1) as [_ Ht2].
  exists self1, self2. split_and!; [|by rewrite Ht1| |by rewrite Ht2, Ht1].
  - f_equal. vm_compute in H1. by injection H1 as _ <-.
  - rewrite H2. f_equal. vm_compute in H1. injection H1 as <- _. vm_compute in H2.
    by injection H2 as _ <-.
Defined.

Lemma main_widget_never_shows_error_witness :
  ∃ self' e,
    @_MainWidget.data_changed elements_order (_MainWidget.__init__ "1")
       (with_schema no_data "fragment" [] conflict_channels) = (self', e) ∧
    _MainWidget.message_label self' = "Waiting for ndscan metadata for rid 1…".
Proof.
  destruct (@_MainWidget.data_changed elements_order (_MainWidget.__init__ "1")
              (with_schema no_data "fragment" [] conflict_channels)) as [self' e] eqn:Hdc.
  exists self', e. split; [done|].
  destruct (@main_widget_never_shows_error elements_order _ _ _ _ Hdc)
    as (_ & _ & [->|(axes & [= <-] & Hlen & _)]); [done|simpl in Hlen; lia].
Defined.

Lemma main_widget_unsupported_not_final_witness :
  ∃ self1 self2 e w,
    @_MainWidget.data_changed elements_order
       (_MainWidget.set_title (_MainWidget.__init__ "1") "fragment")
       (with_schema no_data "fragment" [axis_of 1; axis_of 1] ∅) = (self1, None) ∧
    @_MainWidget.data_changed elements_order self1
       (with_schema no_data "fragment" [] ∅) = (self2, e) ∧
    _MainWidget.plot self2 = Some (_MainWidget.RollingPlot w).
Proof.
  destruct (@main_widget_unsupported_not_final elements_order
              (_MainWidget.set_title (_MainWidget.__init__ "1") "fragment")
              (with_schema no_data "fragment" [axis_of 1; axis_of 1] ∅)
              (with_schema no_data "fragment" [] ∅) [axis_of 1; axis_of 1]
              eq_refl eq_refl eq_refl)
    as (self1 & H1 & _ & _ & self2 & e & w & H2 & Hp & _); [simpl; lia|done|].
  by exists self1, self2, e, w.
Defined.

(** ** [ndscan/utils.py] *)

Section utils_strings.
Import utils.

Lemma string_length_app (s t : string) :
  String.length (s +:+ t) = (String.length s + String.length t)%nat.
Proof. induction s as [|c s IH]; simpl; [done|]. by rewrite IH. Qed.

Lemma substring_all (s : string) : String.substring 0 (String.length s) s = s.
Proof. induction s as [|c s IH]; simpl; [done|]. by rewrite IH. Qed.

Lemma substring_app_r (p s : string) :
  String.substring (String.length p) (String.length s) (p +:+ s) = s.
Proof. induction p as [|c p IH]; simpl; [apply substring_all|done]. Qed.

Lemma substring_app_l (p s : string) :
  String.substring 0 (String.length p) (p +:+ s) = p.
Proof.
  induction p as [|c p IH]; simpl; [by destruct s|]. by rewrite IH.
Qed.

Lemma substring_split (k : nat) (s : string) :
  (k ≤ String.length s)%nat →
  s = String.substring 0 k s +:+ String.substring k (String.length s - k) s.
Proof.
  revert k. induction s as [|c s IH]; intros k Hk; simpl in *.
  - by destruct k.
  - destruct k as [|k]; simpl.
    + by rewrite substring_all.
    + change (String c s = String c (String.substring 0 k s +:+
                 String.substring k (String.length s - k) s)).
      f_equal. apply IH. lia.
Qed.

Lemma substring_empty (s : string) : ∀ n, String.substring n 0 s = "".
Proof.
  induction s as [|c s IH]; intros [|n]; cbn; done.
Qed.

Lemma startswith_app (p s : string) : startswith (p +:+ s) p = true.
Proof. unfold startswith. apply String.prefix_correct, substring_app_l. Qed.

Lemma startswith_true (s p : string) :
  startswith s p = true → ∃ r, s = p +:+ r.
Proof.
  unfold startswith. revert s. induction p as [|c p IH]; intros s; simpl.
  - intros _. by exists s.
  - destruct s as [|d s]; [done|]. cbn.
    destruct (Ascii.ascii_dec c d) as [->|]; [|done].
    intros [r ->]%IH. by exists r.
Qed.

(** X15.  [strip_prefix] removes [prefix] from a string that starts with
    it, so that [prefix + strip_prefix(s, prefix) == s], and returns any
    other string as it is. *)
Theorem strip_prefix_spec (s prefix : string) :
  (∀ r, s = prefix +:+ r → strip_prefix s prefix = r) ∧
  ((¬ ∃ r, s = prefix +:+ r) → strip_prefix s prefix = s).
Proof.
  unfold strip_prefix. split.
  - intros r ->. rewrite startswith_app. unfold slice_from.
    rewrite string_length_app.
    replace (String.length prefix + String.length r - String.length prefix)%nat
      with (String.length r) by lia.
    apply substring_app_r.
  - intros Hno. destruct (startswith s prefix) eqn:Hst; [|done].
    destruct Hno. by apply startswith_true.
Qed.

Lemma endswith_app (p x : string) : endswith (p +:+ x) x = true.
Proof.
  unfold endswith. rewrite string_length_app.
  apply andb_true_intro. split; [apply Nat.leb_le; lia|].
  replace (String.length p + String.length x - String.length x)%nat
    with (String.length p) by lia.
  apply String.eqb_eq, substring_app_r.
Qed.

Lemma endswith_true (s x : string) :
  endswith s x = true →
  s = String.substring 0 (String.length s - String.length x) s +:+ x.
Proof.
  unfold endswith. intros [Hle Heq]%andb_prop.
  apply Nat.leb_le in Hle. apply String.eqb_eq in Heq.
  rewrite (substring_split (String.length s - String.length x) s) at 1 by lia.
  f_equal. rewrite <-Heq at 3. f_equal. lia.
Qed.

(** X16.  [strip_suffix] removes a non-empty [suffix] from a string that
    ends with it and returns any other string as it is; with the empty
    suffix it returns the empty string, whatever the string, because
    [string[:-0]] is empty. *)
Theorem strip_suffix_spec (s suffix : string) :
  (suffix ≠ "" → ∀ p, s = p +:+ suffix → strip_suffix s suffix = p) ∧
  ((¬ ∃ p, s = p +:+ suffix) → strip_suffix s suffix = s) ∧
  strip_suffix s "" = "".
Proof.
  unfold strip_suffix. split_and!.
  - intros Hne p ->. rewrite endswith_app. unfold slice_to_minus.
    rewrite decide_False by (by destruct suffix).
    rewrite string_length_app.
    replace (String.length p + String.length suffix - String.length suffix)%nat
      with (String.length p) by lia.
    apply substring_app_l.
  - intros Hno. destruct (endswith s suffix) eqn:Hend; [|done].
    destruct Hno. eexists. by apply endswith_true.
  - assert (Hend : endswith s "" = true).
    { unfold endswith. cbn. by rewrite substring_empty. }
    by rewrite Hend.
Qed.

End utils_strings.

Lemma strip_prefix_spec_witness :
  utils.strip_prefix "ndscan.points" "ndscan." = "points" ∧
  utils.strip_prefix "points" "ndscan." = "points".
Proof.
  destruct (strip_prefix_spec "ndscan.points" "ndscan.") as [Hstrip _].
  destruct (strip_prefix_spec "points" "ndscan.") as [_ Hkeep].
  split; [by apply Hstrip|]. apply Hkeep. by intros [r [=]].
Defined.

Lemma strip_suffix_spec_witness :
  utils.strip_suffix "axis_0" "_0" = "axis" ∧
  utils.strip_suffix "axis_0" "_1" = "axis_0" ∧
  utils.strip_suffix "axis_0" "" = "".
Proof.
  destruct (strip_suffix_spec "axis_0" "_0") as (Hstrip & _ & Hempty).
  destruct (strip_suffix_spec "axis_0" "_1") as (_ & Hkeep & _).
  split_and!; [by apply Hstrip| |done].
  apply Hkeep. intros [p Hp].
  assert (Hend : utils.endswith "axis_0" "_1" = true) by (rewrite Hp; apply endswith_app).
  by vm_compute in Hend.
Defined.

Section utils_shorten.
Import utils.
Context `{SetOrder} (g : string → nat → string).

Lemma find_holder_Some shortened candidate olds old :
  find_holder shortened candidate olds = Ok (Some old) →
  shortened !! old = Some candidate.
Proof.
  induction olds as [|o olds IH]; simpl; [done|].
  destruct (shortened !! o) as [short|] eqn:Ho; [|done].
  destruct (decide (short = candidate)) as [->|]; [|done].
  by intros [= <-].
Qed.

Lemma resolve_conflict_keeps current candidate n existing st st' :
  (1 ≤ n)%nat → all_suffixes g st →
  resolve_conflict g current candidate n existing st = Ok st' →
  all_suffixes g st' ∧ dom (shortened_fqns st') = dom (shortened_fqns st).
Proof.
  intros Hn Hall. unfold resolve_conflict.
  destruct (find_holder (shortened_fqns st) candidate (set_iter existing))
    as [[old|]|e] eqn:Hfind; simpl; [| |done].
  - apply find_holder_Some in Hfind.
    assert (Hst' : shortened_fqns st' = <[old := g old (n + 1)]> (shortened_fqns st) →
      all_suffixes g st' ∧ dom (shortened_fqns st') = dom (shortened_fqns st)).
    { intros Heq. unfold all_suffixes. rewrite Heq. split.
      - intros f s. rewrite lookup_insert. case_decide as Hf.
        + subst f. intros [= <-]. exists (n + 1)%nat. split; [lia|done].
        + apply Hall.
      - rewrite dom_insert_L. apply (elem_of_dom_2 (D := gset string)) in Hfind.
        apply set_eq. intros f. rewrite elem_of_union, elem_of_singleton.
        split; [intros [->|?]; done|by right]. }
    case_decide; intros [= <-]; by apply Hst'.
  - by intros [= <-].
Qed.

Lemma shorten_one_keeps fuel : ∀ current n st st',
  (1 ≤ n)%nat → all_suffixes g st →
  shorten_one fuel g current n st = Some (Ok st') →
  all_suffixes g st' ∧
  dom (shortened_fqns st') = dom (shortened_fqns st) ∪ {[current]}.
Proof.
  induction fuel as [|fuel IH]; intros current n st st' Hn Hall; simpl; [done|].
  destruct (short_to_fqns st !! g current n) as [existing|].
  - destruct (resolve_conflict g current (g current n) n existing st) as [st1|e] eqn:Hres;
      [|done].
    destruct (resolve_conflict_keeps _ _ _ _ _ _ Hn Hall Hres) as [Hall1 Hdom1].
    intros Hrec. destruct (IH current (n + 1)%nat st1 st') as [Hall' Hdom']; [lia|done|done|].
    split; [done|]. by rewrite Hdom', Hdom1.
  - intros [= <-]. split.
    + intros f s. cbn [shortened_fqns]. rewrite lookup_insert. case_decide as Hf.
      * subst f. intros [= <-]. by exists n.
      * apply Hall.
    + cbn [shortened_fqns]. rewrite dom_insert_L. apply set_eq. intros f.
      rewrite !elem_of_union, elem_of_singleton. tauto.
Qed.

Lemma shorten_all_keeps fuel fqns : ∀ st st',
  all_suffixes g st →
  shorten_all fuel g fqns st = Some (Ok st') →
  all_suffixes g st' ∧
  dom (shortened_fqns st') = dom (shortened_fqns st) ∪ list_to_set fqns.
Proof.
  induction fqns as [|current fqns IH]; intros st st' Hall; simpl.
  - intros [= <-]. split; [done|]. apply set_eq. intros f.
    rewrite elem_of_union, elem_of_empty. tauto.
  - destruct (decide (is_Some (shortened_fqns st !! current))) as [Hin|Hnew].
    + intros Hrec. destruct (IH st st' Hall Hrec) as [Hall' Hdom']. split; [done|].
      rewrite Hdom'. apply (elem_of_dom (D := gset string)) in Hin.
      apply set_eq. intros f. rewrite !elem_of_union, elem_of_singleton.
      split; [tauto|]. intros [?|[->|?]]; tauto.
    + destruct (shorten_one fuel g current 1 st) as [[st1|e]|] eqn:Hone; [|done|done].
      destruct (shorten_one_keeps _ _ _ _ _ (le_n 1) Hall Hone) as [Hall1 Hdom1].
      intros Hrec. destruct (IH st1 st' Hall1 Hrec) as [Hall' Hdom']. split; [done|].
      rewrite Hdom', Hdom1. apply set_eq. intros f.
      rewrite !elem_of_union, elem_of_singleton. tauto.
Qed.

(** X17.  When [shorten_to_unambiguous_suffixes] returns, its result has
    an entry for every name given and for no other, and the entry of a
    name is what the callback gives for that name and some [n >= 1]. *)
Theorem shorten_result_shape fuel fqns m :
  shorten_to_unambiguous_suffixes fuel fqns g = Some (Ok m) →
  dom m = list_to_set fqns ∧
  ∀ f s, m !! f = Some s → ∃ n, (1 ≤ n)%nat ∧ s = g f n.
Proof.
  unfold shorten_to_unambiguous_suffixes.
  destruct (shorten_all fuel g fqns _) as [[st|e]|] eqn:Hall; [|done|done].
  assert (all_suffixes g {| short_to_fqns := ∅; shortened_fqns := ∅ |}) as H0.
  { intros f s. cbn [shortened_fqns]. by rewrite lookup_empty. }
  intros [= <-]. destruct (shorten_all_keeps _ _ _ _ H0 Hall) as [Hsuf Hdom].
  split; [|done]. rewrite Hdom. cbn [shortened_fqns]. rewrite dom_empty_L.
  apply set_eq. intros f. rewrite elem_of_union, elem_of_empty. tauto.
Qed.


(** *** Names whose last parts differ *)

Lemma shorten_all_first (P : string → Prop) fuel :
  (∀ f1 f2, P f1 → P f2 → g f1 1%nat = g f2 1%nat → f1 = f2) →
  ∀ fqns st, Forall P fqns → first_suffixes g P st →
    ∃ st', shorten_all (S fuel) g fqns st = Some (Ok st') ∧ first_suffixes g P st'.
Proof.
  intros Hinj. induction fqns as [|current fqns IH]; intros st HP [Hval Hkey].
  - by exists st.
  - apply list.Forall_cons in HP as [Hcur HP]. cbn [shorten_all].
    destruct (decide (is_Some (shortened_fqns st !! current))) as [Hin|Hnew].
    + by apply IH.
    + cbn [shorten_one].
      destruct (short_to_fqns st !! g current 1%nat) as [existing|] eqn:Hshort.
      * destruct (Hkey (g current 1%nat)) as (f & Hf & Heq); [by rewrite Hshort|].
        destruct Hf as [s Hs]. destruct (Hval _ _ Hs) as [HPf _].
        rewrite (Hinj current f Hcur HPf Heq) in Hnew. by rewrite Hs in Hnew; destruct Hnew.
      * apply IH; [done|]. split; cbn [shortened_fqns short_to_fqns].
        -- intros f s. rewrite lookup_insert. case_decide as Hf; [|apply Hval].
           subst f. by intros [= <-].
        -- intros c. rewrite lookup_insert. case_decide as Hc.
           ++ intros _. exists current. by rewrite lookup_insert_eq.
           ++ intros Hsome. destruct (Hkey c Hsome) as (f & Hf & Heq). exists f.
              split; [|done]. rewrite lookup_insert. by case_decide.
Qed.

(** X18.  When no two of the names given have the same last part, every
    name is shortened to its last part; one round of the loop per name is
    enough. *)
Theorem shorten_distinct_last_parts fuel fqns :
  (∀ f1 f2, f1 ∈ fqns → f2 ∈ fqns → g f1 1%nat = g f2 1%nat → f1 = f2) →
  ∃ m, shorten_to_unambiguous_suffixes (S fuel) fqns g = Some (Ok m) ∧
    dom m = list_to_set fqns ∧
    ∀ f, f ∈ fqns → m !! f = Some (g f 1%nat).
Proof.
  intros Hinj. unfold shorten_to_unambiguous_suffixes.
  set (st0 := {| short_to_fqns := ∅; shortened_fqns := ∅ |}).
  assert (first_suffixes g (λ f, f ∈ fqns) st0) as H0.
  { split; cbn [st0 shortened_fqns short_to_fqns].
    - intros f s. by rewrite lookup_empty.
    - intros c. rewrite lookup_empty. by intros [? [=]]. }
  assert (all_suffixes g st0) as H1.
  { intros f s. cbn [st0 shortened_fqns]. by rewrite lookup_empty. }
  destruct (shorten_all_first (λ f, f ∈ fqns) fuel Hinj fqns st0) as (st' & Hrun & Hval & _);
    [by apply list.Forall_forall|done|].
  destruct (shorten_all_keeps _ _ _ _ H1 Hrun) as [_ Hdom].
  rewrite Hrun. exists (shortened_fqns st'). split; [done|].
  assert (dom (shortened_fqns st') = list_to_set fqns) as Hdom'.
  { rewrite Hdom. cbn [st0 shortened_fqns]. rewrite dom_empty_L.
    apply set_eq. intros f. rewrite elem_of_union, elem_of_empty. tauto. }
  split; [done|]. intros f Hf.
  assert (f ∈ dom (shortened_fqns st')) as Hin by (rewrite Hdom'; by apply elem_of_list_to_set).
  apply (elem_of_dom (D := gset string)) in Hin as [s Hs].
  destruct (Hval _ _ Hs) as [_ ->]. done.
Qed.


(** *** Two names with the same last part *)

Ltac shorten_step :=
  cbn [shorten_all shorten_one shortened_fqns short_to_fqns find_holder
       mbind result_bind Nat.add].

(** The inner loop meets a name that [shortened_fqns] does not have yet:
    the one being shortened, which an earlier round added to the set. *)
Lemma find_holder_missing shortened candidate olds b :
  b ∈ olds → shortened !! b = None →
  (∀ old, old ∈ olds → old ≠ b →
     ∃ s, shortened !! old = Some s ∧ s ≠ candidate) →
  find_holder shortened candidate olds = Raise (KeyError b).
Proof.
  induction olds as [|o olds IH]; intros Hb Hnone Hrest; [by apply elem_of_nil in Hb|].
  cbn [find_holder]. destruct (decide (o = b)) as [->|Hne].
  - by rewrite Hnone.
  - destruct (Hrest o) as (s & -> & Hs); [left|done|]. rewrite decide_False by done.
    apply IH; [|done|].
    + apply elem_of_cons in Hb as [->|Hb]; done.
    + intros old Hold. apply Hrest. by right.
Qed.

(** X19.  Two different names with the same last part, whose suffixes for
    [n = 2] differ from each other and, for the second name, from the
    last part: each gets its suffix for [n = 2]. *)
Theorem shorten_pair_conflict fuel a b :
  a ≠ b → g a 1%nat = g b 1%nat →
  g b 2%nat ≠ g b 1%nat → g b 2%nat ≠ g a 2%nat →
  shorten_to_unambiguous_suffixes (S (S fuel)) [a; b] g
  = Some (Ok (<[b := g b 2%nat]> {[a := g a 2%nat]})).
Proof.
  intros Hab H1 Hb2 Hb2a. unfold shorten_to_unambiguous_suffixes.
  shorten_step. rewrite lookup_empty. rewrite decide_False by (by intros [? [=]]).
  shorten_step. rewrite lookup_empty. shorten_step.
  rewrite lookup_insert_ne by done. rewrite lookup_empty.
  rewrite decide_False by (by intros [? [=]]). shorten_step.
  rewrite <- H1, lookup_insert_eq. shorten_step.
  unfold resolve_conflict. rewrite set_iter_singleton. shorten_step.
  rewrite lookup_insert_eq. rewrite decide_True by done. shorten_step.
  rewrite insert_insert_eq.
  destruct (decide (g a 2%nat = g a 1%nat)) as [Ha2|Ha2]; shorten_step.
  - rewrite Ha2, insert_insert_eq. rewrite lookup_insert_ne by congruence.
    rewrite lookup_empty. shorten_step. by rewrite insert_empty.
  - rewrite lookup_insert_ne by congruence. rewrite lookup_insert_ne by congruence.
    rewrite lookup_insert_ne by congruence. rewrite lookup_empty.
    shorten_step. by rewrite insert_empty.
Qed.

(** X20.  A name whose suffix for [n = 2] is still its last part (it has a
    single part), given after a longer name with that last part: the
    second round looks the name itself up in [shortened_fqns], which does
    not have it yet, and the call raises [KeyError], whatever the order in
    which the set is iterated. *)
Theorem shorten_short_name_after_long fuel a b :
  a ≠ b → g a 1%nat = g b 1%nat →
  g b 2%nat = g b 1%nat → g a 2%nat ≠ g a 1%nat →
  shorten_to_unambiguous_suffixes (S (S fuel)) [a; b] g = Some (Raise (KeyError b)).
Proof.
  intros Hab H1 Hb2 Ha2. unfold shorten_to_unambiguous_suffixes.
  shorten_step. rewrite lookup_empty. rewrite decide_False by (by intros [? [=]]).
  shorten_step. rewrite lookup_empty. shorten_step.
  rewrite lookup_insert_ne by done. rewrite lookup_empty.
  rewrite decide_False by (by intros [? [=]]). shorten_step.
  rewrite <- H1, lookup_insert_eq. shorten_step.
  unfold resolve_conflict at 1. rewrite set_iter_singleton. shorten_step.
  rewrite lookup_insert_eq. rewrite decide_True by done. shorten_step.
  rewrite decide_False by done. shorten_step.
  rewrite Hb2, <- H1, lookup_insert_eq. unfold resolve_conflict. shorten_step.
  rewrite (find_holder_missing _ _ _ b); [done| | |].
  - apply set_iter_elem_of, elem_of_union_r. by apply elem_of_singleton.
  - rewrite !lookup_insert_ne by done. apply lookup_empty.
  - intros old Hold Hne. apply set_iter_elem_of in Hold.
    apply elem_of_union in Hold as [Hold|Hold]; apply elem_of_singleton in Hold; [|done].
    subst old. exists (g a 2%nat). by rewrite lookup_insert_eq.
Qed.

End utils_shorten.

Lemma shorten_result_shape_witness :
  dom ({["a.x" := "a.x"; "b.x" := "b.x"]} : gmap string string)
    = list_to_set ["a.x"; "b.x"] ∧
  ∀ f s, ({["a.x" := "a.x"; "b.x" := "b.x"]} : gmap string string) !! f = Some s →
    ∃ n, (1 ≤ n)%nat ∧ s = last_parts f n.
Proof.
  apply (shorten_result_shape (H := elements_order) last_parts 3 ["a.x"; "b.x"]).
  by vm_compute.
Defined.

Lemma shorten_distinct_last_parts_witness :
  ∃ m, utils.shorten_to_unambiguous_suffixes (H := elements_order) 1
         ["a.x"; "c.y"; "a.x"] last_parts = Some (Ok m) ∧
    dom m = list_to_set ["a.x"; "c.y"; "a.x"] ∧
    ∀ f, f ∈ ["a.x"; "c.y"; "a.x"] → m !! f = Some (last_parts f 1%nat).
Proof.
  apply (shorten_distinct_last_parts (H := elements_order) last_parts 0
           ["a.x"; "c.y"; "a.x"]).
  intros f1 f2 Hf1 Hf2.
  repeat (apply elem_of_cons in Hf1 as [->|Hf1]); [| | |by apply elem_of_nil in Hf1];
    repeat (apply elem_of_cons in Hf2 as [->|Hf2]);
    try (by apply elem_of_nil in Hf2); by vm_compute.
Defined.

Lemma shorten_pair_conflict_witness :
  utils.shorten_to_unambiguous_suffixes (H := reverse_order) 2 ["x"; "a.x"] last_parts
  = Some (Ok (<["a.x" := "a.x"]> {["x" := "x"]})).
Proof.
  by apply (shorten_pair_conflict (H := reverse_order) last_parts 0 "x" "a.x").
Defined.

Lemma shorten_short_name_after_long_witness :
  utils.shorten_to_unambiguous_suffixes (H := reverse_order) 2 ["a.x"; "x"] last_parts
  = Some (Raise (KeyError "x")).
Proof.
  by apply (shorten_short_name_after_long (H := reverse_order) last_parts 0 "a.x" "x").
Defined.

(** ** The context menu builder of [plots/plot_widgets.py] *)

Section menu_builder.
Import ContextMenuBuilder.

Lemma ensure_separator_entries self :
  ensure_separator self =
    if _last_was_no_separator self
    then {| _last_was_no_separator := false; _entries := _entries self ++ [separator] |}
    else self.
Proof.
  unfold ensure_separator. destruct (_last_was_no_separator self); [|done].
  f_equal. cbn [append_action _append _entries].
  rewrite length_app. cbn [length]. replace (length (_entries self) + 1 - 1)%nat
    with (length (_entries self) + 0)%nat by lia.
  by rewrite alter_app_r.
Qed.

Lemma run_calls_snoc self calls c :
  run_calls self (calls ++ [c]) = run_call (run_calls self calls) c.
Proof. unfold run_calls. by rewrite foldl_app. Qed.

(** What the flag records: the list is not empty and does not end in a
    separator. *)
Lemma run_calls_flag calls :
  let b := run_calls __init__ calls in
  _last_was_no_separator b = true ↔
  ∃ a, list.last (_entries b) = Some a ∧ isSeparator a = false.
Proof.
  induction calls as [|c calls IH] using rev_ind.
  - cbn. split; [done|]. by intros (a & [=] & _).
  - rewrite run_calls_snoc. cbn zeta in *. destruct c; cbn [run_call].
    + cbn. split; [|done]. intros _. rewrite last_snoc. by eexists.
    + cbn. split; [|done]. intros _. rewrite last_snoc. by eexists.
    + rewrite ensure_separator_entries.
      destruct (_last_was_no_separator (run_calls __init__ calls)) eqn:Hflag;
        [|by rewrite <- IH, Hflag].
      cbn. split; [done|]. rewrite last_snoc. by intros (a & [= <-] & Ha).
Qed.

(** X21.  Whatever the calls made on a new builder, the list it returns
    does not begin with a separator and has no two separators in a row. *)
Theorem menu_builder_separators calls :
  let entries := finish (run_calls __init__ calls) in
  (∀ a, head entries = Some a → isSeparator a = false) ∧
  (∀ i a a', entries !! i = Some a → entries !! S i = Some a' →
     isSeparator a = true → isSeparator a' = false).
Proof.
  cbn zeta. unfold finish. induction calls as [|c calls IH] using rev_ind.
  - by cbn.
  - destruct IH as [IHhead IHadj]. pose proof (run_calls_flag calls) as Hflag.
    cbn zeta in Hflag. rewrite run_calls_snoc.
    set (b := run_calls __init__ calls) in *.
    assert (Hsnoc : ∀ x, (_last_was_no_separator b = false → isSeparator x = false) →
      (∀ a, head (_entries b ++ [x]) = Some a → isSeparator a = false) ∧
      (∀ i a a', (_entries b ++ [x]) !! i = Some a → (_entries b ++ [x]) !! S i = Some a' →
         isSeparator a = true → isSeparator a' = false)).
    { intros x Hx. split.
      - intros a. destruct (_entries b) as [|a0 l] eqn:Hl.
        + cbn. intros [= <-]. apply Hx. destruct (_last_was_no_separator b); [|done].
          destruct (proj1 Hflag eq_refl) as (? & [=] & _).
        + cbn. intros [= <-]. by apply IHhead.
      - intros i a a' Hi Hi' Ha.
        destruct (decide (S i < length (_entries b))%nat) as [Hlt|Hge].
        + rewrite lookup_app_l in Hi by lia. rewrite lookup_app_l in Hi' by lia.
          by apply (IHadj i a a').
        + assert (S i = length (_entries b)) as Hlen.
          { apply lookup_lt_Some in Hi'. rewrite length_app in Hi'. cbn in Hi'. lia. }
          rewrite lookup_app_l in Hi by lia.
          rewrite lookup_app_r in Hi' by lia.
          replace (S i - length (_entries b))%nat with 0%nat in Hi' by lia.
          cbn in Hi'. injection Hi' as <-. apply Hx.
          destruct (_last_was_no_separator b); [|done].
          destruct (proj1 Hflag eq_refl) as (a0 & Hlast & Ha0).
          rewrite last_lookup in Hlast. replace (pred (length (_entries b))) with i in Hlast by lia.
          congruence. }
    destruct c; cbn [run_call].
    + by apply Hsnoc.
    + by apply Hsnoc.
    + rewrite ensure_separator_entries.
      destruct (_last_was_no_separator b) eqn:Hb; [|done].
      cbn [_entries]. apply Hsnoc. by intros [=].
Qed.

(** X22.  The builder drops and reorders nothing: the entries of the
    returned list that are no separators are the actions appended, in the
    order of the calls. *)
Theorem menu_builder_keeps_actions calls :
  filter (λ a, isSeparator a = false) (finish (run_calls __init__ calls))
  = omap call_action calls.
Proof.
  unfold finish. induction calls as [|c calls IH] using rev_ind; [done|].
  rewrite run_calls_snoc, omap_app. destruct c; cbn [run_call].
  - cbn. rewrite list.filter_app, IH. done.
  - cbn. rewrite list.filter_app, IH. done.
  - rewrite ensure_separator_entries.
    destruct (_last_was_no_separator (run_calls __init__ calls)).
    + cbn [_entries]. by rewrite list.filter_app, IH.
    + rewrite IH. symmetry. apply app_nil_r.
Qed.

Lemma append_actions_entries (f : string → string) names b :
  foldl (λ b name, append_action b (f name)) b names =
  match names with
  | [] => b
  | _ => {| _last_was_no_separator := true;
            _entries := _entries b ++
              ((λ name, {| action_class_of := QAction; text := f name;
                           isSeparator := false |}) <$> names) |}
  end.
Proof.
  revert b. induction names as [|name names IH]; intros b; [done|].
  cbn [foldl]. rewrite IH. destruct names as [|name' names]; [done|].
  cbn. by rewrite <- !app_assoc.
Qed.

Lemma fmap_action_titles (f : string → string) (names : list string) :
  (λ title, {| action_class_of := QAction; text := title; isSeparator := false |})
    <$> (f <$> names)
  = (λ name, {| action_class_of := QAction; text := f name; isSeparator := false |})
    <$> names.
Proof. by rewrite <- list_fmap_compose. Qed.

(** A group of entries appended to a builder whose flag is down, and the
    separator that is then asked for. *)
Lemma append_group (f : string → string) names b :
  _last_was_no_separator b = false →
  ensure_separator (foldl (λ b name, append_action b (f name)) b names)
  = {| _last_was_no_separator := false;
       _entries := _entries b ++ menu_group (f <$> names) |}.
Proof.
  intros Hb. rewrite append_actions_entries, ensure_separator_entries.
  destruct names as [|name names].
  - rewrite Hb. cbn. rewrite app_nil_r. destruct b. cbn in *. by subst.
  - cbn [_last_was_no_separator _entries]. f_equal.
    unfold menu_group. rewrite fmap_action_titles. cbn [fmap list_fmap].
    by rewrite <- app_assoc.
Qed.

End menu_builder.

(** X23.  The context menu of a [SubplotMenuPlotWidget]: one entry per
    subscan and a separator after them, if there is a subscan; then one
    entry per alternate plot and a separator after them, if there are at
    least two alternate plots. *)
Theorem subplot_menu_entries subscan_names alternate_plot_names :
  ContextMenuPlotWidget._get_context_menus
    (SubplotMenuPlotWidget.build_context_menu subscan_names alternate_plot_names)
  = menu_group ((λ name, "Open subscan '" +:+ name +:+ "'") <$> subscan_names) ++
    (if decide (1 < length alternate_plot_names)%nat
     then menu_group ((λ name, "Show " +:+ name) <$> alternate_plot_names)
     else []).
Proof.
  unfold ContextMenuPlotWidget._get_context_menus, SubplotMenuPlotWidget.build_context_menu,
    AlternateMenuPlotWidget.build_context_menu, ContextMenuBuilder.finish.
  rewrite (append_group (λ name, "Open subscan '" +:+ name +:+ "'")) by done.
  destruct (decide (1 < length alternate_plot_names)%nat).
  - by rewrite (append_group (λ name, "Show " +:+ name)).
  - rewrite ensure_separator_entries. cbn. by rewrite app_nil_r.
Qed.

(** ** The subplot windows of [SubplotMenuPlotWidget] *)

Section subplot_windows.
Import SubplotMenuPlotWidget.

(** X24.  [open_subplot] makes at most one window per subscan.  A call
    that returns leaves the window of [name] shown and the other windows
    as they were; it makes a new window only if [name] had none; and a
    second call for [name] changes nothing, also after the windows were
    hidden in between, when it shows the same window again.  A call
    raises [KeyError] exactly for a name that has neither a window nor a
    subscan root. *)
Theorem open_subplot_once self name :
  (∀ self', open_subplot self name = Ok self' →
     (∃ w, subplot_widgets self' !! name = Some w ∧ visible w = true ∧
        (∀ w0, subplot_widgets self !! name = Some w0 →
           window_id w = window_id w0 ∧ window_root w = window_root w0)) ∧
     (∀ other, other ≠ name →
        subplot_widgets self' !! other = subplot_widgets self !! other) ∧
     windows_created self' =
       match subplot_widgets self !! name with
       | Some _ => windows_created self
       | None => S (windows_created self)
       end ∧
     open_subplot self' name = Ok self' ∧
     (∃ self'', open_subplot (hideEvent self') name = Ok self'' ∧
        subplot_widgets self'' !! name = subplot_widgets self' !! name ∧
        windows_created self'' = windows_created self')) ∧
  ((∃ e, open_subplot self name = Raise e) ↔
     subplot_widgets self !! name = None ∧ subscan_roots self !! name = None) ∧
  (∀ e, open_subplot self name = Raise e → e = KeyError name).
Proof.
  unfold open_subplot. split_and!.
  - intros self'. destruct (subplot_widgets self !! name) as [w0|] eqn:Hw.
    + intros [= <-]. cbn [subplot_widgets windows_created subscan_roots].
      split_and!.
      * exists (show w0). rewrite lookup_insert_eq. split_and!; [done|done|].
        by intros ? [= <-].
      * intros other Hne. by rewrite lookup_insert_ne.
      * done.
      * rewrite lookup_insert_eq. by rewrite insert_insert_eq.
      * unfold hideEvent. cbn [subplot_widgets windows_created subscan_roots].
        rewrite lookup_fmap, lookup_insert_eq. cbn [fmap option_fmap option_map].
        eexists. split; [reflexivity|]. cbn [subplot_widgets windows_created].
        by rewrite !lookup_insert_eq.
    + destruct (subscan_roots self !! name) as [root|] eqn:Hr; [|done].
      intros [= <-]. cbn [subplot_widgets windows_created subscan_roots].
      split_and!.
      * eexists. rewrite lookup_insert_eq. split_and!; [done|done|]. by intros ? [=].
      * intros other Hne. by rewrite lookup_insert_ne.
      * done.
      * rewrite lookup_insert_eq. by rewrite insert_insert_eq.
      * unfold hideEvent. cbn [subplot_widgets windows_created subscan_roots].
        rewrite lookup_fmap, lookup_insert_eq. cbn [fmap option_fmap option_map].
        eexists. split; [reflexivity|]. cbn [subplot_widgets windows_created].
        by rewrite !lookup_insert_eq.
  - destruct (subplot_widgets self !! name) as [w0|].
    + split; [by intros [? [=]]|by intros [[=] _]].
    + destruct (subscan_roots self !! name) as [root|].
      * split; [by intros [? [=]]|by intros [_ [=]]].
      * split; [done|]. intros _. by eexists.
  - intros e. destruct (subplot_widgets self !! name) as [w0|]; [done|].
    destruct (subscan_roots self !! name) as [root|]; [done|]. by intros [= <-].
Qed.

End subplot_windows.

(** ** The y axes of [MultiYAxisPlotWidget] *)

(** X25.  Whatever the calls of [new_y_axis] and [reset_y_axes] made on a
    new widget: there is one additional view box for every axis but the
    first, one additional right axis for every axis but the first two, and
    no view box or axis is listed twice. *)
Theorem y_axes_invariant calls :
  let w := MultiYAxisPlotWidget.run_calls MultiYAxisPlotWidget.__init__ calls in
  length (MultiYAxisPlotWidget._additional_view_boxes w)
    = (MultiYAxisPlotWidget._num_y_axes w - 1)%nat ∧
  length (MultiYAxisPlotWidget._additional_right_axes w)
    = (MultiYAxisPlotWidget._num_y_axes w - 2)%nat ∧
  NoDup (MultiYAxisPlotWidget._additional_view_boxes w) ∧
  NoDup (MultiYAxisPlotWidget._additional_right_axes w).
Proof.
  cbn zeta.
  cut (let w := MultiYAxisPlotWidget.run_calls MultiYAxisPlotWidget.__init__ calls in
       (length (MultiYAxisPlotWidget._additional_view_boxes w)
          = (MultiYAxisPlotWidget._num_y_axes w - 1)%nat ∧
        length (MultiYAxisPlotWidget._additional_right_axes w)
          = (MultiYAxisPlotWidget._num_y_axes w - 2)%nat ∧
        NoDup (MultiYAxisPlotWidget._additional_view_boxes w) ∧
        NoDup (MultiYAxisPlotWidget._additional_right_axes w)) ∧
       (∀ id, MultiYAxisPlotWidget.NewViewBox id
                ∈ MultiYAxisPlotWidget._additional_view_boxes w →
              (id < MultiYAxisPlotWidget.created w)%nat) ∧
       (∀ id, MultiYAxisPlotWidget.NewAxisItem id
                ∈ MultiYAxisPlotWidget._additional_right_axes w →
              (id < MultiYAxisPlotWidget.created w)%nat)).
  { cbn zeta. tauto. }
  cbn zeta. unfold MultiYAxisPlotWidget.run_calls.
  induction calls as [|c calls IH] using rev_ind.
  - cbn. split_and!; try done; try apply NoDup_nil_2; intros id Hid; by apply elem_of_nil in Hid.
  - rewrite foldl_app. cbn [foldl].
    destruct IH as ((Hvb & Hax & Hnvb & Hnax) & Hfvb & Hfax).
    set (w := foldl MultiYAxisPlotWidget.run_call MultiYAxisPlotWidget.__init__ calls) in *.
    destruct c; cbn [MultiYAxisPlotWidget.run_call].
    + unfold MultiYAxisPlotWidget.new_y_axis.
      destruct (decide (S (MultiYAxisPlotWidget._num_y_axes w) = 1%nat)) as [H1|H1];
        [|destruct (decide (S (MultiYAxisPlotWidget._num_y_axes w) = 2%nat)) as [H2|H2]];
        cbn [fst MultiYAxisPlotWidget._num_y_axes MultiYAxisPlotWidget._additional_view_boxes
             MultiYAxisPlotWidget._additional_right_axes MultiYAxisPlotWidget.created].
      * split_and!; try done; lia.
      * split_and!; try done.
        -- rewrite length_app. cbn [length]. lia.
        -- lia.
        -- apply list.NoDup_app. split_and!; [done| |apply NoDup_singleton].
           intros x Hx Hx'. apply list_elem_of_singleton in Hx'. subst x.
           apply Hfvb in Hx. lia.
        -- intros id Hid. apply elem_of_app in Hid as [Hid|Hid].
           ++ apply Hfvb in Hid. lia.
           ++ apply list_elem_of_singleton in Hid. injection Hid as ->. lia.
        -- intros id Hid. apply Hfax in Hid. lia.
      * split_and!.
        -- rewrite length_app. cbn [length]. lia.
        -- rewrite length_app. cbn [length]. lia.
        -- apply list.NoDup_app. split_and!; [done| |apply NoDup_singleton].
           intros x Hx Hx'. apply list_elem_of_singleton in Hx'. subst x.
           apply Hfvb in Hx. lia.
        -- apply list.NoDup_app. split_and!; [done| |apply NoDup_singleton].
           intros x Hx Hx'. apply list_elem_of_singleton in Hx'. subst x.
           apply Hfax in Hx. lia.
        -- intros id Hid. apply elem_of_app in Hid as [Hid|Hid].
           ++ apply Hfvb in Hid. lia.
           ++ apply list_elem_of_singleton in Hid. injection Hid as ->. lia.
        -- intros id Hid. apply elem_of_app in Hid as [Hid|Hid].
           ++ apply Hfax in Hid. lia.
           ++ apply list_elem_of_singleton in Hid. injection Hid as ->. lia.
    + cbn. split_and!; try done; try apply NoDup_nil_2;
        intros id Hid; by apply elem_of_nil in Hid.
Qed.

(** ** The context menu of [_XYPlotWidget] *)

Section xy_context_menu.
Import XYContextMenu.

Lemma loop_entries datasets fr :
  let fr' := foldl loop_body fr datasets in
  d fr' = match list.last datasets with Some name => Some name | None => d fr end ∧
  entries fr' = entries fr ++
    ((λ name, {| entry_action :=
                   {| action_class_of := QAction;
                      text := "Set '" +:+ name +:+ "' from crosshair";
                      isSeparator := false |};
                 entry_triggered := Some (λ d x, _set_dataset_from_crosshair_x x d) |})
       <$> datasets).
Proof.
  cbn zeta. induction datasets as [|name datasets IH] using rev_ind.
  - cbn. by rewrite app_nil_r.
  - rewrite foldl_app, last_snoc, fmap_app. cbn [foldl loop_body d entries].
    destruct IH as [_ ->]. by rewrite app_assoc.
Qed.

(** X26.  The menu has one entry for every linked dataset, labelled with
    the name of the dataset, and a separator after them; whichever of the
    entries is picked, the dataset that is set from the crosshair is the
    last one of the list. *)
Theorem xy_menu_sets_last_dataset datasets final i name x :
  list.last datasets = Some final →
  datasets !! i = Some name →
  ∃ fr e,
    _install_context_menu datasets = Some fr ∧
    length (entries fr) = S (length datasets) ∧
    (entry_action <$> list.last (entries fr)) = Some separator ∧
    entries fr !! i = Some e ∧
    text (entry_action e) = "Set '" +:+ name +:+ "' from crosshair" ∧
    trigger fr i (Some x) = Some (Ok {| call_key := final; call_value := x |}).
Proof.
  intros Hlast Hi. unfold _install_context_menu.
  destruct (loop_entries datasets {| d := None; entries := [] |}) as [Hd He].
  cbn zeta in Hd, He. rewrite Hlast in Hd. cbn [entries app] in He.
  rewrite Hd, He.
  destruct datasets as [|name0 datasets]; [done|].
  rewrite <- He. cbn [fmap list_fmap]. rewrite He.
  eexists _, _. split; [reflexivity|]. cbn [entries].
  split_and!.
  - rewrite length_app, length_fmap. cbn [length]. lia.
  - by rewrite last_snoc.
  - rewrite lookup_app_l by (rewrite length_fmap; by eapply lookup_lt_Some).
    rewrite list_lookup_fmap, Hi. reflexivity.
  - done.
  - unfold trigger. cbn [entries d].
    rewrite lookup_app_l by (rewrite length_fmap; by eapply lookup_lt_Some).
    rewrite list_lookup_fmap, Hi. reflexivity.
Qed.

End xy_context_menu.

Lemma xy_menu_sets_last_dataset_witness :
  ∃ fr e,
    XYContextMenu._install_context_menu ["first"; "second"] = Some fr ∧
    length (XYContextMenu.entries fr) = 3%nat ∧
    (XYContextMenu.entry_action <$> list.last (XYContextMenu.entries fr))
      = Some separator ∧
    XYContextMenu.entries fr !! 0%nat = Some e ∧
    text (XYContextMenu.entry_action e) = "Set 'first' from crosshair" ∧
    XYContextMenu.trigger fr 0 (Some 1%Qc)
      = Some (Ok {| XYContextMenu.call_key := "second";
                    XYContextMenu.call_value := 1%Qc |}).
Proof.
  by apply (xy_menu_sets_last_dataset ["first"; "second"] "second" 0 "first" 1%Qc).
Defined.
